(** * LightWeightOrcha: the disk artifact store and the segment orchestrator

    A shallow embedding of [src/disk_writer.py] (class [DiskInteractions])
    and [src/orchestrator.py] (class [LWOrchestrator]), followed by the
    properties of the specification that concern them.

    Python code runs against a world (file system, process environment,
    random source, clock, logging output); every method is a function in
    the state-and-exception monad [M] over that world.  A method that the
    source can leave through an exception returns [Raise e]. *)

From Stdlib Require Import ZArith NArith Ascii String List Lia.
From stdpp Require Import base option gmap strings list fin_maps.

Open Scope string_scope.
Open Scope list_scope.
#[local] Set Warnings "-register-all".

(** ** Python strings and [os.path] *)

Module PyStr.

(** [sep.join(l)] *)
Fixpoint join (sep : string) (l : list string) : string :=
  match l with
  | [] => ""
  | [x] => x
  | x :: r => x +:+ sep +:+ join sep r
  end.

(** [s.split(sep)] for a one-character separator: never empty. *)
Fixpoint split_on (sep : ascii) (s : string) : list string :=
  match s with
  | EmptyString => [""]
  | String c r =>
      if Ascii.eqb c sep then "" :: split_on sep r
      else match split_on sep r with
           | [] => [String c ""]
           | h :: t => String c h :: t
           end
  end.

(** [s.startswith(prefix)] and [s.endswith(suffix)] *)
Definition startswith (s pre : string) : bool := String.prefix pre s.

Definition endswith (s suffix : string) : bool :=
  String.prefix (String.rev suffix) (String.rev s).

(** [s.rfind(c)]: index of the last occurrence of [c], [-1] if none. *)
Fixpoint rfind_from (c : ascii) (s : string) (i last : Z) : Z :=
  match s with
  | EmptyString => last
  | String a r => rfind_from c r (i + 1) (if Ascii.eqb a c then i else last)
  end.

Definition rfind (c : ascii) (s : string) : Z := rfind_from c s 0 (-1).

(** The slices [s[i:]], [s[:i]] and [s[i:j]] for [0 <= i <= j]. *)
Definition slice_from (i : Z) (s : string) : string :=
  substring (Z.to_nat i) (String.length s - Z.to_nat i) s.

Definition slice_to (i : Z) (s : string) : string :=
  substring 0 (Z.to_nat i) s.

Definition slice (i j : Z) (s : string) : string :=
  substring (Z.to_nat i) (Z.to_nat j - Z.to_nat i) s.

(** [s.rstrip("/")] *)
Fixpoint lstrip_slash (s : string) : string :=
  match s with
  | String c r => if Ascii.eqb c "/" then lstrip_slash r else s
  | EmptyString => s
  end.

Definition rstrip_slash (s : string) : string :=
  String.rev (lstrip_slash (String.rev s)).

(** [posixpath.basename]: [i = p.rfind('/') + 1; return p[i:]]. *)
Definition basename (p : string) : string :=
  slice_from (rfind "/" p + 1) p.

(** [posixpath.split]: the head loses its trailing slashes unless it
    consists of slashes only. *)
Definition split (p : string) : string * string :=
  let i := (rfind "/" p + 1)%Z in
  let head := slice_to i p in
  let tail := slice_from i p in
  let head := if String.eqb (lstrip_slash head) "" then head
              else rstrip_slash head in
  (head, tail).

(** [posixpath.splitext] ([genericpath._splitext]): split at the last
    dot of the last component, unless that component consists of
    leading dots only up to there. *)
Definition splitext (p : string) : string * string :=
  let sepIndex := rfind "/" p in
  let dotIndex := rfind "." p in
  if (sepIndex <? dotIndex)%Z
     && existsb (fun c => negb (Ascii.eqb c "."))
          (list_ascii_of_string (slice (sepIndex + 1) dotIndex p))
  then (slice_to dotIndex p, slice_from dotIndex p)
  else (p, "").

(** Decimal rendering of a number, left-padded with zeros to [width]
    digits, as [strftime] renders the fields of a date. *)
Definition digit (n : nat) : ascii :=
  ascii_of_nat (48 + n mod 10).

Fixpoint digits (width n : nat) (acc : string) : string :=
  match width with
  | 0 => acc
  | S w => digits w (n / 10) (String (digit n) acc)
  end.

Definition zero_padded (width n : nat) : string := digits width n "".

End PyStr.

(** ** [pathlib.PurePosixPath]

    A path object is its anchor and its list of components; the
    constructor drops empty and [.] components and keeps [..]. *)

Record Path := mkPath { anchored : bool; parts : list string }.

Module PyPath.

Definition parse_parts (s : string) : list string :=
  List.filter (fun c => negb (String.eqb c "" || String.eqb c "."))
              (PyStr.split_on "/" s).

(** [Path(s)] *)
Definition of_string (s : string) : Path :=
  {| anchored := PyStr.startswith s "/"; parts := parse_parts s |}.

(** [p.joinpath(other)]: an absolute [other] replaces [p]. *)
Definition joinpath (p : Path) (other : string) : Path :=
  if PyStr.startswith other "/" then of_string other
  else {| anchored := anchored p; parts := parts p ++ parse_parts other |}.

(** [str(p)], which is also [os.fspath(p)] *)
Definition to_string (p : Path) : string :=
  match anchored p, parts p with
  | false, [] => "."
  | a, ps => (if a then "/" else "") +:+ PyStr.join "/" ps
  end.

End PyPath.

(** What the code passes where a file name is expected: a [str], or the
    [Path] object that [write_output] builds. *)
Inductive pathlike :=
| PStr (s : string)
| PPath (p : Path).

(** [os.fspath] *)
Definition fspath (f : pathlike) : string :=
  match f with
  | PStr s => s
  | PPath p => PyPath.to_string p
  end.

(** ** Python values: payloads and process results *)

Inductive value :=
| VNone
| VBool (b : bool)
| VInt (z : Z)
| VStr (s : string)
| VList (l : list value)
| VDict (d : list (string * value))
| VFrame (columns : list string) (rows : list (list string))
    (** an object with a [to_csv] method, by the table that the method
        writes: a [pandas.DataFrame] or a [pandas.Series] *)
| VOpaque (picklable : bool).
    (** any other object, without a [to_csv] method: a set, an instance
        of a class of the caller, a lambda, ... *)

(** A [dict] keeps insertion order; assigning to a key that is present
    replaces its value in place. *)
Definition pydict (K V : Type) := list (K * V).

Fixpoint dict_set {K V} `{EqDecision K} (k : K) (v : V) (d : pydict K V)
  : pydict K V :=
  match d with
  | [] => [(k, v)]
  | (k', v') :: d' =>
      if decide (k = k') then (k, v) :: d' else (k', v') :: dict_set k v d'
  end.

Fixpoint dict_get {K V} `{EqDecision K} (k : K) (d : pydict K V) : option V :=
  match d with
  | [] => None
  | (k', v') :: d' => if decide (k = k') then Some v' else dict_get k d'
  end.

(** [{**base, **extra}]: a new dict, [base] updated with every item of
    [extra] in order. *)
Definition dict_merge {K V} `{EqDecision K} (base extra : pydict K V)
  : pydict K V :=
  fold_left (fun d kv => dict_set (fst kv) (snd kv) d) extra base.

(** [json.dump] accepts these values and raises [TypeError] on the rest. *)
Fixpoint json_serializable (v : value) : bool :=
  match v with
  | VNone | VBool _ | VInt _ | VStr _ => true
  | VList l => forallb json_serializable l
  | VDict d => forallb (fun kv => json_serializable (snd kv)) d
  | VFrame _ _ | VOpaque _ => false
  end.

(** [joblib.dump] pickles everything but an unpicklable object. *)
Fixpoint picklable (v : value) : bool :=
  match v with
  | VNone | VBool _ | VInt _ | VStr _ | VFrame _ _ => true
  | VList l => forallb picklable l
  | VDict d => forallb (fun kv => picklable (snd kv)) d
  | VOpaque p => p
  end.

(** ** The world the code runs in *)

(** The exceptions that the modelled code and library calls raise; all of
    them are subclasses of [Exception]. *)
Inductive exn :=
| ValueError (msg : string)
| AttributeError (name : string)
| KeyError (key : value)
| TypeError (msg : string)
| NotImplementedError
| FileNotFoundError
| FileExistsError
| IsADirectoryError
| NotADirectoryError
| OSError (errno : string)
    (** an [OSError] without a class of its own, by the name of its
        error number: ENAMETOOLONG, ENOTEMPTY, EINVAL, EBUSY *)
| RecursionError
| PicklingError.

(** [except OSError] catches these. *)
Definition is_OSError (e : exn) : bool :=
  match e with
  | FileNotFoundError | FileExistsError
  | IsADirectoryError | NotADirectoryError | OSError _ => true
  | _ => false
  end.

(** [except FileExistsError] *)
Definition is_FileExistsError (e : exn) : bool :=
  match e with
  | FileExistsError => true
  | _ => false
  end.

(** What a file holds after a write: the serialised payload, tagged by
    the serialiser that produced it, or what is left of a file that was
    opened for writing by a serialiser that then failed. *)
Inductive content :=
| Truncated
| JsonText (v : value)
| CsvText (columns : list string) (rows : list (list string))
| Pickled (v : value).

Inductive node :=
| Dir
| File (c : content).

(** [datetime.utcnow()] *)
Record datetime := {
  year : nat; month : nat; day : nat;
  hour : nat; minute : nat; second : nat
}.

(** Records of the [logging] module and calls that leave the modelled
    code, in the order in which they happen. *)
Inductive event :=
| SettingBatchId (batch_id : string)
| CallingProcess (process : string)
| Invoked (process run_command : string)
| FailedMessages (messages : value)
| WritingResults (segment_list : list string)
| OutputWritten (channel batch_id : string)
| InvalidChannel (channel : string).

(** The file system maps the components of an absolute path to a node;
    the root directory is the empty path and is always there.  [cwd] is
    the working directory of the process, where the walk along a
    relative path starts; a world in which it has been removed is not
    modelled (every relative path is then reported missing).  There are
    no symbolic links, no permissions, no devices and no mount points,
    and the limits on names are those of Linux: a call of the [os]
    module fails only for the shape of the tree or of the path.  A path
    is the string of bytes that the file system sees.

    [recursion_room] is the number of nested calls of a recursive
    library function ([os.makedirs]) that the recursion limit of the
    interpreter still allows at the call. *)
Record World := {
  fs : gmap (list string) node;
  cwd : list string;
  recursion_room : nat;
  blob : gmap (string * string) value;
    (** the remote store, by container-relative key and file name *)
  environ : gmap string string;
  urandom : nat -> N;       (** the n-th draw of [os.urandom(16)] *)
  urandom_draws : nat;
  clock : nat -> datetime;  (** the n-th reading of the clock *)
  clock_reads : nat;
  log : list event
}.

Definition set_fs (f : gmap (list string) node) (w : World) : World :=
  {| fs := f; cwd := cwd w; recursion_room := recursion_room w;
     blob := blob w; environ := environ w;
     urandom := urandom w; urandom_draws := urandom_draws w;
     clock := clock w; clock_reads := clock_reads w; log := log w |}.

Definition set_blob (b : gmap (string * string) value) (w : World) : World :=
  {| fs := fs w; cwd := cwd w; recursion_room := recursion_room w;
     blob := b; environ := environ w;
     urandom := urandom w; urandom_draws := urandom_draws w;
     clock := clock w; clock_reads := clock_reads w; log := log w |}.

Definition set_urandom_draws (n : nat) (w : World) : World :=
  {| fs := fs w; cwd := cwd w; recursion_room := recursion_room w;
     blob := blob w; environ := environ w;
     urandom := urandom w; urandom_draws := n;
     clock := clock w; clock_reads := clock_reads w; log := log w |}.

Definition set_clock_reads (n : nat) (w : World) : World :=
  {| fs := fs w; cwd := cwd w; recursion_room := recursion_room w;
     blob := blob w; environ := environ w;
     urandom := urandom w; urandom_draws := urandom_draws w;
     clock := clock w; clock_reads := n; log := log w |}.

Definition set_log (l : list event) (w : World) : World :=
  {| fs := fs w; cwd := cwd w; recursion_room := recursion_room w;
     blob := blob w; environ := environ w;
     urandom := urandom w; urandom_draws := urandom_draws w;
     clock := clock w; clock_reads := clock_reads w; log := l |}.

(** ** The monad of Python code: state and exceptions *)

Inductive res (A : Type) :=
| Ok (a : A)
| Raise (e : exn).

Arguments Ok {A} a.
Arguments Raise {A} e.

Definition is_ok {A} (r : res A) : bool :=
  match r with Ok _ => true | Raise _ => false end.

Definition M (A : Type) : Type := World -> res A * World.

Definition ret {A} (a : A) : M A := fun w => (Ok a, w).

Definition raise {A} (e : exn) : M A := fun w => (Raise e, w).

Definition bind {A B} (m : M A) (k : A -> M B) : M B :=
  fun w =>
    match m w with
    | (Ok a, w') => k a w'
    | (Raise e, w') => (Raise e, w')
    end.

(** [try: body except Exception as e: handler] and its variant for a
    smaller class of exceptions. *)
Definition try_except {A} (body : M A) (handler : exn -> M A) : M A :=
  fun w =>
    match body w with
    | (Ok a, w') => (Ok a, w')
    | (Raise e, w') => handler e w'
    end.

Definition try_except_if {A} (catches : exn -> bool)
    (body : M A) (handler : exn -> M A) : M A :=
  fun w =>
    match body w with
    | (Ok a, w') => (Ok a, w')
    | (Raise e, w') => if catches e then handler e w' else (Raise e, w')
    end.

Definition lift_res {A} (r : res A) : M A := fun w => (r, w).

Definition gets {A} (f : World -> A) : M A := fun w => (Ok (f w), w).

Definition modify (f : World -> World) : M unit := fun w => (Ok tt, f w).

Definition emit (e : event) : M unit :=
  modify (fun w => set_log (log w ++ [e]) w).

Notation "'do' x <- m ; k" := (bind m (fun x => k))
  (at level 10, x pattern, m at level 100, k at level 200).

(** ** The [os] module over the file system *)

Module os.

(** The limits of Linux: a name has at most [NAME_MAX] bytes and a path
    fewer than [PATH_MAX]. *)
Definition NAME_MAX : nat := 255.
Definition PATH_MAX : nat := 4096.

(** A path with a NUL byte is refused by Python before any system
    call. *)
Definition has_nul (p : string) : bool :=
  existsb (Ascii.eqb Ascii.zero) (list_ascii_of_string p).

(** The components of a path: the pieces between its slashes that are
    not empty. *)
Definition components (p : string) : list string :=
  List.filter (fun c => negb (String.eqb c "")) (PyStr.split_on "/" p).

Definition lookup (f : gmap (list string) node) (cs : list string)
  : option node :=
  match cs with
  | [] => Some Dir
  | _ => f !! cs
  end.

(** The parent of the root is the root. *)
Definition parent (cs : list string) : list string := removelast cs.

(** One step of the walk along a path, from the directory at [cur]
    through the component [c], which has to lead to a directory. *)
Definition step (f : gmap (list string) node) (cur : list string)
    (c : string) : res (list string) :=
  if String.eqb c "." then Ok cur
  else if String.eqb c ".." then
    match lookup f (parent cur) with
    | Some Dir => Ok (parent cur)
    | _ => Raise FileNotFoundError
    end
  else if (NAME_MAX <? String.length c)%nat then
    Raise (OSError "ENAMETOOLONG")
  else
    match lookup f (cur ++ [c]) with
    | Some Dir => Ok (cur ++ [c])
    | Some (File _) => Raise NotADirectoryError
    | None => Raise FileNotFoundError
    end.

Fixpoint walk (f : gmap (list string) node) (cur : list string)
    (cs : list string) : res (list string) :=
  match cs with
  | [] => Ok cur
  | c :: rest =>
      match step f cur c with
      | Ok next => walk f next rest
      | Raise e => Raise e
      end
  end.

(** The last component of a path: none (the path consists of slashes),
    [.], [..] or a name. *)
Inductive final_component :=
| Root
| Dot
| DotDot
| Name (name : string).

Definition classify (c : string) : final_component :=
  if String.eqb c "." then Dot
  else if String.eqb c ".." then DotDot
  else Name c.

(** Where a path leads: the directory that the walk along all
    components but the last arrives at, the last component, and whether
    the path ends with a slash. *)
Record located := {
  directory : list string;
  final : final_component;
  slash : bool
}.

(** The entry that a located path stands for. *)
Definition position (l : located) : list string :=
  match final l with
  | Root => []
  | Dot => directory l
  | DotDot => parent (directory l)
  | Name name => directory l ++ [name]
  end.

(** The path walk of the system calls.  An absolute path is walked from
    the root, any other from the working directory; every component
    but the last has to lead to a directory. *)
Definition locate (f : gmap (list string) node) (cwd : list string)
    (p : string) : res located :=
  if has_nul p then Raise (ValueError "embedded null byte")
  else if String.eqb p "" then Raise FileNotFoundError
  else if (PATH_MAX <=? String.length p)%nat then
    Raise (OSError "ENAMETOOLONG")
  else
    let start := if PyStr.startswith p "/" then [] else cwd in
    match lookup f start with
    | Some Dir =>
        match walk f start (removelast (components p)) with
        | Raise e => Raise e
        | Ok d =>
            Ok {| directory := d;
                  final := match last (components p) with
                           | None => Root
                           | Some c => classify c
                           end;
                  slash := PyStr.endswith p "/" |}
        end
    | _ => Raise FileNotFoundError
    end.

(** What the system finds under the last component of a located path;
    a name that is too long is refused, and [.] and [..] lead to
    directories only. *)
Definition entry (f : gmap (list string) node) (l : located)
  : res (option node) :=
  match final l with
  | Name name =>
      if (NAME_MAX <? String.length name)%nat then
        Raise (OSError "ENAMETOOLONG")
      else Ok (lookup f (position l))
  | _ =>
      match lookup f (position l) with
      | Some Dir => Ok (Some Dir)
      | _ => Raise FileNotFoundError
      end
  end.

(** [os.stat]: the entry that the path leads to.  A regular file is not
    found under a name with a slash after it. *)
Definition stat (f : gmap (list string) node) (cwd : list string)
    (p : string) : res (list string * node) :=
  match locate f cwd p with
  | Raise e => Raise e
  | Ok l =>
      match entry f l with
      | Raise e => Raise e
      | Ok None => Raise FileNotFoundError
      | Ok (Some Dir) => Ok (position l, Dir)
      | Ok (Some (File c)) =>
          if slash l then Raise NotADirectoryError
          else Ok (position l, File c)
      end
  end.

Module path.

(** [os.path.exists]: whether [os.stat] succeeds; its [OSError] and
    [ValueError] are caught. *)
Definition exists_ (p : string) : M bool :=
  gets (fun w => is_ok (stat (fs w) (cwd w) p)).

(** [os.path.isfile] *)
Definition isfile (p : string) : M bool :=
  gets (fun w =>
    match stat (fs w) (cwd w) p with
    | Ok (_, File _) => true
    | _ => false
    end).

End path.

(** [os.mkdir]: the last component has to be a name that is not taken;
    a slash after it is allowed. *)
Definition mkdir (p : string) : M unit :=
  do w <- gets id;
  match locate (fs w) (cwd w) p with
  | Raise e => raise e
  | Ok l =>
      match final l, entry (fs w) l with
      | Name _, Raise e => raise e
      | Name _, Ok None => modify (set_fs (<[position l := Dir]> (fs w)))
      | _, _ => raise FileExistsError
      end
  end.

(** [os.makedirs(name)], with [exist_ok=False]:
[[
    head, tail = path.split(name)
    if not tail:
        head, tail = path.split(head)
    if head and tail and not path.exists(head):
        try:
            makedirs(head, exist_ok=exist_ok)
        except FileExistsError:
            pass
        if tail == curdir:
            return
    try:
        mkdir(name, mode)
    except OSError:
        if not exist_ok or not path.isdir(name):
            raise
]]
    Each nested call takes one of the calls that the recursion limit
    allows. *)
Fixpoint makedirs_rec (room : nat) (name : string) : M unit :=
  match room with
  | 0 => raise RecursionError
  | S room =>
      let (head, tail) := PyStr.split name in
      let (head, tail) :=
        if String.eqb tail "" then PyStr.split head else (head, tail) in
      do done <-
        (if negb (String.eqb head "") && negb (String.eqb tail "") then
           do present <- path.exists_ head;
           if negb present then
             do _ <- try_except_if is_FileExistsError
                       (makedirs_rec room head) (fun _ => ret tt);
             ret (String.eqb tail ".")
           else ret false
         else ret false);
      if done then ret tt else mkdir name
  end.

Definition makedirs (p : string) : M unit :=
  do room <- gets recursion_room;
  makedirs_rec room p.

(** [os.remove]: the last component has to be the name of a regular
    file. *)
Definition remove (p : string) : M unit :=
  do w <- gets id;
  match locate (fs w) (cwd w) p with
  | Raise e => raise e
  | Ok l =>
      match final l, entry (fs w) l with
      | Name _, Raise e => raise e
      | Name _, Ok None => raise FileNotFoundError
      | Name _, Ok (Some (File _)) =>
          if slash l then raise NotADirectoryError
          else modify (set_fs (delete (position l) (fs w)))
      | _, _ => raise IsADirectoryError
      end
  end.

(** [open(p, "w")]: the file is created or emptied.  The last component
    has to be a name without a slash after it, of a regular file or of
    nothing. *)
Definition open_w (p : string) : M (list string) :=
  do w <- gets id;
  match locate (fs w) (cwd w) p with
  | Raise e => raise e
  | Ok l =>
      if slash l then raise IsADirectoryError
      else
        match final l, entry (fs w) l with
        | Name _, Raise e => raise e
        | Name _, Ok (Some Dir) => raise IsADirectoryError
        | Name _, Ok _ =>
            do _ <- modify (set_fs (<[position l := File Truncated]> (fs w)));
            ret (position l)
        | _, _ => raise IsADirectoryError
        end
  end.

(** Writing through an open handle replaces what the file holds. *)
Definition write (cs : list string) (c : content) : M unit :=
  modify (fun w => set_fs (<[cs := File c]> (fs w)) w).

End os.

(** ** The serialisers behind a write

    [json.dump] into a file opened for writing, [DataFrame.to_csv] and
    [joblib.dump].  A payload that its serialiser refuses leaves the
    file that was opened for it behind, emptied. *)

Module serialisers.

(** [with open(file_name, "w") as fp: json.dump(data_out, fp)] *)
Definition json_dump_to (data_out : value) (file_name : string) : M unit :=
  do fp <- os.open_w file_name;
  if json_serializable data_out then os.write fp (JsonText data_out)
  else raise (TypeError "Object is not JSON serializable").

(** [data_out.to_csv(file_name, index=False)], for a payload that has
    the method. *)
Definition to_csv (data_out : value) (file_name : string) : M unit :=
  match data_out with
  | VFrame columns rows =>
      do fp <- os.open_w file_name;
      os.write fp (CsvText columns rows)
  | _ => raise (AttributeError "to_csv")
  end.

(** [joblib.dump(data_out, file_name)] *)
Definition joblib_dump (data_out : value) (file_name : string) : M unit :=
  do fp <- os.open_w file_name;
  if picklable data_out then os.write fp (Pickled data_out)
  else raise PicklingError.

End serialisers.

(** ** [src/disk_writer.py]: class [DiskInteractions]

    The [print] calls of the class only write to standard output and are
    left out. *)

Module DiskInteractions.

(** [datetime.utcnow().strftime('%Y.%m.%d_%H.%M.%S')], the year in four
    digits. *)
Definition strftime (t : datetime) : string :=
  PyStr.zero_padded 4 (year t) +:+ "." +:+
  PyStr.zero_padded 2 (month t) +:+ "." +:+
  PyStr.zero_padded 2 (day t) +:+ "_" +:+
  PyStr.zero_padded 2 (hour t) +:+ "." +:+
  PyStr.zero_padded 2 (minute t) +:+ "." +:+
  PyStr.zero_padded 2 (second t).

Definition utcnow : M datetime :=
  fun w => (Ok (clock w (clock_reads w)),
            set_clock_reads (S (clock_reads w)) w).

Definition _set_upload_file_name (file_name : pathlike) : M pathlike :=
  let file_name_parts := PyStr.splitext (fspath file_name) in
  do now <- utcnow;
  ret (PStr (fst file_name_parts +:+ "_" +:+ strftime now
             +:+ snd file_name_parts)).

Definition create_directory (directory_path : string) : M bool :=
  try_except
    (do present <- os.path.exists_ directory_path;
     if negb present then
       do _ <- os.mkdir directory_path;
       ret true
     else
       ret false)
    (fun e => ret false).

(** The branch for a path that exists falls off the end of the
    function: the call returns [None]. *)
Definition create_multilevel_directories (directory_path : string)
  : M (option bool) :=
  try_except
    (do present <- os.path.exists_ directory_path;
     if negb present then
       do _ <- os.makedirs directory_path;
       ret (Some true)
     else
       ret None)
    (fun e => ret (Some false)).

Definition _ret_result_or_bool
    (ret_result result_when_true result_when_false : bool) : bool :=
  if ret_result then result_when_true else result_when_false.

Definition _write_json_data (data_out : value) (file_name : string)
  : M unit :=
  serialisers.json_dump_to data_out file_name.

Definition _write_csv_data (data_out : value) (file_name : string)
  : M unit :=
  serialisers.to_csv data_out file_name.

Definition _write_obj_data (data_out : value) (file_name : string)
  : M unit :=
  serialisers.joblib_dump data_out file_name.

(** [file_name.endswith] exists on a [str] only. *)
Definition _write_fun_from_file_extension
    (file_name : pathlike) (data_out : value) : M unit :=
  match file_name with
  | PPath _ => raise (AttributeError "endswith")
  | PStr file_name =>
      if PyStr.endswith file_name ".json" then
        _write_json_data data_out file_name
      else if PyStr.endswith file_name ".csv" then
        _write_csv_data data_out file_name
      else
        _write_obj_data data_out file_name
  end.

Definition _write_file (file_name : pathlike) (data_out : value) : M bool :=
  try_except
    (do _ <- _write_fun_from_file_extension file_name data_out;
     ret true)
    (fun e => ret false).

Definition write_file_to_disk (data_out : value) (file_name : pathlike)
    (include_datetime ret_result : bool) : M bool :=
  do upload_file_name <-
    (if include_datetime then _set_upload_file_name file_name
     else ret file_name);
  do result <- _write_file upload_file_name data_out;
  if result then
    ret (_ret_result_or_bool ret_result result true)
  else
    ret (_ret_result_or_bool ret_result result false).

Fixpoint write_files_loop (file_name_to_data_out_list : list (pathlike * value))
    (include_datetime ret_result : bool)
    (return_data : pydict string bool) : M (pydict string bool) :=
  match file_name_to_data_out_list with
  | [] => ret return_data
  | file_data :: rest =>
      let file_name := fst file_data in
      let data_out := snd file_data in
      do written <- write_file_to_disk data_out file_name
                      include_datetime ret_result;
      write_files_loop rest include_datetime ret_result
        (dict_set (PyStr.basename (fspath file_name)) written return_data)
  end.

Definition write_files_to_disk
    (file_name_to_data_out_list : list (pathlike * value))
    (include_datetime ret_result : bool) : M (pydict string bool) :=
  write_files_loop file_name_to_data_out_list include_datetime ret_result [].

Definition _delete_file (file_name : string) : M bool :=
  try_except
    (do present <- os.path.exists_ file_name;
     do _ <- (if present then os.remove file_name else ret tt);
     ret true)
    (fun e => ret false).

Definition delete_file_from_disk (file_name : string) (ret_result : bool)
  : M bool :=
  do result <- _delete_file file_name;
  if result then
    ret (_ret_result_or_bool ret_result result true)
  else
    ret (_ret_result_or_bool ret_result result false).

End DiskInteractions.

(** ** [uuid.uuid4] and [str] of a UUID

    Sixteen random bytes as a 128-bit number, with the variant and the
    version fields overwritten; as a string, its 32 hexadecimal digits
    in groups of 8, 4, 4, 4 and 12. *)

Module uuid.

Definition uuid4_int (random : N) : N :=
  let int := N.modulo random (2 ^ 128) in
  let int := N.ldiff int (N.shiftl 0xc000 48) in
  let int := N.lor int (N.shiftl 0x8000 48) in
  let int := N.ldiff int (N.shiftl 0xf000 64) in
  N.lor int (N.shiftl 4 76).

Definition hex_digit (n : N) : ascii :=
  nth (N.to_nat n) (list_ascii_of_string "0123456789abcdef") "0"%char.

Definition nibble (int : N) (i : nat) : N :=
  N.land (N.shiftr int (4 * N.of_nat i)) 15.

(** ['%032x' % int] *)
Definition hex32 (int : N) : string :=
  string_of_list_ascii
    (map (fun i => hex_digit (nibble int i)) (rev (seq 0 32))).

(** [UUID.__str__]: ['%s-%s-%s-%s-%s' % (hex[:8], hex[8:12], hex[12:16],
    hex[16:20], hex[20:])] *)
Definition hyphenate (hex : string) : string :=
  PyStr.slice_to 8 hex +:+ "-" +:+ PyStr.slice 8 12 hex +:+ "-" +:+
  PyStr.slice 12 16 hex +:+ "-" +:+ PyStr.slice 16 20 hex +:+ "-" +:+
  PyStr.slice_from 20 hex.

Definition to_string (int : N) : string := hyphenate (hex32 int).

Definition uuid4 : M N :=
  fun w => (Ok (uuid4_int (urandom w (urandom_draws w))),
            set_urandom_draws (S (urandom_draws w)) w).

(** The textual form of a UUID: 36 characters, hyphens at positions
    8, 13, 18 and 23, hexadecimal digits elsewhere. *)
Definition is_hex (c : ascii) : bool :=
  let n := nat_of_ascii c in
  (((48 <=? n) && (n <=? 57)) || ((97 <=? n) && (n <=? 102))
   || ((65 <=? n) && (n <=? 70)))%nat.

Fixpoint well_formed_from (i : nat) (s : list ascii) : bool :=
  match s with
  | [] => Nat.eqb i 36
  | c :: r =>
      (if (Nat.eqb i 8 || Nat.eqb i 13 || Nat.eqb i 18 || Nat.eqb i 23)%bool
       then Ascii.eqb c "-" else is_hex c)
      && well_formed_from (S i) r
  end.

Definition well_formed (s : string) : bool :=
  well_formed_from 0 (list_ascii_of_string s).

End uuid.

(** ** Collaborators outside the repository *)

(** A process module: a class is its constructor, an instance is its
    attribute lookup for run operations, a run operation maps its
    keyword arguments to a result or an exception. *)
Definition kwargs := pydict string value.
Definition run_operation := kwargs -> res value.
Definition process_object := string -> option run_operation.
Definition process_class := kwargs -> res process_object.

(** The remote storage backend: [write_file_to_blob_storage] stores the
    payload under its key and file name. *)
Module remote.

Definition write_file_to_blob_storage
    (data_out : value) (key file_name : string) : M bool :=
  do _ <- modify (fun w => set_blob (<[(key, file_name) := data_out]> (blob w)) w);
  ret true.

End remote.

(** ** [src/orchestrator.py]: class [LWOrchestrator] *)

(** An argument of a call is given or left out; a parameter that is left
    out takes the default of the signature. *)
Inductive arg (A : Type) :=
| Omitted
| Given (a : A).

Arguments Omitted {A}.
Arguments Given {A} a.

Definition bind_default {A} (default : A) (a : arg A) : A :=
  match a with
  | Omitted => default
  | Given x => x
  end.

(** An attribute of an instance is assigned or was never assigned;
    reading one that was never assigned raises [AttributeError]. *)
Inductive attr (A : Type) :=
| Unset
| Attr (a : A).

Arguments Unset {A}.
Arguments Attr {A} a.

Definition getattr {A} (name : string) (a : attr A) : M A :=
  match a with
  | Attr x => ret x
  | Unset => raise (AttributeError name)
  end.

(** The dict that describes one process (docstring of [run_process]). *)
Record process_dict := {
  process : string;
  constructor_options : kwargs;
  run_command : string;
  run_options : kwargs
}.

(** What [self.interactor] can hold: an instance of [DiskInteractions],
    or a client of the remote backend. *)
Inductive Interactor :=
| DiskStore
| BlobStore.

(** [str(x)] inside an f-string, for a string or [None]. *)
Definition format_optional (x : option string) : string :=
  match x with
  | Some s => s
  | None => "None"
  end.

Module LWOrchestrator.

(** The instance.  [__init__] assigns the first eight attributes; the
    methods read three more, which only code outside the class can
    assign. *)
Record t := {
  segment_list : list string;
  id_val : option string;
  module_mapping : option (gmap string process_class);
  module_config : option value;
  container : option string;
  base_path : Path;
  results_channel : string;
  batch_id : string;
  module_id_list : attr (list Z);
  run_config : attr (pydict Z process_dict);
  interactor : attr Interactor
}.

(** Assignments [obj.module_id_list = ...], [obj.run_config = ...] and
    [obj.interactor = ...] from outside the class. *)
Definition set_module_id_list (ids : list Z) (self : t) : t :=
  {| segment_list := segment_list self; id_val := id_val self;
     module_mapping := module_mapping self;
     module_config := module_config self; container := container self;
     base_path := base_path self; results_channel := results_channel self;
     batch_id := batch_id self; module_id_list := Attr ids;
     run_config := run_config self; interactor := interactor self |}.

Definition set_run_config (cfg : pydict Z process_dict) (self : t) : t :=
  {| segment_list := segment_list self; id_val := id_val self;
     module_mapping := module_mapping self;
     module_config := module_config self; container := container self;
     base_path := base_path self; results_channel := results_channel self;
     batch_id := batch_id self; module_id_list := module_id_list self;
     run_config := Attr cfg; interactor := interactor self |}.

Definition set_interactor (i : Interactor) (self : t) : t :=
  {| segment_list := segment_list self; id_val := id_val self;
     module_mapping := module_mapping self;
     module_config := module_config self; container := container self;
     base_path := base_path self; results_channel := results_channel self;
     batch_id := batch_id self; module_id_list := module_id_list self;
     run_config := run_config self; interactor := Attr i |}.

(** The arguments of a constructor call. *)
Record init_args := {
  arg_module_mapping : arg (option (gmap string process_class));
  arg_batch_id : arg (option string);
  arg_segment_list : arg (option (list string));
  arg_run_config : arg (option (pydict Z process_dict));
  arg_results_channel : arg (option string);
  arg_id_val : arg (option string)
}.

Definition set_batch_id : M string :=
  do int <- uuid.uuid4;
  let batch_id := uuid.to_string int in
  do _ <- emit (SettingBatchId batch_id);
  ret batch_id.

Definition __init__ (args : init_args) : M t :=
  let module_mapping := bind_default None (arg_module_mapping args) in
  let batch_id := bind_default (Some "batch_1") (arg_batch_id args) in
  let segment_list := bind_default None (arg_segment_list args) in
  let run_config := bind_default None (arg_run_config args) in
  let results_channel :=
    bind_default (Some "blob_storage") (arg_results_channel args) in
  let id_val := bind_default None (arg_id_val args) in
  match segment_list with
  | None => raise (ValueError "A segment list must be added!")
  | Some segment_list =>
      do container <- gets (fun w => environ w !! "STORAGE_CONTAINER");
      let base_path :=
        PyPath.of_string
          ("forecast/" +:+ format_optional batch_id +:+ "/segment_results/") in
      let results_channel :=
        match results_channel with
        | None => "disk"
        | Some results_channel => results_channel
        end in
      do batch_id <-
        match batch_id with
        | None => set_batch_id
        | Some batch_id => ret batch_id
        end;
      ret {| segment_list := segment_list;
             id_val := id_val;
             module_mapping := module_mapping;
             module_config := None;
             container := container;
             base_path := base_path;
             results_channel := results_channel;
             batch_id := batch_id;
             module_id_list := Unset;
             run_config := Unset;
             interactor := Unset |}
  end.

Definition _upload_file_to_output_channel (self : t)
    (data_out : value) (file_name : pathlike) : M unit :=
  if decide (results_channel self = "disk") then
    do interactor <- getattr "interactor" (interactor self);
    match interactor with
    | DiskStore =>
        do _ <- DiskInteractions.write_file_to_disk
                  data_out file_name false false;
        ret tt
    | BlobStore => raise (AttributeError "write_file_to_disk")
    end
  else if decide (results_channel self = "azure_blob") then
    let '(key, name) := PyStr.split (fspath file_name) in
    do interactor <- getattr "interactor" (interactor self);
    match interactor with
    | BlobStore =>
        do _ <- remote.write_file_to_blob_storage data_out key name;
        ret tt
    | DiskStore => raise (AttributeError "write_file_to_blob_storage")
    end
  else
    do _ <- emit (InvalidChannel (results_channel self));
    raise NotImplementedError.

Definition write_output (self : t) (data : pydict string value)
    (segment_list : list string) : M unit :=
  do _ <- emit (WritingResults segment_list);
  do _ <- _upload_file_to_output_channel self (VDict data)
            (PPath (PyPath.joinpath (base_path self)
                      (PyStr.join "_" segment_list +:+ "_results.json")));
  emit (OutputWritten (results_channel self) (batch_id self)).

(** The comprehension reads [self.module_id_list] once per item. *)
Fixpoint select_segment (self : t) (module_dict : pydict Z process_dict)
  : M (pydict Z process_dict) :=
  match module_dict with
  | [] => ret []
  | (k, v) :: items =>
      do ids <- getattr "module_id_list" (module_id_list self);
      do selected <- select_segment self items;
      ret (if bool_decide (k ∈ ids) then (k, v) :: selected else selected)
  end.

Definition retry_msg (messages : value) : M unit :=
  emit (FailedMessages messages).

Definition run_process (self : t) (process_dict : process_dict)
  : M (pydict string value) :=
  do _ <- emit (CallingProcess (process process_dict));
  do mapping <-
    match module_mapping self with
    | Some mapping => ret mapping
    | None => raise (TypeError "'NoneType' object is not subscriptable")
    end;
  do class <-
    match mapping !! process process_dict with
    | Some class => ret class
    | None => raise (KeyError (VStr (process process_dict)))
    end;
  do process_obj <- lift_res (class (constructor_options process_dict));
  do run <-
    match process_obj (run_command process_dict) with
    | Some run => ret run
    | None => raise (AttributeError (run_command process_dict))
    end;
  do _ <- emit (Invoked (process process_dict) (run_command process_dict));
  do result <- lift_res (run (run_options process_dict));
  ret [(process process_dict, result)].

Definition append_to_results (base_dict append_dict : pydict string value)
  : pydict string value :=
  dict_merge base_dict append_dict.

(** A dict is true when it is not empty. *)
Definition truthy (d : pydict string value) : bool :=
  match d with
  | [] => false
  | _ => true
  end.

(** The body of the [for] loop.  The dict that [append_to_results]
    returns is not bound to anything: [results] stays what it was. *)
Fixpoint run_segment_loop (self : t) (ids : list Z)
    (results : pydict string value) : M (pydict string value) :=
  match ids with
  | [] => ret results
  | process :: ids =>
      do config <- getattr "run_config" (run_config self);
      do spec <-
        match dict_get process config with
        | Some spec => ret spec
        | None => raise (KeyError (VInt process))
        end;
      do result <- run_process self spec;
      let _ := if truthy result
               then Some (append_to_results results result)
               else None in
      run_segment_loop self ids results
  end.

Definition run_segment (self : t) : M unit :=
  let results := [] in
  do ids <- getattr "module_id_list" (module_id_list self);
  do results <- run_segment_loop self ids results;
  do _ <-
    match dict_get "run_queue" results with
    | None | Some VNone => ret tt
    | Some messages => retry_msg messages
    end;
  write_output self results (segment_list self).

End LWOrchestrator.

(** ** Worlds and inputs for the examples *)

Definition epoch : datetime :=
  {| year := 2024; month := 3; day := 9; hour := 7; minute := 5; second := 0 |}.

(** An empty file system with its root as working directory, an empty
    remote store, no environment variables. *)
Definition fresh_world : World :=
  {| fs := ∅; cwd := []; recursion_room := 900; blob := ∅; environ := ∅;
     urandom := fun n => (0x123456789abcdef0123456789abcdef0 + N.of_nat n)%N;
     urandom_draws := 0;
     clock := fun n => epoch; clock_reads := 0;
     log := [] |}.

(** The constructor call of the script at the end of
    [src/orchestrator.py], with [batch_id] left out as well:
    [LWOrchestrator(segment_list=["segment"])]. *)
Definition segment_only : LWOrchestrator.init_args :=
  {| LWOrchestrator.arg_module_mapping := Omitted;
     LWOrchestrator.arg_batch_id := Omitted;
     LWOrchestrator.arg_segment_list := Given (Some ["segment"]);
     LWOrchestrator.arg_run_config := Omitted;
     LWOrchestrator.arg_results_channel := Omitted;
     LWOrchestrator.arg_id_val := Omitted |}.

(** [LWOrchestrator(segment_list=["segment"], batch_id=None,
    results_channel=None)] *)
Definition segment_and_nones : LWOrchestrator.init_args :=
  {| LWOrchestrator.arg_module_mapping := Omitted;
     LWOrchestrator.arg_batch_id := Given None;
     LWOrchestrator.arg_segment_list := Given (Some ["segment"]);
     LWOrchestrator.arg_run_config := Omitted;
     LWOrchestrator.arg_results_channel := Given None;
     LWOrchestrator.arg_id_val := Omitted |}.


(** A file system with the working directory [/home/app], which holds
    the directory [data] with one file in it and the file
    [notes.txt]. *)
Definition app_world : World :=
  {| fs := {[ ["home"; "app"; "notes.txt"] := File Truncated;
              ["home"; "app"; "data"; "in.json"] := File (JsonText (VInt 7));
              ["home"; "app"; "data"] := Dir;
              ["home"; "app"] := Dir;
              ["home"] := Dir ]};
     cwd := ["home"; "app"]; recursion_room := 900; blob := ∅; environ := ∅;
     urandom := fun n => (0x123456789abcdef0123456789abcdef0 + N.of_nat n)%N;
     urandom_draws := 0;
     clock := fun n => epoch; clock_reads := 0;
     log := [] |}.

(** [LWOrchestrator(segment_list=["segment"], results_channel="disk")] *)
Definition segment_and_disk : LWOrchestrator.init_args :=
  {| LWOrchestrator.arg_module_mapping := Omitted;
     LWOrchestrator.arg_batch_id := Omitted;
     LWOrchestrator.arg_segment_list := Given (Some ["segment"]);
     LWOrchestrator.arg_run_config := Omitted;
     LWOrchestrator.arg_results_channel := Given (Some "disk");
     LWOrchestrator.arg_id_val := Omitted |}.

(** [LWOrchestrator(segment_list=["segment"], results_channel="unknown")] *)
Definition segment_and_unknown : LWOrchestrator.init_args :=
  {| LWOrchestrator.arg_module_mapping := Omitted;
     LWOrchestrator.arg_batch_id := Omitted;
     LWOrchestrator.arg_segment_list := Given (Some ["segment"]);
     LWOrchestrator.arg_run_config := Omitted;
     LWOrchestrator.arg_results_channel := Given (Some "unknown");
     LWOrchestrator.arg_id_val := Omitted |}.

(** A process class whose instances have two run operations: [first]
    returns 1 and [second] returns 2. *)
Definition counting_class : process_class :=
  fun constructor_options =>
    Ok (fun run_command =>
          if decide (run_command = "first") then Some (fun _ => Ok (VInt 1))
          else if decide (run_command = "second") then Some (fun _ => Ok (VInt 2))
          else None).

(** Two processes, A and B, that both report under the key [k]: A
    returns 1 and B returns 2. *)
Definition process_A : process_dict :=
  {| process := "k"; constructor_options := [];
     run_command := "first"; run_options := [] |}.

Definition process_B : process_dict :=
  {| process := "k"; constructor_options := [];
     run_command := "second"; run_options := [] |}.

(** [LWOrchestrator(module_mapping={"k": counting_class},
    batch_id="test_1", segment_list=["segment"],
    run_config={1: process_A, 2: process_B},
    results_channel="azure_blob")] *)
Definition two_processes : LWOrchestrator.init_args :=
  {| LWOrchestrator.arg_module_mapping := Given (Some {[ "k" := counting_class ]});
     LWOrchestrator.arg_batch_id := Given (Some "test_1");
     LWOrchestrator.arg_segment_list := Given (Some ["segment"]);
     LWOrchestrator.arg_run_config :=
       Given (Some [(1%Z, process_A); (2%Z, process_B)]);
     LWOrchestrator.arg_results_channel := Given (Some "azure_blob");
     LWOrchestrator.arg_id_val := Omitted |}.

(** The three attributes that the constructor leaves out, assigned from
    outside: [obj.module_id_list = [1, 2]], [obj.run_config = {1:
    process_A, 2: process_B}], [obj.interactor = ] a client of the
    remote store. *)
Definition attach_two_processes (obj : LWOrchestrator.t) : LWOrchestrator.t :=
  LWOrchestrator.set_interactor BlobStore
    (LWOrchestrator.set_run_config [(1%Z, process_A); (2%Z, process_B)]
       (LWOrchestrator.set_module_id_list [1%Z; 2%Z] obj)).


(** ** Notions used by the statements *)

(** The name under which a write stores its payload: the given one, or
    the one with the time stamp. *)
Definition upload_name (file_name : pathlike) (include_datetime : bool)
  : M pathlike :=
  if include_datetime then DiskInteractions._set_upload_file_name file_name
  else ret file_name.

(** The batch write as the specification words it: [write] is invoked
    once per entry, in input order, whatever the earlier invocations
    returned; each invocation is recorded under the base name of its
    destination. *)
Fixpoint writes_in_order (entries : list (pathlike * value))
    (include_datetime ret_result : bool) (w : World)
  : list (string * res bool) * World :=
  match entries with
  | [] => ([], w)
  | (file_name, data_out) :: rest =>
      let (outcome, w1) :=
        DiskInteractions.write_file_to_disk
          data_out file_name include_datetime ret_result w in
      let (outcomes, w2) :=
        writes_in_order rest include_datetime ret_result w1 in
      ((PyStr.basename (fspath file_name), outcome) :: outcomes, w2)
  end.

(** Among recorded outcomes, the one that counts for a key is the last
    one recorded under it. *)
Definition last_outcome {A} (k : string) (outcomes : list (string * A))
  : option A :=
  dict_get k (rev outcomes).

(** A computation that draws nothing from the random source. *)
Definition keeps_draws {A} (m : M A) : Prop :=
  forall w : World, urandom_draws (snd (m w)) = urandom_draws w.

(** ** Plain paths *)

(** A string in which the separator does not occur. *)
Definition free_of (sep : ascii) (s : string) : bool :=
  forallb (fun c => negb (Ascii.eqb c sep)) (list_ascii_of_string s).

(** A name as it stands in a plain path: not empty, not [.] or [..],
    without a slash or a NUL byte, and no longer than the name of a
    directory entry can be. *)
Definition plain_name (c : string) : bool :=
  free_of "/" c && negb (os.has_nul c) &&
  negb (String.eqb c "" || String.eqb c "." || String.eqb c "..") &&
  (String.length c <=? os.NAME_MAX)%nat.





(** ** More of the [os] module, [shutil] and opening for reading *)

Module os_more.

(** [os.path.join] of two parts *)
Definition join (a b : string) : string :=
  if PyStr.startswith b "/" then b
  else if String.eqb a "" || PyStr.endswith a "/" then a +:+ b
  else a +:+ "/" +:+ b.

(** The names directly below the directory at [cs], in the order in
    which the tree keeps them. *)
Definition children (f : gmap (list string) node) (cs : list string)
  : list string :=
  omap (fun kn : list string * node =>
          if decide (fst kn <> [] /\ os.parent (fst kn) = cs)
          then last (fst kn) else None)
       (map_to_list f).

(** [os.listdir] *)
Definition listdir (p : string) : M (list string) :=
  do w <- gets id;
  match os.stat (fs w) (cwd w) p with
  | Raise e => raise e
  | Ok (_, File _) => raise NotADirectoryError
  | Ok (cs, Dir) => ret (children (fs w) cs)
  end.

(** [os.rmdir]: the last component has to be the name of an empty
    directory; the system refuses the root, [.] and [..]. *)
Definition rmdir (p : string) : M unit :=
  do w <- gets id;
  match os.locate (fs w) (cwd w) p with
  | Raise e => raise e
  | Ok l =>
      match os.final l with
      | os.Root => raise (OSError "EBUSY")
      | os.Dot => raise (OSError "EINVAL")
      | os.DotDot => raise (OSError "ENOTEMPTY")
      | os.Name _ =>
          match os.entry (fs w) l with
          | Raise e => raise e
          | Ok None => raise FileNotFoundError
          | Ok (Some (File _)) => raise NotADirectoryError
          | Ok (Some Dir) =>
              match children (fs w) (os.position l) with
              | [] => modify (set_fs (delete (os.position l) (fs w)))
              | _ :: _ => raise (OSError "ENOTEMPTY")
              end
          end
      end
  end.

(** [shutil.rmtree]: all that lies below the directory is removed, then
    [os.rmdir] is called on the path as it was given. *)
Definition rmtree (p : string) : M unit :=
  do w <- gets id;
  match os.stat (fs w) (cwd w) p with
  | Raise e => raise e
  | Ok (_, File _) => raise NotADirectoryError
  | Ok (cs, Dir) =>
      do _ <- modify (set_fs
             (filter (fun kn : list string * node =>
                        ~ (cs `prefix_of` fst kn /\ fst kn <> cs)) (fs w)));
      rmdir p
  end.

(** [open(p, "r")] and reading all of the file *)
Definition open_r (p : string) : M content :=
  do w <- gets id;
  match os.stat (fs w) (cwd w) p with
  | Raise e => raise e
  | Ok (_, Dir) => raise IsADirectoryError
  | Ok (_, File c) => ret c
  end.

End os_more.

(** ** The decoders behind a read

    [json.load], [pandas.read_csv] and [joblib.load] turn what a file
    holds into a value or raise.  They belong to the libraries; the
    methods below take them as they come. *)

Definition dtypes := pydict string string.

Record decoders := {
  json_load : content -> res value;
  read_csv : content -> option dtypes -> res value;
  joblib_load : content -> res value
}.

(** Decoders that read back what the serialisers of this development
    wrote and refuse everything else. *)
Definition strict_decoders : decoders :=
  {| json_load := fun c =>
       match c with
       | JsonText v => Ok v
       | _ => Raise (ValueError "JSONDecodeError")
       end;
     read_csv := fun c _ =>
       match c with
       | CsvText columns rows => Ok (VFrame columns rows)
       | _ => Raise (ValueError "ParserError")
       end;
     joblib_load := fun c =>
       match c with
       | Pickled v => Ok v
       | _ => Raise (ValueError "UnpicklingError")
       end |}.

(** ** [src/disk_writer.py]: the other methods of [DiskInteractions] *)

(** An item of the list that [read_files_from_disk] takes: a file name,
    or a tuple of a file name and a mapping of column types. *)
Inductive read_request :=
| PlainName (file_name : string)
| WithTypes (file_name : string) (dtype_dict : dtypes).

(** [os.path.basename(file)] on such an item: [os.fspath] refuses a
    tuple. *)
Definition basename_of_request (file : read_request) : res string :=
  match file with
  | PlainName file_name => Ok (PyStr.basename file_name)
  | WithTypes _ _ =>
      Raise (TypeError "expected str, bytes or os.PathLike object, not tuple")
  end.

Module DiskInteractions_rest.

Definition _full_file_name (path name : string) : string :=
  os_more.join path name.

Fixpoint keep_files (directory_path : string) (files : list string)
  : M (list string) :=
  match files with
  | [] => ret []
  | file :: files =>
      do regular <- os.path.isfile (os_more.join directory_path file);
      do kept <- keep_files directory_path files;
      ret (if regular then file :: kept else kept)
  end.

Definition list_files_in_directory (directory_path : string)
    (files_only : bool) : M (list string) :=
  do files <- os_more.listdir directory_path;
  if files_only then keep_files directory_path files
  else ret files.

Section reading.

Context (lib : decoders).

Definition _read_json_data (file_name : string) : M value :=
  do fp <- os_more.open_r file_name;
  lift_res (json_load lib fp).

Definition _read_csv_data (file_name : string) (dtype_dict : option dtypes)
  : M value :=
  do fp <- os_more.open_r file_name;
  lift_res (read_csv lib fp dtype_dict).

Definition _read_obj_data (file_name : string) : M value :=
  do fp <- os_more.open_r file_name;
  lift_res (joblib_load lib fp).

Definition _read_fun_from_file_extension (file_name : string)
    (dtype_dict : option dtypes) : M value :=
  if PyStr.endswith file_name ".json" then
    _read_json_data file_name
  else if PyStr.endswith file_name ".csv" then
    _read_csv_data file_name dtype_dict
  else
    _read_obj_data file_name.

Definition _read_file (file_name : string) (dtype_dict : option dtypes)
  : M (value * bool) :=
  try_except
    (do data <- _read_fun_from_file_extension file_name dtype_dict;
     ret (data, true))
    (fun e => ret (VNone, false)).

Definition read_file_from_disk (file_name : string)
    (dtype_dict : option dtypes) : M value :=
  do read <- _read_file file_name dtype_dict;
  let data_ := fst read in
  let result := snd read in
  if result then ret data_ else ret data_.

(** The value is read first; the key is computed after it. *)
Fixpoint read_files_loop (files : list read_request)
    (return_data : pydict string value) : M (pydict string value) :=
  match files with
  | [] => ret return_data
  | file :: files =>
      let file_name :=
        match file with
        | WithTypes file_name _ | PlainName file_name => file_name
        end in
      let dtype_dict :=
        match file with
        | WithTypes _ dtype_dict => Some dtype_dict
        | PlainName _ => None
        end in
      do data <- read_file_from_disk file_name dtype_dict;
      do key <- lift_res (basename_of_request file);
      read_files_loop files (dict_set key data return_data)
  end.

Definition read_files_from_disk (files : list read_request)
  : M (pydict string value) :=
  read_files_loop files [].

End reading.

Fixpoint delete_files_loop (files : list string) (ret_result : bool)
    (return_data : pydict string bool) : M (pydict string bool) :=
  match files with
  | [] => ret return_data
  | file :: files =>
      do deleted <- DiskInteractions.delete_file_from_disk file ret_result;
      delete_files_loop files ret_result
        (dict_set (PyStr.basename file) deleted return_data)
  end.

Definition delete_files_from_disk (files : list string) (ret_result : bool)
  : M (pydict string bool) :=
  delete_files_loop files ret_result [].

Definition delete_empty_directory (directory_path : string) : M bool :=
  try_except_if is_OSError
    (do present <- os.path.exists_ directory_path;
     if present then
       do files <- list_files_in_directory directory_path false;
       match files with
       | [] =>
           do _ <- os_more.rmdir directory_path;
           ret true
       | _ :: _ => ret false
       end
     else
       ret false)
    (fun e => ret false).

Definition delete_directory (directory_path : string) : M bool :=
  try_except_if is_OSError
    (do present <- os.path.exists_ directory_path;
     if present then
       do _ <- os_more.rmtree directory_path;
       ret true
     else
       ret false)
    (fun e => ret false).

End DiskInteractions_rest.

(** ** Notions used by the further properties *)

(** A name that can stand as one component of a path. *)
Definition component (name : string) : bool :=
  free_of "/" name && negb (String.eqb name "" || String.eqb name ".").

(** The path leads to the entry [cs] by a name that the file system
    takes, without a slash after it: the place of a file. *)
Definition names_file (w : World) (p : string) (cs : list string) : Prop :=
  exists (l : os.located) (name : string),
    os.locate (fs w) (cwd w) p = Ok l /\ os.final l = os.Name name /\
    os.slash l = false /\ os.position l = cs /\
    (os.NAME_MAX <? String.length name)%nat = false.


(** What the serialiser chosen by a destination name stores for a
    payload, when it accepts the payload. *)
Definition encoding (file_name : string) (data_out : value) : option content :=
  if PyStr.endswith file_name ".json" then
    if json_serializable data_out then Some (JsonText data_out) else None
  else if PyStr.endswith file_name ".csv" then
    match data_out with
    | VFrame columns rows => Some (CsvText columns rows)
    | _ => None
    end
  else
    if picklable data_out then Some (Pickled data_out) else None.

(** Decoders that give back what [json.dump] and [joblib.dump] were
    given. *)
Definition inverts_json_and_pickle (lib : decoders) : Prop :=
  (forall v, json_load lib (JsonText v) = Ok v) /\
  (forall v, joblib_load lib (Pickled v) = Ok v).

(** The value that reading a file yields in a world. *)
Definition read_value (lib : decoders) (w : World) (file_name : string)
  : value :=
  match fst (DiskInteractions_rest.read_file_from_disk lib file_name None w) with
  | Ok v => v
  | Raise _ => VNone
  end.

(** A well-formed tree: every entry sits at a path of proper components,
    none at the empty path, and directly inside a directory. *)
Definition tree_ok (f : gmap (list string) node) : Prop :=
  forall k n, f !! k = Some n ->
    k <> [] /\
    Forall (fun c => component c = true) k /\
    os.lookup f (os.parent k) = Some Dir.

(** Nothing lies directly below [cs]. *)
Definition nothing_below (f : gmap (list string) node) (cs : list string)
  : Prop :=
  forall name : string, f !! (cs ++ [name]) = None.

(** A computation that takes well-formed trees to well-formed trees. *)
Definition keeps_tree {A} (m : M A) : Prop :=
  forall w : World, tree_ok (fs w) -> tree_ok (fs (snd (m w))).

(** A computation that only appends to the log, and only events that
    satisfy [P]. *)
Definition logs_only {A} (P : event -> Prop) (m : M A) : Prop :=
  forall w : World,
    exists l : list event, log (snd (m w)) = log w ++ l /\ Forall P l.

(** An event that is not a call of the retry hook. *)
Definition not_a_retry (e : event) : Prop :=
  forall messages : value, e <> FailedMessages messages.

(** * Properties *)

(** ** Strings and paths *)

Section string_facts.

Lemma append_nil_l (b : string) : "" +:+ b = b.
Proof. reflexivity. Qed.

Lemma append_cons (x : ascii) (a b : string) :
  String x a +:+ b = String x (a +:+ b).
Proof. reflexivity. Qed.

Ltac unroll := rewrite ?append_cons, ?append_nil_l; simpl.

Lemma append_assoc (a b c : string) : (a +:+ b) +:+ c = a +:+ (b +:+ c).
Proof. induction a as [|x a IH]; unroll; congruence. Qed.

Lemma append_empty_r (a : string) : a +:+ "" = a.
Proof. induction a as [|x a IH]; unroll; congruence. Qed.

Lemma length_append (a b : string) :
  String.length (a +:+ b) = (String.length a + String.length b)%nat.
Proof. induction a as [|x a IH]; unroll; congruence. Qed.

Lemma substring_all (s : string) : substring 0 (String.length s) s = s.
Proof. induction s as [|x s IH]; simpl; [reflexivity | f_equal; exact IH]. Qed.

Lemma substring_skip (a b : string) (m : nat) :
  substring (String.length a) m (a +:+ b) = substring 0 m b.
Proof. induction a as [|x a IH]; unroll; [reflexivity | exact IH]. Qed.

Lemma substring_take (a b : string) :
  substring 0 (String.length a) (a +:+ b) = a.
Proof.
  induction a as [|x a IH]; unroll.
  - destruct b; reflexivity.
  - f_equal. exact IH.
Qed.

Lemma split_on_nonempty sep s : PyStr.split_on sep s <> [].
Proof.
  induction s as [|c s IH]; simpl; [discriminate|].
  destruct (Ascii.eqb c sep); [discriminate|].
  destruct (PyStr.split_on sep s); discriminate.
Qed.

(** Splitting distributes over a separator in the middle. *)
Lemma split_on_app sep (a b : string) :
  PyStr.split_on sep (a +:+ String sep b)
  = PyStr.split_on sep a ++ PyStr.split_on sep b.
Proof.
  induction a as [|c a IH]; unroll.
  - rewrite Ascii.eqb_refl. reflexivity.
  - destruct (Ascii.eqb c sep); rewrite IH; [reflexivity|].
    pose proof (split_on_nonempty sep a) as Hne.
    destruct (PyStr.split_on sep a); [contradiction | reflexivity].
Qed.

Lemma split_on_free sep s :
  free_of sep s = true -> PyStr.split_on sep s = [s].
Proof.
  unfold free_of. induction s as [|c s IH]; simpl; [reflexivity|].
  intros H. apply andb_prop in H as [Hc Hs].
  apply negb_true_iff in Hc. rewrite Hc, (IH Hs). reflexivity.
Qed.

Lemma rfind_from_app c (a b : string) i last :
  PyStr.rfind_from c (a +:+ b) i last
  = PyStr.rfind_from c b (i + Z.of_nat (String.length a))
      (PyStr.rfind_from c a i last).
Proof.
  revert i last. induction a as [|x a IH]; intros i last; unroll.
  - f_equal. lia.
  - rewrite IH. f_equal. lia.
Qed.

Lemma rfind_from_free c s i last :
  free_of c s = true -> PyStr.rfind_from c s i last = last.
Proof.
  unfold free_of. revert i last.
  induction s as [|x s IH]; intros i last; simpl; [reflexivity|].
  intros H. apply andb_prop in H as [Hx Hs].
  apply negb_true_iff in Hx. rewrite Hx. apply IH, Hs.
Qed.

(** The position of the last separator when the tail has none. *)
Lemma rfind_last_separator c (a b : string) :
  free_of c b = true ->
  PyStr.rfind c (a +:+ String c b) = Z.of_nat (String.length a).
Proof.
  intros Hb. unfold PyStr.rfind. rewrite rfind_from_app. simpl.
  rewrite Ascii.eqb_refl. rewrite rfind_from_free by exact Hb. lia.
Qed.

(** [os.path.basename] of a directory part, a slash and a name without
    slashes is the name. *)
Lemma basename_of_joined (dir name : string) :
  free_of "/" name = true ->
  PyStr.basename (dir +:+ "/" +:+ name) = name.
Proof.
  intros Hname. unfold PyStr.basename, PyStr.slice_from.
  change (dir +:+ "/" +:+ name) with (dir +:+ String "/" name).
  rewrite rfind_last_separator by exact Hname.
  replace (Z.to_nat (Z.of_nat (String.length dir) + 1))
    with (String.length (dir +:+ "/")) by (rewrite length_append; simpl; lia).
  replace (dir +:+ String "/" name) with ((dir +:+ "/") +:+ name)
    by (rewrite append_assoc; reflexivity).
  rewrite substring_skip, length_append.
  replace (String.length (dir +:+ "/") + String.length name
           - String.length (dir +:+ "/"))%nat
    with (String.length name) by lia.
  apply substring_all.
Qed.

Lemma basename_of_free (name : string) :
  free_of "/" name = true -> PyStr.basename name = name.
Proof.
  intros Hname. unfold PyStr.basename, PyStr.slice_from, PyStr.rfind.
  rewrite rfind_from_free by exact Hname. simpl.
  rewrite Nat.sub_0_r. apply substring_all.
Qed.

Lemma rev_app_app (a b acc : string) :
  String.rev_app (a +:+ b) acc = String.rev_app b (String.rev_app a acc).
Proof. revert acc. induction a as [|x a IH]; intros acc; unroll; auto. Qed.

Lemma rev_app_acc (s acc : string) :
  String.rev_app s acc = String.rev s +:+ acc.
Proof.
  unfold String.rev. revert acc.
  induction s as [|x s IH]; intros acc; simpl; [reflexivity|].
  rewrite IH, (IH (String x "")), append_assoc. reflexivity.
Qed.

Lemma rev_append (a b : string) :
  String.rev (a +:+ b) = String.rev b +:+ String.rev a.
Proof.
  unfold String.rev at 1. rewrite rev_app_app, rev_app_acc. reflexivity.
Qed.

Lemma prefix_append (p q : string) : String.prefix p (p +:+ q) = true.
Proof.
  induction p as [|x p IH]; unroll.
  - destruct q; reflexivity.
  - destruct (ascii_dec x x); [exact IH | contradiction].
Qed.

(** A string ends with what was appended to it last. *)
Lemma endswith_append (a b : string) : PyStr.endswith (a +:+ b) b = true.
Proof. unfold PyStr.endswith. rewrite rev_append. apply prefix_append. Qed.

(** The components of a path string. *)
Lemma parse_parts_app (a b : string) :
  PyPath.parse_parts (a +:+ "/" +:+ b)
  = PyPath.parse_parts a ++ PyPath.parse_parts b.
Proof.
  unfold PyPath.parse_parts.
  change (a +:+ "/" +:+ b) with (a +:+ String "/" b).
  rewrite split_on_app. apply List.filter_app.
Qed.

Lemma parse_parts_component (name : string) :
  component name = true -> PyPath.parse_parts name = [name].
Proof.
  unfold component, PyPath.parse_parts. intros H.
  apply andb_prop in H as [Hfree Hname].
  rewrite (split_on_free _ _ Hfree). simpl. rewrite Hname. reflexivity.
Qed.

Lemma parse_parts_trailing_slash (a : string) :
  PyPath.parse_parts (a +:+ "/") = PyPath.parse_parts a.
Proof.
  change (a +:+ "/") with (a +:+ "/" +:+ "").
  rewrite parse_parts_app. apply app_nil_r.
Qed.

Lemma rev_cons (x : ascii) (s : string) :
  String.rev (String x s) = String.rev s +:+ String x "".
Proof. unfold String.rev at 1. simpl. apply rev_app_acc. Qed.

Lemma rev_involutive (s : string) : String.rev (String.rev s) = s.
Proof.
  induction s as [|x s IH]; [reflexivity|].
  rewrite rev_cons, rev_append, IH. reflexivity.
Qed.

Lemma append_not_empty (a b : string) : a <> "" -> (a +:+ b =? "") = false.
Proof. destruct a; [contradiction | reflexivity]. Qed.

Lemma startswith_cons (c : ascii) (r : string) :
  PyStr.startswith (String c r) "/" = Ascii.eqb c "/".
Proof.
  unfold PyStr.startswith.
  change (String.prefix "/" (String c r))
    with (if ascii_dec "/" c then String.prefix "" r else false).
  destruct (ascii_dec "/" c) as [<-|Hne].
  - destruct r; reflexivity.
  - symmetry. apply Ascii.eqb_neq. congruence.
Qed.

Lemma startswith_slash_free (name : string) :
  free_of "/" name = true -> PyStr.startswith name "/" = false.
Proof.
  destruct name as [|c r]; [reflexivity|]. rewrite startswith_cons.
  unfold free_of. simpl. intros H. apply andb_prop in H as [Hc _].
  apply negb_true_iff, Hc.
Qed.

Lemma free_of_append sep (a b : string) :
  free_of sep (a +:+ b) = free_of sep a && free_of sep b.
Proof.
  unfold free_of. induction a as [|x a IH]; unroll; [reflexivity|].
  simpl. rewrite IH. apply andb_assoc.
Qed.



Lemma join_snoc (sep : string) (l : list string) (x : string) :
  l <> [] -> PyStr.join sep (l ++ [x]) = PyStr.join sep l +:+ sep +:+ x.
Proof.
  induction l as [|a l IH]; intros Hl; [contradiction|].
  destruct l as [|b l]; [reflexivity|].
  change (PyStr.join sep ((a :: b :: l) ++ [x]))
    with (a +:+ sep +:+ PyStr.join sep ((b :: l) ++ [x])).
  rewrite IH by discriminate.
  change (PyStr.join sep (a :: b :: l))
    with (a +:+ sep +:+ PyStr.join sep (b :: l)).
  rewrite !append_assoc. reflexivity.
Qed.


Lemma free_of_join (sep : ascii) (glue : string) (l : list string) :
  free_of sep glue = true ->
  Forall (fun s => free_of sep s = true) l ->
  free_of sep (PyStr.join glue l) = true.
Proof.
  intros Hglue Hl. induction Hl as [|a l Ha Hl IH]; [reflexivity|].
  destruct l as [|b l]; [exact Ha|].
  change (PyStr.join glue (a :: b :: l))
    with (a +:+ glue +:+ PyStr.join glue (b :: l)).
  rewrite !free_of_append, Ha, Hglue, IH. reflexivity.
Qed.

Lemma lstrip_slash_no_slash (s : string) :
  PyStr.startswith s "/" = false -> PyStr.lstrip_slash s = s.
Proof.
  destruct s as [|c r]; [reflexivity|]. rewrite startswith_cons.
  intros H. simpl. rewrite H. reflexivity.
Qed.

(** [os.path.split] of a directory part, a slash and a name without
    slashes, for a directory part that does not consist of slashes and
    does not end with one. *)
Lemma split_of_joined (dir name : string) :
  free_of "/" name = true ->
  (PyStr.lstrip_slash (dir +:+ "/") =? "") = false ->
  PyStr.endswith dir "/" = false ->
  PyStr.split (dir +:+ "/" +:+ name) = (dir, name).
Proof.
  intros Hname Hdir Hend. unfold PyStr.split.
  change (PyStr.slice_from (PyStr.rfind "/" (dir +:+ "/" +:+ name) + 1)
            (dir +:+ "/" +:+ name))
    with (PyStr.basename (dir +:+ "/" +:+ name)).
  rewrite (basename_of_joined _ _ Hname). f_equal.
  unfold PyStr.slice_to.
  change (dir +:+ "/" +:+ name) with (dir +:+ String "/" name).
  rewrite rfind_last_separator by exact Hname.
  replace (Z.to_nat (Z.of_nat (String.length dir) + 1))
    with (String.length (dir +:+ "/")) by (rewrite length_append; simpl; lia).
  change (dir +:+ String "/" name) with (dir +:+ "/" +:+ name).
  rewrite <- append_assoc, substring_take, Hdir.
  unfold PyStr.rstrip_slash. rewrite rev_append.
  change (String.rev "/") with "/". rewrite append_cons, append_nil_l.
  change (PyStr.lstrip_slash (String "/" (String.rev dir)))
    with (PyStr.lstrip_slash (String.rev dir)).
  rewrite lstrip_slash_no_slash by exact Hend.
  apply rev_involutive.
Qed.

(** A directory part that starts with something else than a slash. *)
Lemma lstrip_slash_appended (dir : string) :
  dir <> "" -> PyStr.startswith dir "/" = false ->
  (PyStr.lstrip_slash (dir +:+ "/") =? "") = false.
Proof.
  intros Hdir Hstart. destruct dir as [|c r]; [contradiction|].
  rewrite append_cons. rewrite startswith_cons in Hstart.
  simpl. rewrite Hstart. reflexivity.
Qed.







Lemma split_on_pieces_free sep s :
  Forall (fun piece => free_of sep piece = true) (PyStr.split_on sep s).
Proof.
  induction s as [|c s IH]; simpl.
  - constructor; [reflexivity | constructor].
  - destruct (Ascii.eqb c sep) eqn:Hc.
    + constructor; [reflexivity | exact IH].
    + pose proof (split_on_nonempty sep s) as Hne.
      destruct (PyStr.split_on sep s) as [|h t]; [contradiction|].
      inversion IH as [|? ? Hh Ht]; subst. constructor; [|exact Ht].
      unfold free_of in *. simpl. rewrite Hc. exact Hh.
Qed.

End string_facts.

(** ** Paths and the walk along them *)

Section path_facts.

Ltac unroll := rewrite ?append_cons, ?append_nil_l; simpl.

Lemma parent_snoc (cs : list string) (name : string) :
  os.parent (cs ++ [name]) = cs.
Proof. apply removelast_last. Qed.

Lemma snoc_parent_last (k : list string) (name : string) :
  last k = Some name -> k = os.parent k ++ [name].
Proof.
  intros Hlast. apply last_Some in Hlast as [k' ->].
  rewrite parent_snoc. reflexivity.
Qed.

Lemma snoc_ne_nil {A} (l : list A) (x : A) : l ++ [x] <> [].
Proof. intros H. apply app_eq_nil in H as [_ H]. discriminate. Qed.

Lemma app_ne_self {A} (l r : list A) : r <> [] -> l ++ r <> l.
Proof.
  intros Hr Heq. apply Hr.
  apply (f_equal length) in Heq. rewrite length_app in Heq.
  destruct r; [reflexivity | simpl in Heq; lia].
Qed.


(** *** Plain names and plain paths *)

Lemma plain_name_facts (c : string) :
  plain_name c = true ->
  free_of "/" c = true /\ os.has_nul c = false /\
  (c =? "") = false /\ (c =? ".") = false /\ (c =? "..") = false /\
  (os.NAME_MAX <? String.length c)%nat = false.
Proof.
  unfold plain_name. intros H.
  apply andb_prop in H as [H Hlen]. apply andb_prop in H as [H Hnames].
  apply andb_prop in H as [Hfree Hnul].
  apply negb_true_iff in Hnul, Hnames.
  apply orb_false_elim in Hnames as [Hnames Hdd].
  apply orb_false_elim in Hnames as [Hempty Hdot].
  apply Nat.leb_le in Hlen.
  repeat split; try assumption. apply Nat.ltb_ge, Hlen.
Qed.

Lemma plain_name_component (c : string) :
  plain_name c = true -> component c = true.
Proof.
  intros H. destruct (plain_name_facts c H) as (Hfree & _ & He & Hd & _).
  unfold component. rewrite Hfree, He, Hd. reflexivity.
Qed.














(** *** The walk *)

(** A walk from a directory arrives at a directory. *)
Lemma step_dir f cur c d :
  os.step f cur c = Ok d -> os.lookup f cur = Some Dir ->
  os.lookup f d = Some Dir.
Proof.
  unfold os.step. intros H Hcur.
  destruct (c =? "."); [injection H as <-; exact Hcur|].
  destruct (c =? "..").
  { destruct (os.lookup f (os.parent cur)) as [[|]|] eqn:Hp;
      [injection H as <-; exact Hp | discriminate | discriminate]. }
  destruct (os.NAME_MAX <? String.length c)%nat; [discriminate|].
  destruct (os.lookup f (cur ++ [c])) as [[|]|] eqn:Hc;
    [injection H as <-; exact Hc | discriminate | discriminate].
Qed.

Lemma walk_dir f cs : forall cur d,
  os.walk f cur cs = Ok d -> os.lookup f cur = Some Dir ->
  os.lookup f d = Some Dir.
Proof.
  induction cs as [|c cs IH]; intros cur d H Hcur; simpl in H.
  - injection H as <-. exact Hcur.
  - destruct (os.step f cur c) as [next|e] eqn:Hstep; [|discriminate].
    apply (IH next d H), (step_dir _ _ _ _ Hstep Hcur).
Qed.

(** A walk that succeeds still succeeds when directories are added and
    none is lost. *)
Lemma step_mono f f' cur c d :
  (forall cs, os.lookup f cs = Some Dir -> os.lookup f' cs = Some Dir) ->
  os.step f cur c = Ok d -> os.step f' cur c = Ok d.
Proof.
  unfold os.step. intros Hmono H.
  destruct (c =? "."); [exact H|].
  destruct (c =? "..").
  { destruct (os.lookup f (os.parent cur)) as [[|]|] eqn:Hp;
      [|discriminate|discriminate].
    rewrite (Hmono _ Hp). exact H. }
  destruct (os.NAME_MAX <? String.length c)%nat; [discriminate|].
  destruct (os.lookup f (cur ++ [c])) as [[|]|] eqn:Hc;
    [|discriminate|discriminate].
  rewrite (Hmono _ Hc). exact H.
Qed.

Lemma walk_mono f f' cs : forall cur d,
  (forall cs, os.lookup f cs = Some Dir -> os.lookup f' cs = Some Dir) ->
  os.walk f cur cs = Ok d -> os.walk f' cur cs = Ok d.
Proof.
  induction cs as [|c cs IH]; intros cur d Hmono H; simpl in *; [exact H|].
  destruct (os.step f cur c) as [next|e] eqn:Hstep; [|discriminate].
  rewrite (step_mono _ _ _ _ _ Hmono Hstep). apply IH; assumption.
Qed.

Lemma locate_mono f f' cwd p l :
  (forall cs, os.lookup f cs = Some Dir -> os.lookup f' cs = Some Dir) ->
  os.locate f cwd p = Ok l -> os.locate f' cwd p = Ok l.
Proof.
  unfold os.locate. intros Hmono H.
  destruct (os.has_nul p); [discriminate|].
  destruct (p =? ""); [discriminate|].
  destruct (os.PATH_MAX <=? String.length p)%nat; [discriminate|].
  set (start := if PyStr.startswith p "/" then [] else cwd) in *.
  destruct (os.lookup f start) as [[|]|] eqn:Hstart;
    [|discriminate|discriminate].
  rewrite (Hmono _ Hstart).
  destruct (os.walk f start (removelast (os.components p))) as [d|e] eqn:Hwalk;
    [|discriminate].
  rewrite (walk_mono _ _ _ _ _ Hmono Hwalk). exact H.
Qed.

(** Two trees with the same directories: the walk is the same. *)
Lemma step_same_dirs f f' cur c :
  (forall cs, os.lookup f cs = os.lookup f' cs \/
              (exists a b, os.lookup f cs = Some (File a) /\
                           os.lookup f' cs = Some (File b))) ->
  os.step f cur c = os.step f' cur c.
Proof.
  unfold os.step. intros Hsame.
  destruct (c =? "."); [reflexivity|].
  destruct (c =? "..").
  { destruct (Hsame (os.parent cur)) as [->|(a & b & -> & ->)]; reflexivity. }
  destruct (os.NAME_MAX <? String.length c)%nat; [reflexivity|].
  destruct (Hsame (cur ++ [c])) as [->|(a & b & -> & ->)]; reflexivity.
Qed.

Lemma walk_same_dirs f f' cs : forall cur,
  (forall cs, os.lookup f cs = os.lookup f' cs \/
              (exists a b, os.lookup f cs = Some (File a) /\
                           os.lookup f' cs = Some (File b))) ->
  os.walk f cur cs = os.walk f' cur cs.
Proof.
  induction cs as [|c cs IH]; intros cur Hsame; simpl; [reflexivity|].
  rewrite (step_same_dirs f f' cur c Hsame).
  destruct (os.step f' cur c); [apply IH, Hsame | reflexivity].
Qed.

(** What a located path consists of. *)
Lemma locate_returns f cwd p l :
  os.locate f cwd p = Ok l ->
  os.lookup f (os.directory l) = Some Dir /\
  os.final l = match last (os.components p) with
               | None => os.Root
               | Some c => os.classify c
               end /\
  os.slash l = PyStr.endswith p "/".
Proof.
  unfold os.locate. intros H.
  destruct (os.has_nul p); [discriminate|].
  destruct (p =? ""); [discriminate|].
  destruct (os.PATH_MAX <=? String.length p)%nat; [discriminate|].
  set (start := if PyStr.startswith p "/" then [] else cwd) in *.
  destruct (os.lookup f start) as [[|]|] eqn:Hstart;
    [|discriminate|discriminate].
  destruct (os.walk f start (removelast (os.components p))) as [d|e] eqn:Hwalk;
    [|discriminate].
  injection H as <-. simpl. split; [|split; reflexivity].
  apply (walk_dir _ _ _ _ Hwalk Hstart).
Qed.

Lemma components_are_components (p : string) :
  Forall (fun c => free_of "/" c = true /\ (c =? "") = false) (os.components p).
Proof.
  unfold os.components. apply List.Forall_forall. intros c Hin.
  apply List.filter_In in Hin as [Hin Hc].
  pose proof (split_on_pieces_free "/" p) as Hfree.
  apply List.Forall_forall with (x := c) in Hfree; [|exact Hin].
  split; [exact Hfree | apply negb_true_iff, Hc].
Qed.

(** The last component of a located path, when it is a name, is a
    proper one, and the path stands for an entry of a directory. *)
Lemma locate_name f cwd p l name :
  os.locate f cwd p = Ok l -> os.final l = os.Name name ->
  component name = true /\ name <> ".." /\
  os.position l = os.directory l ++ [name] /\
  os.position l <> [] /\
  os.parent (os.position l) = os.directory l /\
  os.lookup f (os.directory l) = Some Dir.
Proof.
  intros Hl Hname. destruct (locate_returns _ _ _ _ Hl) as (Hdir & Hfinal & _).
  rewrite Hname in Hfinal.
  destruct (last (os.components p)) as [c|] eqn:Hlast; [|discriminate].
  unfold os.classify in Hfinal.
  destruct (c =? ".") eqn:Hdot; [discriminate|].
  destruct (c =? "..") eqn:Hdd; [discriminate|].
  injection Hfinal as ->.
  pose proof (components_are_components p) as Hcs.
  apply last_Some in Hlast as [cs' Hlast]. rewrite Hlast in Hcs.
  apply Forall_app in Hcs as [_ Hc]. inversion Hc as [|? ? [Hfree He] _]; subst.
  unfold os.position. rewrite Hname.
  split; [|split; [|split; [|split; [|split]]]].
  - unfold component. rewrite Hfree, He, Hdot. reflexivity.
  - intros ->. discriminate.
  - reflexivity.
  - apply snoc_ne_nil.
  - apply parent_snoc.
  - exact Hdir.
Qed.

(** *** The walk along plain names *)





End path_facts.

(** ** Dicts *)

Section dict_facts.

Context {K V : Type} `{EqDecision K}.

Lemma dict_get_set_eq (k : K) (v : V) (d : pydict K V) :
  dict_get k (dict_set k v d) = Some v.
Proof.
  induction d as [|[k' v'] d IH]; simpl.
  - destruct (decide (k = k)); congruence.
  - destruct (decide (k = k')) as [->|Hne]; simpl.
    + destruct (decide (k' = k')); congruence.
    + destruct (decide (k = k')); [contradiction | exact IH].
Qed.

Lemma dict_get_set_ne (k k' : K) (v : V) (d : pydict K V) :
  k <> k' -> dict_get k' (dict_set k v d) = dict_get k' d.
Proof.
  intros Hne. induction d as [|[k0 v0] d IH]; simpl.
  - destruct (decide (k' = k)); congruence.
  - destruct (decide (k = k0)) as [->|Hk]; simpl.
    + destruct (decide (k' = k0)); congruence.
    + destruct (decide (k' = k0)); [reflexivity | exact IH].
Qed.

(** Assigning to a key never makes a second entry for it. *)
Lemma dict_set_keys (k : K) (v : V) (d : pydict K V) :
  map fst (dict_set k v d)
  = if bool_decide (k ∈ map fst d) then map fst d else map fst d ++ [k].
Proof.
  induction d as [|[k0 v0] d IH]; simpl; [reflexivity|].
  destruct (decide (k = k0)) as [->|Hne]; simpl.
  - rewrite bool_decide_eq_true_2 by apply list_elem_of_here. reflexivity.
  - rewrite IH. destruct (bool_decide (k ∈ map fst d)) eqn:Hin.
    + apply bool_decide_eq_true_1 in Hin.
      rewrite bool_decide_eq_true_2 by (apply list_elem_of_further; exact Hin).
      reflexivity.
    + apply bool_decide_eq_false_1 in Hin.
      rewrite bool_decide_eq_false_2; [reflexivity|].
      intros Hin'. apply elem_of_cons in Hin' as [?|?]; contradiction.
Qed.

Lemma dict_set_NoDup (k : K) (v : V) (d : pydict K V) :
  NoDup (map fst d) -> NoDup (map fst (dict_set k v d)).
Proof.
  intros Hd. rewrite dict_set_keys.
  destruct (bool_decide (k ∈ map fst d)) eqn:Hin; [exact Hd|].
  apply bool_decide_eq_false_1 in Hin.
  apply NoDup_app. split; [exact Hd|]. split.
  - intros x Hx Hx'. apply list_elem_of_singleton in Hx'. congruence.
  - apply NoDup_singleton.
Qed.

Lemma dict_assignments_NoDup (items : list (K * V)) (d : pydict K V) :
  NoDup (map fst d) ->
  NoDup (map fst
           (fold_left (fun d kv => dict_set (fst kv) (snd kv) d) items d)).
Proof.
  revert d. induction items as [|[k v] items IH]; intros d Hd; simpl.
  - exact Hd.
  - apply IH, dict_set_NoDup, Hd.
Qed.

(** Looking a key up after a run of assignments: the last assignment
    to that key decides, and the dict before the run otherwise. *)
Lemma dict_get_assignments (k : K) (items : list (K * V)) (d : pydict K V) :
  dict_get k (fold_left (fun d kv => dict_set (fst kv) (snd kv) d) items d)
  = match dict_get k (rev items) with
    | Some v => Some v
    | None => dict_get k d
    end.
Proof.
  revert d. induction items as [|[k0 v0] items IH] using rev_ind; intros d.
  - reflexivity.
  - rewrite fold_left_app, rev_app_distr. simpl.
    destruct (decide (k = k0)) as [->|Hne].
    + apply dict_get_set_eq.
    + rewrite dict_get_set_ne by congruence. apply IH.
Qed.

Lemma dict_merge_later_wins (k : K) (base extra : pydict K V) :
  dict_get k (dict_merge base extra)
  = match dict_get k (rev extra) with
    | Some v => Some v
    | None => dict_get k base
    end.
Proof. apply dict_get_assignments. Qed.

End dict_facts.

(** ** The artifact store: writes *)

Section write_facts.

Import DiskInteractions.

Lemma upload_name_returns file_name include_datetime w :
  exists upload_file_name w',
    upload_name file_name include_datetime w = (Ok upload_file_name, w').
Proof. destruct include_datetime; simpl; eauto. Qed.

Lemma _write_file_catches file_name data_out w :
  _write_file file_name data_out w
  = (Ok (is_ok (fst (_write_fun_from_file_extension file_name data_out w))),
     snd (_write_fun_from_file_extension file_name data_out w)).
Proof.
  unfold _write_file, try_except, bind, ret.
  destruct (_write_fun_from_file_extension file_name data_out w) as [[[]|e] w'];
    reflexivity.
Qed.

Lemma write_file_to_disk_unfold data_out file_name include_datetime ret_result w :
  write_file_to_disk data_out file_name include_datetime ret_result w
  = match upload_name file_name include_datetime w with
    | (Ok upload_file_name, w0) =>
        (Ok (is_ok (fst (_write_fun_from_file_extension
                           upload_file_name data_out w0))),
         snd (_write_fun_from_file_extension upload_file_name data_out w0))
    | (Raise e, w0) => (Raise e, w0)
    end.
Proof.
  unfold write_file_to_disk, bind. fold (upload_name file_name include_datetime).
  destruct (upload_name file_name include_datetime w) as [[up|e] w0]; [|reflexivity].
  rewrite _write_file_catches.
  destruct (_write_fun_from_file_extension up data_out w0) as [[[]|e] w1];
    destruct ret_result; reflexivity.
Qed.

Lemma write_file_to_disk_returns data_out file_name include_datetime ret_result w :
  exists b w',
    write_file_to_disk data_out file_name include_datetime ret_result w
    = (Ok b, w').
Proof.
  rewrite write_file_to_disk_unfold.
  destruct (upload_name_returns file_name include_datetime w) as (up & w0 & ->).
  eauto.
Qed.

(** The loop of [write_files_to_disk], from any dict collected so far:
    it makes the calls of [writes_in_order], none of which raises, and
    assigns their outcomes in that order. *)
Lemma write_files_loop_spec entries include_datetime ret_result acc w :
  exists (outcomes : list (string * bool)) (w' : World),
    writes_in_order entries include_datetime ret_result w
    = (map (fun kb => (fst kb, Ok (snd kb))) outcomes, w') /\
    map fst outcomes
    = map (fun e => PyStr.basename (fspath (fst e))) entries /\
    write_files_loop entries include_datetime ret_result acc w
    = (Ok (fold_left (fun d kb => dict_set (fst kb) (snd kb) d) outcomes acc),
       w').
Proof.
  revert acc w.
  induction entries as [|[file_name data_out] entries IH]; intros acc w.
  - exists [], w. repeat split.
  - destruct (write_file_to_disk_returns
                data_out file_name include_datetime ret_result w)
      as (b & w1 & Hb).
    destruct (IH (dict_set (PyStr.basename (fspath file_name)) b acc) w1)
      as (outcomes & w' & Hcalls & Hkeys & Hloop).
    exists ((PyStr.basename (fspath file_name), b) :: outcomes), w'.
    split; [|split].
    + simpl. rewrite Hb, Hcalls. reflexivity.
    + simpl. rewrite Hkeys. reflexivity.
    + simpl. unfold bind. rewrite Hb. exact Hloop.
Qed.

End write_facts.

(** C10.  For every payload and destination name, [write_file_to_disk]
    returns a boolean and raises nothing: with the name the write really
    uses (the given one, or the one with the time stamp), the boolean is
    [true] exactly when the serialisation and I/O step
    [_write_fun_from_file_extension] finished without an exception and
    [false] when it raised, whatever [ret_result] is; the world after
    the call is the world that step left. *)
Theorem write_file_to_disk_reports_underlying_write :
  forall (data_out : value) (file_name : pathlike)
         (include_datetime ret_result : bool) (w : World),
  exists (upload_file_name : pathlike) (w0 : World),
    upload_name file_name include_datetime w = (Ok upload_file_name, w0) /\
    upload_name file_name false w = (Ok file_name, w) /\
    let underlying :=
      DiskInteractions._write_fun_from_file_extension
        upload_file_name data_out w0 in
    DiskInteractions.write_file_to_disk
      data_out file_name include_datetime ret_result w
    = (Ok (is_ok (fst underlying)), snd underlying).
Proof.
  intros data_out file_name include_datetime ret_result w.
  destruct (upload_name_returns file_name include_datetime w) as (up & w0 & Hup).
  exists up, w0. split; [exact Hup|]. split; [reflexivity|].
  cbv zeta. rewrite write_file_to_disk_unfold, Hup. reflexivity.
Qed.

(** C7.  [write_files_to_disk] makes one call of [write_file_to_disk]
    per entry, in input order, each in the world the previous one left;
    no call raises, so a failed entry (outcome [false]) does not stop
    the later ones.  The dict it returns has the base names of the
    destinations as its keys, each once, and under a key the outcome of
    the last entry with that base name. *)
Theorem write_files_to_disk_in_order_by_base_name :
  forall (entries : list (pathlike * value))
         (include_datetime ret_result : bool) (w : World),
  exists (outcomes : list (string * bool))
         (return_data : pydict string bool) (w' : World),
    writes_in_order entries include_datetime ret_result w
    = (map (fun kb => (fst kb, Ok (snd kb))) outcomes, w') /\
    map fst outcomes
    = map (fun e => PyStr.basename (fspath (fst e))) entries /\
    DiskInteractions.write_files_to_disk
      entries include_datetime ret_result w
    = (Ok return_data, w') /\
    NoDup (map fst return_data) /\
    forall k : string, dict_get k return_data = last_outcome k outcomes.
Proof.
  intros entries include_datetime ret_result w.
  destruct (write_files_loop_spec entries include_datetime ret_result [] w)
    as (outcomes & w' & Hcalls & Hkeys & Hloop).
  exists outcomes. eexists. exists w'.
  split; [exact Hcalls|]. split; [exact Hkeys|]. split; [exact Hloop|]. split.
  - apply dict_assignments_NoDup. constructor.
  - intros k. rewrite dict_get_assignments. unfold last_outcome.
    destruct (dict_get k (rev outcomes)); reflexivity.
Qed.

(** Two entries with the base name [x.json]: the first fails, for want
    of the directory [a], and its outcome is overwritten by that of the
    second; the entries after the failure are still written. *)
Example write_files_to_disk_example :
  fst (DiskInteractions.write_files_to_disk
         [(PStr "a/x.json", VInt 1); (PStr "x.json", VInt 2);
          (PStr "y.csv", VFrame ["c"] [["1"]])]
         false false fresh_world)
  = Ok [("x.json", true); ("y.csv", true)].
Proof. vm_compute. reflexivity. Qed.

(** ** The artifact store: files and directories *)

Section tree_facts.

Import DiskInteractions.

Lemma exists_unfold p w :
  os.path.exists_ p w = (Ok (is_ok (os.stat (fs w) (cwd w) p)), w).
Proof. reflexivity. Qed.


Lemma lookup_insert_same (f : gmap (list string) node) cs n :
  cs <> [] -> os.lookup (<[cs := n]> f) cs = Some n.
Proof.
  intros Hcs. destruct cs; [contradiction|]. simpl. apply lookup_insert_eq.
Qed.

Lemma lookup_insert_other (f : gmap (list string) node) cs cs' n :
  cs <> cs' -> os.lookup (<[cs := n]> f) cs' = os.lookup f cs'.
Proof.
  intros Hne. destruct cs'; [reflexivity|]. simpl.
  apply lookup_insert_ne. exact Hne.
Qed.

Lemma lookup_delete_same (f : gmap (list string) node) cs :
  cs <> [] -> os.lookup (delete cs f) cs = None.
Proof.
  intros Hcs. destruct cs; [contradiction|]. simpl. apply lookup_delete_eq.
Qed.

Lemma lookup_delete_other (f : gmap (list string) node) cs cs' :
  cs <> cs' -> os.lookup (delete cs f) cs' = os.lookup f cs'.
Proof.
  intros Hne. destruct cs'; [reflexivity|]. simpl.
  apply lookup_delete_ne. exact Hne.
Qed.

Lemma lookup_insert_fresh (f : gmap (list string) node) cs cs' n n' :
  os.lookup f cs = None -> os.lookup f cs' = Some n' ->
  os.lookup (<[cs := n]> f) cs' = Some n'.
Proof.
  intros Hcs Hcs'. rewrite lookup_insert_other; [exact Hcs'|].
  intros ->. congruence.
Qed.

Lemma set_fs_same w : set_fs (fs w) w = w.
Proof. destruct w; reflexivity. Qed.



Lemma _delete_file_absent p w :
  fst (os.path.exists_ p w) = Ok false ->
  _delete_file p w = (Ok true, w).
Proof.
  intros H. unfold _delete_file, try_except, bind.
  rewrite exists_unfold in *. simpl in H. injection H as ->. reflexivity.
Qed.

Lemma delete_file_from_disk_unfold p ret_result w :
  delete_file_from_disk p ret_result w = _delete_file p w.
Proof.
  unfold delete_file_from_disk, bind.
  assert (Hret : exists b w', _delete_file p w = (Ok b, w')).
  { unfold _delete_file, try_except.
    destruct (bind (os.path.exists_ p) _ w) as [[b|e] w']; eauto. }
  destruct Hret as (b & w' & ->). destruct b, ret_result; reflexivity.
Qed.

(** *** Plain paths in a world *)











End tree_facts.

(** C8.  [delete_file_from_disk] on a path that does not exist returns
    [True], whatever [ret_result] is, and changes nothing; deleting the
    same name a second time returns [True] again. *)
Theorem delete_file_from_disk_absent_is_success :
  forall (file_name : string) (ret_result ret_result' : bool) (w : World),
    fst (os.path.exists_ file_name w) = Ok false ->
    DiskInteractions.delete_file_from_disk file_name ret_result w
    = (Ok true, w) /\
    (do first <- DiskInteractions.delete_file_from_disk file_name ret_result;
     do second <- DiskInteractions.delete_file_from_disk file_name ret_result';
     ret (first, second)) w
    = (Ok (true, true), w).
Proof.
  intros file_name ret_result ret_result' w Habsent.
  assert (Hdel : forall r,
            DiskInteractions.delete_file_from_disk file_name r w = (Ok true, w)).
  { intros r. rewrite delete_file_from_disk_unfold.
    apply _delete_file_absent, Habsent. }
  split; [apply Hdel|].
  unfold bind. rewrite !Hdel. reflexivity.
Qed.

Lemma delete_file_from_disk_absent_witness :
  fst (os.path.exists_ "forecast/gone.json" fresh_world) = Ok false /\
  DiskInteractions.delete_file_from_disk "forecast/gone.json" false fresh_world
  = (Ok true, fresh_world) /\
  (do first <- DiskInteractions.delete_file_from_disk "forecast/gone.json" false;
   do second <- DiskInteractions.delete_file_from_disk "forecast/gone.json" true;
   ret (first, second)) fresh_world
  = (Ok (true, true), fresh_world).
Proof.
  split; [reflexivity|].
  apply (delete_file_from_disk_absent_is_success
           "forecast/gone.json" false true fresh_world).
  reflexivity.
Defined.




Section multilevel.

Import DiskInteractions.







End multilevel.




(** ** UUID strings *)

Lemma hex_digit_is_hex (n : N) : uuid.is_hex (uuid.hex_digit n) = true.
Proof.
  unfold uuid.hex_digit. generalize (N.to_nat n). intros k.
  do 16 (destruct k as [|k]; [reflexivity|]).
  destruct k; reflexivity.
Qed.

Lemma hyphenate_well_formed (digit : nat -> ascii) :
  (forall i, uuid.is_hex (digit i) = true) ->
  uuid.well_formed
    (uuid.hyphenate (string_of_list_ascii (map digit (rev (seq 0 32)))))
  = true.
Proof.
  intros Hdigit.
  cbv -[uuid.is_hex]. rewrite !Hdigit. reflexivity.
Qed.

Lemma to_string_well_formed (int : N) :
  uuid.well_formed (uuid.to_string int) = true.
Proof.
  apply (hyphenate_well_formed (fun i => uuid.hex_digit (uuid.nibble int i))).
  intros i. apply hex_digit_is_hex.
Qed.

Lemma well_formed_nonempty (s : string) :
  uuid.well_formed s = true -> s <> "".
Proof. intros H ->. discriminate. Qed.

Lemma well_formed_length (s : string) :
  uuid.well_formed s = true -> String.length s = 36%nat.
Proof.
  unfold uuid.well_formed.
  assert (H : forall l i,
            uuid.well_formed_from i l = true -> (i + length l = 36)%nat).
  { induction l as [|c l IH]; intros i; simpl.
    - intros H. apply Nat.eqb_eq in H. lia.
    - intros H. apply andb_prop in H as [_ H]. apply IH in H. lia. }
  intros Hs. apply H in Hs. simpl in Hs.
  rewrite <- Hs. clear. induction s; simpl; congruence.
Qed.

(** ** What draws from the random source *)

Section frame.

Lemma keeps_ret {A} (a : A) : keeps_draws (ret a).
Proof. intros w. reflexivity. Qed.

Lemma keeps_raise {A} (e : exn) : keeps_draws (@raise A e).
Proof. intros w. reflexivity. Qed.

Lemma keeps_lift_res {A} (r : res A) : keeps_draws (lift_res r).
Proof. intros w. reflexivity. Qed.

Lemma keeps_gets {A} (f : World -> A) : keeps_draws (gets f).
Proof. intros w. reflexivity. Qed.

Lemma keeps_modify (f : World -> World) :
  (forall w, urandom_draws (f w) = urandom_draws w) -> keeps_draws (modify f).
Proof. intros Hf w. apply Hf. Qed.

Lemma keeps_emit (e : event) : keeps_draws (emit e).
Proof. intros w. reflexivity. Qed.

Lemma keeps_bind {A B} (m : M A) (k : A -> M B) :
  keeps_draws m -> (forall a, keeps_draws (k a)) -> keeps_draws (bind m k).
Proof.
  intros Hm Hk w. unfold bind. specialize (Hm w).
  destruct (m w) as [[a|e] w1]; simpl in *.
  - rewrite Hk. exact Hm.
  - exact Hm.
Qed.

Lemma keeps_try_except {A} (body : M A) (handler : exn -> M A) :
  keeps_draws body -> (forall e, keeps_draws (handler e)) ->
  keeps_draws (try_except body handler).
Proof.
  intros Hbody Hhandler w. unfold try_except. specialize (Hbody w).
  destruct (body w) as [[a|e] w1]; simpl in *.
  - exact Hbody.
  - rewrite Hhandler. exact Hbody.
Qed.

Lemma keeps_getattr {A} (name : string) (a : attr A) :
  keeps_draws (getattr name a).
Proof. destruct a; [apply keeps_raise | apply keeps_ret]. Qed.

End frame.

Create HintDb keeps.

#[local] Hint Resolve keeps_ret keeps_raise keeps_lift_res keeps_gets
  keeps_emit keeps_getattr : keeps.

Ltac keeps_step :=
  first
    [ solve [auto with keeps]
    | apply keeps_modify; intros; reflexivity
    | apply keeps_bind; [|intros]
    | apply keeps_try_except; [|intros]
    | match goal with
      | |- keeps_draws (match ?x with _ => _ end) => destruct x
      end ].

Ltac keeps := repeat keeps_step.

Section frame_of_methods.

Lemma keeps_open_w p : keeps_draws (os.open_w p).
Proof. unfold os.open_w. keeps. Qed.

Lemma keeps_write cs c : keeps_draws (os.write cs c).
Proof. unfold os.write. keeps. Qed.

Hint Resolve keeps_open_w keeps_write : keeps.

Lemma keeps__write_fun_from_file_extension file_name data_out :
  keeps_draws (DiskInteractions._write_fun_from_file_extension file_name data_out).
Proof.
  unfold DiskInteractions._write_fun_from_file_extension,
    DiskInteractions._write_json_data, DiskInteractions._write_csv_data,
    DiskInteractions._write_obj_data, serialisers.json_dump_to,
    serialisers.to_csv, serialisers.joblib_dump.
  keeps.
Qed.

Hint Resolve keeps__write_fun_from_file_extension : keeps.

Lemma keeps_write_file_to_disk data_out file_name include_datetime ret_result :
  keeps_draws (DiskInteractions.write_file_to_disk
                 data_out file_name include_datetime ret_result).
Proof.
  unfold DiskInteractions.write_file_to_disk, DiskInteractions._write_file,
    DiskInteractions._set_upload_file_name.
  keeps.
Qed.

Hint Resolve keeps_write_file_to_disk : keeps.

Lemma keeps__upload_file_to_output_channel self data_out file_name :
  keeps_draws (LWOrchestrator._upload_file_to_output_channel
                 self data_out file_name).
Proof.
  unfold LWOrchestrator._upload_file_to_output_channel,
    remote.write_file_to_blob_storage.
  keeps.
Qed.

Hint Resolve keeps__upload_file_to_output_channel : keeps.

Lemma keeps_write_output self data segment_list :
  keeps_draws (LWOrchestrator.write_output self data segment_list).
Proof. unfold LWOrchestrator.write_output. keeps. Qed.

Lemma keeps_run_process self process_dict :
  keeps_draws (LWOrchestrator.run_process self process_dict).
Proof. unfold LWOrchestrator.run_process. keeps. Qed.

Hint Resolve keeps_write_output keeps_run_process : keeps.

Lemma keeps_run_segment_loop self ids results :
  keeps_draws (LWOrchestrator.run_segment_loop self ids results).
Proof.
  induction ids as [|process ids IH]; simpl; keeps.
Qed.

Hint Resolve keeps_run_segment_loop : keeps.

Lemma keeps_run_segment self :
  keeps_draws (LWOrchestrator.run_segment self).
Proof.
  unfold LWOrchestrator.run_segment, LWOrchestrator.retry_msg. keeps.
Qed.

End frame_of_methods.

(** ** The orchestrator: construction *)

Section construction.

Import LWOrchestrator.

(** What a constructor call that returns has done. *)
Lemma init_returns args w self w1 :
  __init__ args w = (Ok self, w1) ->
  bind_default None (arg_segment_list args) = Some (segment_list self) /\
  module_id_list self = Unset /\
  run_config self = Unset /\
  interactor self = Unset /\
  results_channel self
  = match bind_default (Some "blob_storage") (arg_results_channel args) with
    | None => "disk"
    | Some results_channel => results_channel
    end /\
  match bind_default (Some "batch_1") (arg_batch_id args) with
  | Some batch_id => LWOrchestrator.batch_id self = batch_id /\ w1 = w
  | None =>
      let batch_id :=
        uuid.to_string (uuid.uuid4_int (urandom w (urandom_draws w))) in
      LWOrchestrator.batch_id self = batch_id /\
      w1 = set_log (log w ++ [SettingBatchId batch_id])
             (set_urandom_draws (S (urandom_draws w)) w)
  end.
Proof.
  unfold __init__.
  destruct (bind_default None (arg_segment_list args)) as [segs|];
    [|discriminate].
  destruct (bind_default (Some "batch_1") (arg_batch_id args)) as [b|];
    intros H; injection H as <- <-; repeat split; reflexivity.
Qed.

(** The constructor returns whenever it is given a segment list. *)
Lemma init_with_segment_list args segs w :
  arg_segment_list args = Given (Some segs) ->
  exists self w1, __init__ args w = (Ok self, w1).
Proof.
  intros Hsegs. unfold __init__. rewrite Hsegs. simpl.
  destruct (bind_default (Some "batch_1") (arg_batch_id args)); eauto.
Qed.

End construction.

(** C2.  An orchestrator that [__init__] has returned has no
    [module_id_list] and no [run_config] attribute, and on it
    [run_segment] raises [AttributeError] for [module_id_list] in any
    world, leaving the world as it was: no process has been looked up,
    constructed or run, and nothing has been logged or written. *)
Theorem run_segment_after_init_raises_AttributeError :
  forall (args : LWOrchestrator.init_args) (w : World)
         (self : LWOrchestrator.t) (w1 : World),
    LWOrchestrator.__init__ args w = (Ok self, w1) ->
    LWOrchestrator.module_id_list self = Unset /\
    LWOrchestrator.run_config self = Unset /\
    forall w2 : World,
      LWOrchestrator.run_segment self w2
      = (Raise (AttributeError "module_id_list"), w2).
Proof.
  intros args w self w1 Hinit.
  destruct (init_returns args w self w1 Hinit) as (_ & Hids & Hconfig & _).
  split; [exact Hids|]. split; [exact Hconfig|].
  intros w2. unfold LWOrchestrator.run_segment, bind. rewrite Hids. reflexivity.
Qed.

Lemma run_segment_after_init_witness :
  exists (self : LWOrchestrator.t) (w1 : World),
    LWOrchestrator.__init__ two_processes fresh_world = (Ok self, w1) /\
    LWOrchestrator.run_segment self w1
    = (Raise (AttributeError "module_id_list"), w1).
Proof.
  destruct (init_with_segment_list two_processes ["segment"] fresh_world eq_refl)
    as (self & w1 & Hinit).
  exists self, w1. split; [exact Hinit|].
  apply (run_segment_after_init_raises_AttributeError
           two_processes fresh_world self w1 Hinit).
Defined.

(** [select_segment] reads the same attribute for each item of the
    dict it is given, and fails in the same way on a dict that is not
    empty. *)
Lemma select_segment_after_init_raises args w self w1 item items w2 :
  LWOrchestrator.__init__ args w = (Ok self, w1) ->
  LWOrchestrator.select_segment self (item :: items) w2
  = (Raise (AttributeError "module_id_list"), w2).
Proof.
  intros Hinit.
  destruct (init_returns args w self w1 Hinit) as (_ & Hids & _).
  destruct item as [k v]. simpl. unfold bind. rewrite Hids. reflexivity.
Qed.

(** C4, as the code has it.  The output channel of a constructed
    orchestrator is ["disk"] when the selector is passed as [None], the
    selector itself when one is passed, and the default of the
    signature, ["blob_storage"], when the argument is left out. *)
Theorem results_channel_after_init :
  forall (args : LWOrchestrator.init_args) (w : World)
         (self : LWOrchestrator.t) (w1 : World),
    LWOrchestrator.__init__ args w = (Ok self, w1) ->
    LWOrchestrator.results_channel self
    = match LWOrchestrator.arg_results_channel args with
      | Given None => "disk"
      | Given (Some results_channel) => results_channel
      | Omitted => "blob_storage"
      end.
Proof.
  intros args w self w1 Hinit.
  destruct (init_returns args w self w1 Hinit) as (_ & _ & _ & _ & Hchannel & _).
  rewrite Hchannel.
  destruct (LWOrchestrator.arg_results_channel args) as [|[c|]]; reflexivity.
Qed.

Lemma results_channel_after_init_witness :
  exists (self : LWOrchestrator.t) (w1 : World),
    LWOrchestrator.__init__ segment_and_nones fresh_world = (Ok self, w1) /\
    LWOrchestrator.results_channel self = "disk".
Proof.
  destruct (init_with_segment_list segment_and_nones ["segment"] fresh_world
              eq_refl) as (self & w1 & Hinit).
  exists self, w1. split; [exact Hinit|].
  apply (results_channel_after_init segment_and_nones fresh_world self w1 Hinit).
Defined.

(** C4 as stated fails: constructed without an output-channel selector,
    [LWOrchestrator(segment_list=["segment"])] has the channel
    ["blob_storage"], not ["disk"]. *)
Lemma results_channel_left_out_is_blob_storage :
  (do self <- LWOrchestrator.__init__ segment_only;
   ret (LWOrchestrator.results_channel self,
        bool_decide (LWOrchestrator.results_channel self = "disk")))
    fresh_world
  = (Ok ("blob_storage", false), fresh_world).
Proof. reflexivity. Qed.

(** C3, as the code has it.  When the batch identifier is passed as
    [None], the constructor draws once from the random source and the
    identifier is the string of that version-4 UUID: 36 characters in
    the 8-4-4-4-12 form, not empty.  When a string is passed the
    identifier is that string, and when the argument is left out it is
    the default of the signature, ["batch_1"]; neither draws.  The
    identifier is an attribute of the instance, and the methods that run
    afterwards draw nothing from the random source. *)
Theorem batch_id_after_init :
  forall (args : LWOrchestrator.init_args) (w : World)
         (self : LWOrchestrator.t) (w1 : World),
    LWOrchestrator.__init__ args w = (Ok self, w1) ->
    match LWOrchestrator.arg_batch_id args with
    | Given None =>
        LWOrchestrator.batch_id self
        = uuid.to_string (uuid.uuid4_int (urandom w (urandom_draws w))) /\
        uuid.well_formed (LWOrchestrator.batch_id self) = true /\
        String.length (LWOrchestrator.batch_id self) = 36%nat /\
        LWOrchestrator.batch_id self <> "" /\
        urandom_draws w1 = S (urandom_draws w)
    | Given (Some batch_id) =>
        LWOrchestrator.batch_id self = batch_id /\
        urandom_draws w1 = urandom_draws w
    | Omitted =>
        LWOrchestrator.batch_id self = "batch_1" /\
        urandom_draws w1 = urandom_draws w
    end /\
    keeps_draws (LWOrchestrator.run_segment self) /\
    (forall data segment_list,
       keeps_draws (LWOrchestrator.write_output self data segment_list)) /\
    (forall data_out file_name,
       keeps_draws (LWOrchestrator._upload_file_to_output_channel
                      self data_out file_name)).
Proof.
  intros args w self w1 Hinit.
  destruct (init_returns args w self w1 Hinit) as (_ & _ & _ & _ & _ & Hbatch).
  split; [|split; [apply keeps_run_segment|split;
                   [intros; apply keeps_write_output
                   |intros; apply keeps__upload_file_to_output_channel]]].
  destruct (LWOrchestrator.arg_batch_id args) as [|[b|]]; simpl in Hbatch.
  - destruct Hbatch as [-> ->]. split; reflexivity.
  - destruct Hbatch as [-> ->]. split; reflexivity.
  - destruct Hbatch as [Hid ->]. rewrite Hid.
    pose proof (to_string_well_formed
                  (uuid.uuid4_int (urandom w (urandom_draws w)))) as Hwf.
    split; [reflexivity|]. split; [exact Hwf|].
    split; [apply well_formed_length, Hwf|].
    split; [apply well_formed_nonempty, Hwf | reflexivity].
Qed.

Lemma batch_id_after_init_witness :
  exists (self : LWOrchestrator.t) (w1 : World),
    LWOrchestrator.__init__ segment_and_nones fresh_world = (Ok self, w1) /\
    LWOrchestrator.batch_id self = "12345678-9abc-4ef0-9234-56789abcdef0" /\
    uuid.well_formed (LWOrchestrator.batch_id self) = true /\
    urandom_draws w1 = 1%nat.
Proof.
  destruct (init_with_segment_list segment_and_nones ["segment"] fresh_world
              eq_refl) as (self & w1 & Hinit).
  exists self, w1.
  split; [exact Hinit|].
  destruct (batch_id_after_init segment_and_nones fresh_world self w1 Hinit)
    as (Hbatch & _).
  simpl in Hbatch. destruct Hbatch as (Hid & Hwf & _ & _ & Hdraws).
  split; [rewrite Hid; reflexivity|]. split; [exact Hwf | exact Hdraws].
Defined.

(** C3 as stated fails: constructed without a batch identifier,
    [LWOrchestrator(segment_list=["segment"])] has the identifier
    ["batch_1"], which is not the text of a UUID, and no UUID has been
    drawn. *)
Lemma batch_id_left_out_is_batch_1 :
  (do self <- LWOrchestrator.__init__ segment_only;
   do draws <- gets urandom_draws;
   ret (LWOrchestrator.batch_id self,
        uuid.well_formed (LWOrchestrator.batch_id self), draws))
    fresh_world
  = (Ok ("batch_1", false, 0%nat), fresh_world).
Proof. reflexivity. Qed.

(** ** The orchestrator: routing and running a segment *)

Section routing.

Import LWOrchestrator.

(** With an instance of [DiskInteractions] attached, the ["disk"]
    channel hands the payload and the very path it was given to
    [write_file_to_disk], with the defaults of that method, and drops
    the boolean. *)
Lemma route_disk_delegates self data_out file_name w :
  results_channel self = "disk" ->
  interactor self = Attr DiskStore ->
  _upload_file_to_output_channel self data_out file_name w
  = (Ok tt,
     snd (DiskInteractions.write_file_to_disk data_out file_name false false w)).
Proof.
  intros Hchannel Hinteractor.
  unfold _upload_file_to_output_channel. rewrite Hchannel, Hinteractor.
  simpl. unfold bind at 1. simpl. unfold bind at 1.
  destruct (write_file_to_disk_returns data_out file_name false false w)
    as (b & w' & ->).
  reflexivity.
Qed.

(** A channel that is neither ["disk"] nor ["azure_blob"] is logged as
    critical and the call raises [NotImplementedError]; nothing is
    written. *)
Lemma route_unknown_channel_raises self data_out file_name w :
  results_channel self <> "disk" ->
  results_channel self <> "azure_blob" ->
  _upload_file_to_output_channel self data_out file_name w
  = (Raise NotImplementedError,
     set_log (log w ++ [InvalidChannel (results_channel self)]) w).
Proof.
  intros Hdisk Hblob. unfold _upload_file_to_output_channel.
  destruct (decide (results_channel self = "disk")); [contradiction|].
  destruct (decide (results_channel self = "azure_blob")); [contradiction|].
  reflexivity.
Qed.

(** On an orchestrator as [__init__] returns it, the ["disk"] channel
    finds no [interactor] attribute. *)
Lemma route_disk_after_init_raises args w0 self w1 data_out file_name w :
  __init__ args w0 = (Ok self, w1) ->
  results_channel self = "disk" ->
  _upload_file_to_output_channel self data_out file_name w
  = (Raise (AttributeError "interactor"), w).
Proof.
  intros Hinit Hchannel.
  destruct (init_returns args w0 self w1 Hinit) as (_ & _ & _ & Hinteractor & _).
  unfold _upload_file_to_output_channel. rewrite Hchannel, Hinteractor.
  reflexivity.
Qed.

(** A process that is found and runs returns a dict with one item, its
    result under its own name: a dict that is true. *)
Lemma run_process_returns_one_item self spec w d w' :
  run_process self spec w = (Ok d, w') ->
  exists result, d = [(process spec, result)] /\ truthy d = true.
Proof.
  unfold run_process, bind, emit, modify, lift_res, ret, raise.
  destruct (module_mapping self) as [mapping|]; [|discriminate].
  destruct (mapping !! process spec) as [class|]; [|discriminate].
  destruct (class (constructor_options spec)) as [obj|]; [|discriminate].
  destruct (obj (run_command spec)) as [run|]; [|discriminate].
  destruct (run (run_options spec)) as [result|]; [|discriminate].
  intros H. injection H as <- <-. eauto.
Qed.

(** The loop of [run_segment] hands back the dict it started from. *)
Lemma run_segment_loop_keeps_results self ids : forall results w r w',
  run_segment_loop self ids results w = (Ok r, w') -> r = results.
Proof.
  induction ids as [|process ids IH]; intros results w r w'; simpl.
  - intros H. injection H as <- _. reflexivity.
  - unfold bind at 1. destruct (getattr "run_config" (run_config self) w)
      as [[config|e] w1]; [|discriminate].
    unfold bind at 1.
    destruct (match dict_get process config with
              | Some spec => ret spec
              | None => raise (KeyError (VInt process))
              end w1) as [[spec|e] w2]; [|discriminate].
    unfold bind at 1.
    destruct (run_process self spec w2) as [[result|e] w3]; [|discriminate].
    apply IH.
Qed.

(** So what [run_segment] passes to [write_output] is the empty dict. *)
Lemma run_segment_writes_empty_dict self ids w :
  module_id_list self = Attr ids ->
  run_segment self w
  = match run_segment_loop self ids [] w with
    | (Ok _, w1) => write_output self [] (segment_list self) w1
    | (Raise e, w1) => (Raise e, w1)
    end.
Proof.
  intros Hids. unfold run_segment. rewrite Hids.
  unfold bind at 1. simpl. unfold bind at 1.
  destruct (run_segment_loop self ids [] w) as [[r|e] w1] eqn:Hloop;
    [|reflexivity].
  apply run_segment_loop_keeps_results in Hloop. subst r. reflexivity.
Qed.

End routing.

(** C5 on an orchestrator from the constructor.  After
    [LWOrchestrator(segment_list=["segment"], results_channel="disk")],
    routing a payload raises [AttributeError]: there is no [interactor]
    to write through, and the file system is untouched.  With the
    channel ["unknown"] the call raises [NotImplementedError], after a
    critical log record. *)
Theorem route_to_disk_after_init_raises_AttributeError :
  (do self <- LWOrchestrator.__init__ segment_and_disk;
   LWOrchestrator._upload_file_to_output_channel
     self (VDict [("k", VInt 2)]) (PStr "results.json"))
    fresh_world
  = (Raise (AttributeError "interactor"), fresh_world) /\
  (do self <- LWOrchestrator.__init__ segment_and_unknown;
   LWOrchestrator._upload_file_to_output_channel
     self (VDict [("k", VInt 2)]) (PStr "results.json"))
    fresh_world
  = (Raise NotImplementedError,
     set_log [InvalidChannel "unknown"] fresh_world).
Proof. split; reflexivity. Qed.

(** C1 on two processes that report under one key.  With
    [module_id_list = [1, 2]] and [run_config = {1: process_A, 2:
    process_B}] attached, [run_segment] runs A and then B, returns, and
    has written the empty dict to the output channel: the key [k] is
    not in it.  [append_to_results] itself merges as the claim says. *)
Theorem run_segment_writes_no_results :
  fst ((do self <- LWOrchestrator.__init__ two_processes;
        do _ <- LWOrchestrator.run_segment (attach_two_processes self);
        do written <- gets (fun w =>
          blob w !! ("forecast/test_1/segment_results", "segment_results.json"));
        do logged <- gets log;
        ret (written, logged))
         fresh_world)
  = Ok (Some (VDict []),
        [CallingProcess "k"; Invoked "k" "first";
         CallingProcess "k"; Invoked "k" "second";
         WritingResults ["segment"];
         OutputWritten "azure_blob" "test_1"]) /\
  LWOrchestrator.append_to_results
    (LWOrchestrator.append_to_results [] [("k", VInt 1)]) [("k", VInt 2)]
  = [("k", VInt 2)].
Proof. split; vm_compute; reflexivity. Qed.

(** ** Writing and reading back *)

Section write_then_read.

Import DiskInteractions DiskInteractions_rest.

Lemma names_file_entry w p cs :
  names_file w p cs ->
  cs <> [] /\ os.lookup (fs w) (os.parent cs) = Some Dir /\
  (exists name, cs = os.parent cs ++ [name] /\ component name = true).
Proof.
  intros (l & name & Hl & Hname & _ & <- & _).
  destruct (locate_name _ _ _ _ _ Hl Hname)
    as (Hc & _ & Hpos & Hne & Hparent & Hdir).
  split; [exact Hne|]. split; [rewrite Hparent; exact Hdir|].
  exists name. rewrite Hparent. split; [exact Hpos | exact Hc].
Qed.

(** Putting a regular file where there was no directory leaves the
    place of a file where it was, and [os.stat] finds the file. *)
Lemma names_file_insert w p cs cs' c :
  os.lookup (fs w) cs' <> Some Dir ->
  names_file w p cs ->
  names_file (set_fs (<[cs' := File c]> (fs w)) w) p cs.
Proof.
  intros Hdir (l & name & Hl & Hname & Hslash & Hpos & Hlen).
  exists l, name. split; [|auto].
  apply (locate_mono (fs w)); [|exact Hl].
  intros k Hk. cbn [fs set_fs]. rewrite lookup_insert_other; [exact Hk|].
  intros ->. contradiction.
Qed.

Lemma stat_names_file w p cs c :
  names_file w p cs -> os.lookup (fs w) cs = Some (File c) ->
  os.stat (fs w) (cwd w) p = Ok (cs, File c).
Proof.
  intros (l & name & Hl & Hname & Hslash & Hpos & Hlen) Hcs.
  unfold os.stat, os.entry. rewrite Hl, Hname, Hlen, Hpos, Hcs, Hslash.
  reflexivity.
Qed.

Lemma stat_written w p cs c :
  os.lookup (fs w) cs <> Some Dir ->
  names_file w p cs ->
  os.stat (<[cs := File c]> (fs w)) (cwd w) p = Ok (cs, File c).
Proof.
  intros Hdir Hfile.
  refine (stat_names_file (set_fs (<[cs := File c]> (fs w)) w) p cs c _ _).
  - apply names_file_insert; assumption.
  - simpl. apply lookup_insert_same, (names_file_entry _ _ _ Hfile).
Qed.

Lemma open_w_returns p cs w w' :
  os.open_w p w = (Ok cs, w') ->
  names_file w p cs /\
  os.lookup (fs w) cs <> Some Dir /\
  w' = set_fs (<[cs := File Truncated]> (fs w)) w.
Proof.
  unfold os.open_w, bind, gets. simpl.
  destruct (os.locate (fs w) (cwd w) p) as [l|e] eqn:Hl; [|discriminate].
  destruct (os.slash l) eqn:Hslash; [discriminate|].
  destruct (os.final l) as [| | |name] eqn:Hname; try discriminate.
  unfold os.entry. rewrite Hname.
  destruct (os.NAME_MAX <? String.length name)%nat eqn:Hlen; [discriminate|].
  assert (Hfile : names_file w p (os.position l)).
  { exists l, name. auto. }
  destruct (os.lookup (fs w) (os.position l)) as [[|c]|] eqn:Hcs;
    [discriminate| |];
    intros H; injection H as <- <-;
    (split; [exact Hfile|]; split; [congruence | reflexivity]).
Qed.

Lemma open_w_raises p e w w' :
  os.open_w p w = (Raise e, w') -> w' = w.
Proof.
  unfold os.open_w, bind, gets. simpl.
  destruct (os.locate (fs w) (cwd w) p) as [l|e'];
    [|intros H; injection H as _ <-; reflexivity].
  destruct (os.slash l); [intros H; injection H as _ <-; reflexivity|].
  destruct (os.final l) as [| | |name];
    try (intros H; injection H as _ <-; reflexivity).
  destruct (os.entry (fs w) l) as [[[|c]|]|e'];
    try discriminate; intros H; injection H as _ <-; reflexivity.
Qed.

Lemma set_fs_set_fs f g w : set_fs f (set_fs g w) = set_fs f w.
Proof. reflexivity. Qed.

(** A serialiser that opens the file and then stores [c], or raises
    [e] when [accepted] is false. *)
Lemma open_then_store p (accepted : bool) c e w w1 :
  (do fp <- os.open_w p;
   if accepted then os.write fp c else raise e) w = (Ok tt, w1) ->
  accepted = true /\
  exists cs, names_file w p cs /\
    os.lookup (fs w) cs <> Some Dir /\
    w1 = set_fs (<[cs := File c]> (fs w)) w.
Proof.
  unfold bind at 1. destruct (os.open_w p w) as [[cs|e'] w'] eqn:Hopen;
    [|discriminate].
  destruct (open_w_returns _ _ _ _ Hopen) as (Hfile & Hdir & ->).
  destruct accepted; [|discriminate].
  unfold os.write, modify. intros H. injection H as <-.
  split; [reflexivity|]. exists cs. repeat split; try assumption.
  simpl. rewrite insert_insert_eq. reflexivity.
Qed.

(** What a write that reports success has done: the file at the
    destination holds the encoding of the payload, and nothing else in
    the world has changed. *)
Lemma write_file_to_disk_succeeded data_out file_name ret_result w w1 :
  write_file_to_disk data_out (PStr file_name) false ret_result w
  = (Ok true, w1) ->
  exists cs c,
    names_file w file_name cs /\
    encoding file_name data_out = Some c /\
    os.lookup (fs w) cs <> Some Dir /\
    w1 = set_fs (<[cs := File c]> (fs w)) w.
Proof.
  rewrite write_file_to_disk_unfold. unfold upload_name, ret.
  destruct (_write_fun_from_file_extension (PStr file_name) data_out w)
    as [[[]|e] w'] eqn:Hrun; simpl; [|discriminate].
  intros H. injection H as <-.
  unfold _write_fun_from_file_extension, encoding, _write_json_data,
    _write_csv_data, _write_obj_data, serialisers.json_dump_to,
    serialisers.to_csv, serialisers.joblib_dump in *.
  destruct (PyStr.endswith file_name ".json").
  - apply open_then_store in Hrun as (-> & cs & Hfile & Hdir & ->).
    exists cs, (JsonText data_out). repeat split; assumption.
  - destruct (PyStr.endswith file_name ".csv").
    + destruct data_out; try discriminate.
      apply (open_then_store file_name true (CsvText columns rows)
               (AttributeError "to_csv")) in Hrun
        as (_ & cs & Hfile & Hdir & ->).
      exists cs, (CsvText columns rows). repeat split; assumption.
    + apply open_then_store in Hrun as (-> & cs & Hfile & Hdir & ->).
      exists cs, (Pickled data_out). repeat split; assumption.
Qed.

Lemma open_r_unfold p w :
  os_more.open_r p w
  = match os.stat (fs w) (cwd w) p with
    | Raise e => (Raise e, w)
    | Ok (_, Dir) => (Raise IsADirectoryError, w)
    | Ok (_, File c) => (Ok c, w)
    end.
Proof.
  unfold os_more.open_r, bind, gets. simpl.
  destruct (os.stat (fs w) (cwd w) p) as [[cs [|c]]|e]; reflexivity.
Qed.

Lemma open_r_no_file p w :
  fst (os.path.isfile p w) = Ok false ->
  exists e, os_more.open_r p w = (Raise e, w).
Proof.
  rewrite open_r_unfold. unfold os.path.isfile, gets. simpl.
  destruct (os.stat (fs w) (cwd w) p) as [[cs [|c]]|e]; eauto. discriminate.
Qed.

Lemma open_r_keeps_world p w : snd (os_more.open_r p w) = w.
Proof.
  rewrite open_r_unfold.
  destruct (os.stat (fs w) (cwd w) p) as [[cs [|c]]|e]; reflexivity.
Qed.

Lemma _read_fun_keeps_world lib file_name dtype_dict w :
  snd (_read_fun_from_file_extension lib file_name dtype_dict w) = w.
Proof.
  unfold _read_fun_from_file_extension, _read_json_data, _read_csv_data,
    _read_obj_data.
  assert (Hdecode : forall decode : content -> res value,
            snd ((do fp <- os_more.open_r file_name; lift_res (decode fp)) w) = w).
  { intros decode. unfold bind.
    pose proof (open_r_keeps_world file_name w) as Hw.
    destruct (os_more.open_r file_name w) as [[c|e] w']; simpl in *; congruence. }
  destruct (PyStr.endswith file_name ".json"); [apply Hdecode|].
  destruct (PyStr.endswith file_name ".csv"); apply Hdecode.
Qed.

(** A read returns what the chosen reader returned, and [None] when
    the reader raised; the world is as it was. *)
Lemma read_file_from_disk_unfold lib file_name dtype_dict w :
  read_file_from_disk lib file_name dtype_dict w
  = (Ok match fst (_read_fun_from_file_extension lib file_name dtype_dict w) with
        | Ok v => v
        | Raise _ => VNone
        end, w).
Proof.
  unfold read_file_from_disk, _read_file, try_except, bind.
  pose proof (_read_fun_keeps_world lib file_name dtype_dict w) as Hw.
  destruct (_read_fun_from_file_extension lib file_name dtype_dict w)
    as [[v|e] w']; simpl in *; subst w'; reflexivity.
Qed.

End write_then_read.

(** X1.  Round trip.  When [write_file_to_disk] reports success for a
    destination that is not a CSV name, and the decoders of the
    libraries give back what [json.dump] and [joblib.dump] were given,
    [read_file_from_disk] on the same name returns the payload that was
    written, and reading changes nothing. *)
Theorem write_then_read_returns_payload :
  forall (lib : decoders) (data_out : value) (file_name : string)
         (ret_result : bool) (dtype_dict : option dtypes) (w w1 : World),
    inverts_json_and_pickle lib ->
    (PyStr.endswith file_name ".json" = true \/
     PyStr.endswith file_name ".csv" = false) ->
    DiskInteractions.write_file_to_disk
      data_out (PStr file_name) false ret_result w = (Ok true, w1) ->
    DiskInteractions_rest.read_file_from_disk lib file_name dtype_dict w1
    = (Ok data_out, w1).
Proof.
  intros lib data_out file_name ret_result dtype_dict w w1 [Hjson Hpickle]
         Hname Hwrite.
  destruct (write_file_to_disk_succeeded _ _ _ _ _ Hwrite)
    as (cs & c & Hfile & Hc & Hdir & ->).
  rewrite read_file_from_disk_unfold. f_equal.
  assert (Hopen : os_more.open_r file_name
                    (set_fs (<[cs := File c]> (fs w)) w)
                  = (Ok c, set_fs (<[cs := File c]> (fs w)) w)).
  { rewrite open_r_unfold. simpl.
    rewrite (stat_written _ _ _ _ Hdir Hfile). reflexivity. }
  unfold DiskInteractions_rest._read_fun_from_file_extension,
    DiskInteractions_rest._read_json_data,
    DiskInteractions_rest._read_obj_data, encoding in *.
  destruct (PyStr.endswith file_name ".json").
  - destruct (json_serializable data_out); [|discriminate].
    injection Hc as <-. unfold bind. rewrite Hopen. simpl.
    rewrite Hjson. reflexivity.
  - destruct Hname as [Hname|Hname]; [discriminate|]. rewrite Hname in *.
    destruct (picklable data_out); [|discriminate].
    injection Hc as <-. unfold bind. rewrite Hopen. simpl.
    rewrite Hpickle. reflexivity.
Qed.

Lemma write_then_read_witness :
  exists w1 : World,
    DiskInteractions.write_file_to_disk
      (VDict [("k", VInt 2)]) (PStr "results.json") false false fresh_world
    = (Ok true, w1) /\
    DiskInteractions_rest.read_file_from_disk
      strict_decoders "results.json" None w1
    = (Ok (VDict [("k", VInt 2)]), w1).
Proof.
  eexists. split; [reflexivity|].
  eapply (write_then_read_returns_payload
            strict_decoders _ "results.json" false None fresh_world).
  - split; reflexivity.
  - left. reflexivity.
  - reflexivity.
Defined.

(** X2.  [read_file_from_disk] never raises and never changes the
    world, whatever the decoders do; where [os.path.isfile] answers
    [False] for the name (nothing there, a directory, a name that the
    system refuses) it returns [None]. *)
Theorem read_file_from_disk_total :
  forall (lib : decoders) (file_name : string)
         (dtype_dict : option dtypes) (w : World),
    (exists v, DiskInteractions_rest.read_file_from_disk
                 lib file_name dtype_dict w = (Ok v, w)) /\
    (fst (os.path.isfile file_name w) = Ok false ->
     DiskInteractions_rest.read_file_from_disk lib file_name dtype_dict w
     = (Ok VNone, w)).
Proof.
  intros lib file_name dtype_dict w.
  rewrite read_file_from_disk_unfold. split; [eauto|].
  intros Hno. destruct (open_r_no_file file_name w Hno) as [e He].
  unfold DiskInteractions_rest._read_fun_from_file_extension,
    DiskInteractions_rest._read_json_data,
    DiskInteractions_rest._read_csv_data,
    DiskInteractions_rest._read_obj_data.
  destruct (PyStr.endswith file_name ".json");
    [|destruct (PyStr.endswith file_name ".csv")];
    unfold bind; rewrite He; reflexivity.
Qed.

Lemma read_file_from_disk_total_witness :
  DiskInteractions_rest.read_file_from_disk
    strict_decoders "data/../data" None app_world
  = (Ok VNone, app_world).
Proof.
  apply (read_file_from_disk_total
           strict_decoders "data/../data" None app_world).
  reflexivity.
Defined.

(** ** Batches of reads and deletions *)

Section batch_facts.

Import DiskInteractions DiskInteractions_rest.

Lemma read_file_from_disk_value lib file_name w :
  read_file_from_disk lib file_name None w
  = (Ok (read_value lib w file_name), w).
Proof.
  unfold read_value. rewrite read_file_from_disk_unfold. reflexivity.
Qed.

(** The loop over plain names assigns the values read, in order, and
    goes on with what follows. *)
Lemma read_files_loop_plain lib names rest acc w :
  read_files_loop lib (map PlainName names ++ rest) acc w
  = read_files_loop lib rest
      (fold_left (fun d kv => dict_set (fst kv) (snd kv) d)
         (map (fun n => (PyStr.basename n, read_value lib w n)) names) acc)
      w.
Proof.
  revert acc. induction names as [|n names IH]; intros acc; [reflexivity|].
  simpl. unfold bind at 1. rewrite read_file_from_disk_value.
  unfold bind at 1. simpl. apply IH.
Qed.

Lemma delete_file_from_disk_returns file_name ret_result w :
  exists b w', delete_file_from_disk file_name ret_result w = (Ok b, w').
Proof.
  rewrite delete_file_from_disk_unfold. unfold _delete_file, try_except.
  destruct (bind (os.path.exists_ file_name) _ w) as [[b|e] w']; eauto.
Qed.

End batch_facts.

(** X3.  [read_files_from_disk] on a list of plain file names never
    raises and changes nothing.  The dict it returns has the base names
    as keys, each once, and under a key what [read_file_from_disk]
    returns for the last name of the list with that base name ([None]
    where the read failed). *)
Theorem read_files_from_disk_plain_names :
  forall (lib : decoders) (names : list string) (w : World),
  exists return_data : pydict string value,
    DiskInteractions_rest.read_files_from_disk lib (map PlainName names) w
    = (Ok return_data, w) /\
    NoDup (map fst return_data) /\
    forall k : string,
      dict_get k return_data
      = last_outcome k
          (map (fun n => (PyStr.basename n, read_value lib w n)) names).
Proof.
  intros lib names w. eexists. split; [|split].
  - unfold DiskInteractions_rest.read_files_from_disk.
    rewrite <- (app_nil_r (map PlainName names)).
    rewrite read_files_loop_plain. reflexivity.
  - apply dict_assignments_NoDup. constructor.
  - intros k. rewrite dict_get_assignments. unfold last_outcome.
    destruct (dict_get k (rev _)); reflexivity.
Qed.

(** X4.  A list with an item given as a tuple of a name and column
    types makes [read_files_from_disk] raise [TypeError] at the first
    such item: the file is read, then [os.path.basename] is applied to
    the tuple.  No dict is returned, whatever the items before and
    after it are. *)
Theorem read_files_from_disk_tuple_raises_TypeError :
  forall (lib : decoders) (names : list string) (file_name : string)
         (dtype_dict : dtypes) (rest : list read_request) (w : World),
    DiskInteractions_rest.read_files_from_disk lib
      (map PlainName names ++ WithTypes file_name dtype_dict :: rest) w
    = (Raise (TypeError "expected str, bytes or os.PathLike object, not tuple"),
       w).
Proof.
  intros lib names file_name dtype_dict rest w.
  unfold DiskInteractions_rest.read_files_from_disk.
  rewrite read_files_loop_plain. simpl. unfold bind at 1.
  rewrite read_file_from_disk_unfold. reflexivity.
Qed.

(** ** Directories: listing and removal *)

Section directory_facts.

Import DiskInteractions DiskInteractions_rest.

(** A name is listed exactly when there is an entry directly below. *)
Lemma elem_of_children (f : gmap (list string) node) cs name :
  name ∈ os_more.children f cs <-> is_Some (f !! (cs ++ [name])).
Proof.
  unfold os_more.children. rewrite list_elem_of_omap. split.
  - intros ([k n] & Hin & Hname). apply elem_of_map_to_list in Hin.
    simpl in Hname. destruct (decide (k <> [] /\ os.parent k = cs))
      as [[Hk Hparent]|]; [|discriminate].
    apply snoc_parent_last in Hname. rewrite Hparent in Hname.
    rewrite <- Hname. eauto.
  - intros [n Hn]. exists (cs ++ [name], n). split.
    + apply elem_of_map_to_list, Hn.
    + simpl. rewrite decide_True.
      * apply last_snoc.
      * split; [|apply parent_snoc].
        intros H. apply app_eq_nil in H as [_ H]. discriminate.
Qed.

Lemma children_nil (f : gmap (list string) node) cs :
  os_more.children f cs = [] <-> nothing_below f cs.
Proof.
  split.
  - intros Hnil name. destruct (f !! (cs ++ [name])) eqn:Hname; [|reflexivity].
    assert (Hin : name ∈ os_more.children f cs)
      by (apply elem_of_children; eauto).
    rewrite Hnil in Hin. inversion Hin.
  - intros Hnone. destruct (os_more.children f cs) as [|name l] eqn:Hl;
      [reflexivity|].
    assert (Hin : name ∈ os_more.children f cs)
      by (rewrite Hl; apply list_elem_of_here).
    apply elem_of_children in Hin as [n Hn]. rewrite Hnone in Hn. discriminate.
Qed.

(** What the walk raises is an [OSError], unless the path has a NUL
    byte. *)
Lemma walk_raises_OSError f cs : forall cur e,
  os.walk f cur cs = Raise e -> is_OSError e = true.
Proof.
  induction cs as [|c cs IH]; intros cur e H; simpl in H; [discriminate|].
  destruct (os.step f cur c) as [next|e'] eqn:Hstep; [apply (IH _ _ H)|].
  injection H as <-. unfold os.step in Hstep.
  destruct (c =? "."); [discriminate|].
  destruct (c =? "..").
  { destruct (os.lookup f (os.parent cur)) as [[|]|]; try discriminate;
      injection Hstep as <-; reflexivity. }
  destruct (os.NAME_MAX <? String.length c)%nat;
    [injection Hstep as <-; reflexivity|].
  destruct (os.lookup f (cur ++ [c])) as [[|]|]; try discriminate;
    injection Hstep as <-; reflexivity.
Qed.

Lemma locate_raises_OSError f cwd p e :
  os.locate f cwd p = Raise e -> os.has_nul p = false -> is_OSError e = true.
Proof.
  unfold os.locate. intros H Hnul. rewrite Hnul in H.
  destruct (p =? ""); [injection H as <-; reflexivity|].
  destruct (os.PATH_MAX <=? String.length p)%nat;
    [injection H as <-; reflexivity|].
  destruct (os.lookup f (if PyStr.startswith p "/" then [] else cwd))
    as [[|]|]; try (injection H as <-; reflexivity).
  destruct (os.walk f _ (removelast (os.components p))) as [d|e'] eqn:Hwalk;
    [discriminate|].
  injection H as <-. apply (walk_raises_OSError _ _ _ _ Hwalk).
Qed.


Lemma entry_returns f l r :
  os.entry f l = Ok r -> r = os.lookup f (os.position l).
Proof.
  unfold os.entry. destruct (os.final l) as [| | |name].
  1-3: destruct (os.lookup f (os.position l)) as [[|c]|]; congruence.
  destruct (os.NAME_MAX <? String.length name)%nat; congruence.
Qed.

Lemma stat_returns f cwd p cs n :
  os.stat f cwd p = Ok (cs, n) ->
  exists l, os.locate f cwd p = Ok l /\ os.position l = cs /\
            os.entry f l = Ok (Some n) /\ os.lookup f cs = Some n.
Proof.
  unfold os.stat. destruct (os.locate f cwd p) as [l|e]; [|discriminate].
  destruct (os.entry f l) as [[[|c]|]|e] eqn:Hentry; try discriminate.
  - intros H. injection H as <- <-. exists l.
    split; [reflexivity|]. split; [reflexivity|]. split; [exact Hentry|].
    symmetry. apply (entry_returns _ _ _ Hentry).
  - destruct (os.slash l); [discriminate|].
    intros H. injection H as <- <-. exists l.
    split; [reflexivity|]. split; [reflexivity|]. split; [exact Hentry|].
    symmetry. apply (entry_returns _ _ _ Hentry).
Qed.

Lemma listdir_unfold p w :
  os_more.listdir p w
  = match os.stat (fs w) (cwd w) p with
    | Raise e => (Raise e, w)
    | Ok (_, File _) => (Raise NotADirectoryError, w)
    | Ok (cs, Dir) => (Ok (os_more.children (fs w) cs), w)
    end.
Proof.
  unfold os_more.listdir, bind, gets. simpl.
  destruct (os.stat (fs w) (cwd w) p) as [[cs [|c]]|e]; reflexivity.
Qed.

(** What [os.rmdir] does when it returns, and when it raises. *)
Lemma rmdir_returns p w w' :
  os_more.rmdir p w = (Ok tt, w') ->
  exists l, os.locate (fs w) (cwd w) p = Ok l /\
    os.position l <> [] /\
    os.lookup (fs w) (os.position l) = Some Dir /\
    nothing_below (fs w) (os.position l) /\
    w' = set_fs (delete (os.position l) (fs w)) w.
Proof.
  unfold os_more.rmdir, bind, gets. simpl.
  destruct (os.locate (fs w) (cwd w) p) as [l|e] eqn:Hl; [|discriminate].
  destruct (os.final l) as [| | |name] eqn:Hname; try discriminate.
  unfold os.entry. rewrite Hname.
  destruct (os.NAME_MAX <? String.length name)%nat; [discriminate|].
  destruct (os.lookup (fs w) (os.position l)) as [[|c]|] eqn:Hcs;
    try discriminate.
  destruct (os_more.children (fs w) (os.position l)) eqn:Hchildren;
    [|discriminate].
  intros H. injection H as <-. exists l.
  destruct (locate_name _ _ _ _ _ Hl Hname) as (_ & _ & _ & Hne & _).
  repeat split; try assumption. apply children_nil, Hchildren.
Qed.

Lemma rmdir_raises p e w w' :
  os_more.rmdir p w = (Raise e, w') ->
  w' = w /\ (os.has_nul p = false -> is_OSError e = true).
Proof.
  unfold os_more.rmdir, bind, gets. simpl.
  destruct (os.locate (fs w) (cwd w) p) as [l|e'] eqn:Hl.
  - destruct (os.final l) as [| | |name] eqn:Hname;
      try (intros H; injection H as <- <-; split; reflexivity).
    unfold os.entry. rewrite Hname.
    destruct (os.NAME_MAX <? String.length name)%nat;
      [intros H; injection H as <- <-; split; reflexivity|].
    destruct (os.lookup (fs w) (os.position l)) as [[|c]|];
      try (intros H; injection H as <- <-; split; reflexivity).
    destruct (os_more.children (fs w) (os.position l)); [discriminate|].
    intros H; injection H as <- <-; split; reflexivity.
  - intros H. injection H as <- <-. split; [reflexivity|].
    apply (locate_raises_OSError _ _ _ _ Hl).
Qed.




Lemma prefix_length_eq {A} (l k : list A) :
  l `prefix_of` k -> length k <= length l -> k = l.
Proof.
  intros [r ->] Hlen. rewrite length_app in Hlen.
  destruct r; [apply app_nil_r | simpl in Hlen; lia].
Qed.


Lemma delete_empty_directory_unfold p w :
  delete_empty_directory p w
  = match os.stat (fs w) (cwd w) p with
    | Ok (cs, Dir) =>
        match os_more.children (fs w) cs with
        | [] =>
            match os_more.rmdir p w with
            | (Ok _, w') => (Ok true, w')
            | (Raise e, w') =>
                if is_OSError e then (Ok false, w') else (Raise e, w')
            end
        | _ :: _ => (Ok false, w)
        end
    | _ => (Ok false, w)
    end.
Proof.
  unfold delete_empty_directory, try_except_if, bind at 1.
  rewrite exists_unfold.
  destruct (os.stat (fs w) (cwd w) p) as [[cs n]|e] eqn:Hstat; simpl;
    [|reflexivity].
  unfold list_files_in_directory, bind. rewrite listdir_unfold, Hstat.
  destruct n as [|c]; [|reflexivity]. unfold ret at 1.
  destruct (os_more.children (fs w) cs); [|reflexivity].
  destruct (os_more.rmdir p w) as [[[]|e] w']; reflexivity.
Qed.


End directory_facts.




(** ** Listing a directory *)

Section listing_facts.

Import DiskInteractions DiskInteractions_rest.

Ltac unroll := rewrite ?append_cons, ?append_nil_l; simpl.














End listing_facts.



(** ** The tree stays well formed *)

Section tree_invariant.

Import DiskInteractions DiskInteractions_rest.

Lemma parent_ne (cs : list string) : cs <> [] -> os.parent cs <> cs.
Proof.
  intros Hne Heq. destruct (last cs) as [x|] eqn:Hlast.
  - apply snoc_parent_last in Hlast. rewrite Heq in Hlast.
    symmetry in Hlast. apply app_ne_self in Hlast; [exact Hlast|discriminate].
  - apply last_None in Hlast. contradiction.
Qed.

Lemma tree_ok_empty : tree_ok ∅.
Proof. intros k n H. rewrite lookup_empty in H. discriminate. Qed.

(** A new entry inside a directory. *)
Lemma tree_ok_insert_new (f : gmap (list string) node) cs n :
  tree_ok f -> cs <> [] ->
  Forall (fun c => component c = true) cs ->
  os.lookup f cs = None ->
  os.lookup f (os.parent cs) = Some Dir ->
  tree_ok (<[cs := n]> f).
Proof.
  intros Hok Hne Hnames Hcs Hparent k m Hk.
  destruct (decide (cs = k)) as [<-|Hneq].
  - split; [exact Hne|]. split; [exact Hnames|].
    rewrite lookup_insert_other by (apply not_eq_sym, parent_ne, Hne).
    exact Hparent.
  - rewrite lookup_insert_ne in Hk by exact Hneq.
    destruct (Hok k m Hk) as (Hk0 & Hknames & Hkparent).
    split; [exact Hk0|]. split; [exact Hknames|].
    rewrite lookup_insert_other; [exact Hkparent|].
    intros ->. congruence.
Qed.

(** A regular file replaced by a regular file. *)
Lemma tree_ok_replace_file (f : gmap (list string) node) cs c c' :
  tree_ok f -> os.lookup f cs = Some (File c) ->
  tree_ok (<[cs := File c']> f).
Proof.
  intros Hok Hcs k m Hk.
  assert (Hne : cs <> []) by (intros ->; discriminate).
  assert (Hfile : f !! cs = Some (File c)) by (destruct cs; [contradiction|exact Hcs]).
  destruct (decide (cs = k)) as [<-|Hneq].
  - destruct (Hok cs _ Hfile) as (_ & Hnames & Hparent).
    split; [exact Hne|]. split; [exact Hnames|].
    rewrite lookup_insert_other by (apply not_eq_sym, parent_ne, Hne).
    exact Hparent.
  - rewrite lookup_insert_ne in Hk by exact Hneq.
    destruct (Hok k m Hk) as (Hk0 & Hknames & Hkparent).
    split; [exact Hk0|]. split; [exact Hknames|].
    rewrite lookup_insert_other; [exact Hkparent|].
    intros ->. congruence.
Qed.

(** An entry with nothing below it removed. *)
Lemma tree_ok_delete_leaf (f : gmap (list string) node) cs :
  tree_ok f -> nothing_below f cs -> tree_ok (delete cs f).
Proof.
  intros Hok Hleaf k m Hk.
  destruct (decide (cs = k)) as [<-|Hneq].
  - rewrite lookup_delete_eq in Hk. discriminate.
  - rewrite lookup_delete_ne in Hk by exact Hneq.
    destruct (Hok k m Hk) as (Hk0 & Hknames & Hkparent).
    split; [exact Hk0|]. split; [exact Hknames|].
    destruct (os.parent k) as [|c p] eqn:Hp; [reflexivity|].
    simpl. rewrite lookup_delete_ne; [exact Hkparent|].
    intros ->. destruct (last k) as [x|] eqn:Hlast.
    + apply snoc_parent_last in Hlast. rewrite Hp in Hlast.
      rewrite Hlast, Hleaf in Hk. discriminate.
    + apply last_None in Hlast. contradiction.
Qed.

Lemma nothing_below_file (f : gmap (list string) node) cs c :
  tree_ok f -> os.lookup f cs = Some (File c) -> nothing_below f cs.
Proof.
  intros Hok Hcs name.
  destruct (f !! (cs ++ [name])) as [n|] eqn:Hn; [|reflexivity].
  destruct (Hok _ _ Hn) as (_ & _ & Hparent).
  rewrite parent_snoc in Hparent. congruence.
Qed.


Lemma parent_prefix (k : list string) : os.parent k `prefix_of` k.
Proof.
  destruct (last k) as [x|] eqn:Hlast.
  - apply snoc_parent_last in Hlast. rewrite Hlast at 2.
    apply prefix_app_r. reflexivity.
  - apply last_None in Hlast. subst k. reflexivity.
Qed.

(** A directory emptied of all that lies below it. *)
Lemma tree_ok_below_removed (f : gmap (list string) node) cs :
  tree_ok f ->
  tree_ok (filter (fun kn : list string * node =>
                     ~ (cs `prefix_of` fst kn /\ fst kn <> cs)) f).
Proof.
  intros Hok k m Hk. apply map_lookup_filter_Some in Hk as [Hk Hpre].
  simpl in Hpre. destruct (Hok k m Hk) as (Hk0 & Hknames & Hkparent).
  split; [exact Hk0|]. split; [exact Hknames|].
  destruct (os.parent k) as [|c p] eqn:Hp; [reflexivity|].
  simpl in *. apply map_lookup_filter_Some. split; [exact Hkparent|].
  simpl. intros [Hcs Hne]. apply Hpre. rewrite <- Hp in Hcs, Hne. split.
  - etransitivity; [exact Hcs | apply parent_prefix].
  - intros ->. apply Hne. apply prefix_length_eq; [exact Hcs|].
    apply prefix_length, parent_prefix.
Qed.

(** The path of a directory of a well-formed tree consists of proper
    components. *)
Lemma dir_components (f : gmap (list string) node) d :
  tree_ok f -> os.lookup f d = Some Dir ->
  Forall (fun c => component c = true) d.
Proof.
  intros Hok Hd. destruct d as [|c d]; [constructor|].
  apply (Hok _ _ Hd).
Qed.

(** A new entry under a name, where a path has been located. *)
Lemma tree_ok_insert_located (f : gmap (list string) node) cwd p l name n :
  tree_ok f -> os.locate f cwd p = Ok l -> os.final l = os.Name name ->
  os.lookup f (os.position l) = None ->
  tree_ok (<[os.position l := n]> f).
Proof.
  intros Hok Hl Hname Hnone.
  destruct (locate_name _ _ _ _ _ Hl Hname)
    as (Hc & _ & Hpos & Hne & Hparent & Hdir).
  apply tree_ok_insert_new; try assumption.
  - rewrite Hpos. apply Forall_app. split; [apply (dir_components f); assumption|].
    constructor; [exact Hc | constructor].
  - rewrite Hparent. exact Hdir.
Qed.

Lemma keeps_tree_ret {A} (a : A) : keeps_tree (ret a).
Proof. intros w Hw. exact Hw. Qed.

Lemma keeps_tree_raise {A} (e : exn) : keeps_tree (@raise A e).
Proof. intros w Hw. exact Hw. Qed.

Lemma keeps_tree_gets {A} (g : World -> A) : keeps_tree (gets g).
Proof. intros w Hw. exact Hw. Qed.

Lemma keeps_tree_bind {A B} (m : M A) (k : A -> M B) :
  keeps_tree m -> (forall a, keeps_tree (k a)) -> keeps_tree (bind m k).
Proof.
  intros Hm Hk w Hw. unfold bind. specialize (Hm w Hw).
  destruct (m w) as [[a|e] w1]; simpl in *; [apply Hk, Hm | exact Hm].
Qed.

Lemma keeps_tree_try_except {A} (body : M A) (handler : exn -> M A) :
  keeps_tree body -> (forall e, keeps_tree (handler e)) ->
  keeps_tree (try_except body handler).
Proof.
  intros Hbody Hhandler w Hw. unfold try_except. specialize (Hbody w Hw).
  destruct (body w) as [[a|e] w1]; simpl in *; [exact Hbody|].
  apply Hhandler, Hbody.
Qed.

Lemma keeps_tree_try_except_if {A} catches (body : M A) (handler : exn -> M A) :
  keeps_tree body -> (forall e, keeps_tree (handler e)) ->
  keeps_tree (try_except_if catches body handler).
Proof.
  intros Hbody Hhandler w Hw. unfold try_except_if. specialize (Hbody w Hw).
  destruct (body w) as [[a|e] w1]; simpl in *; [exact Hbody|].
  destruct (catches e); [apply Hhandler, Hbody | exact Hbody].
Qed.

Lemma keeps_tree_mkdir p : keeps_tree (os.mkdir p).
Proof.
  intros w Hw. unfold os.mkdir, bind, gets. simpl.
  destruct (os.locate (fs w) (cwd w) p) as [l|e] eqn:Hl; [|exact Hw].
  destruct (os.final l) as [| | |name] eqn:Hname; try exact Hw.
  destruct (os.entry (fs w) l) as [[n|]|e] eqn:Hentry; try exact Hw.
  simpl. apply (tree_ok_insert_located _ _ _ _ _ _ Hw Hl Hname).
  symmetry. apply (entry_returns _ _ _ Hentry).
Qed.

Lemma keeps_tree_exists p : keeps_tree (os.path.exists_ p).
Proof. apply keeps_tree_gets. Qed.

Lemma keeps_tree_makedirs_rec room : forall name,
  keeps_tree (os.makedirs_rec room name).
Proof.
  induction room as [|room IH]; intros name; [apply keeps_tree_raise|].
  cbn [os.makedirs_rec].
  destruct (PyStr.split name) as [head tail].
  destruct (if tail =? "" then PyStr.split head else (head, tail)) as [h t].
  apply keeps_tree_bind.
  - destruct (negb (h =? "") && negb (t =? "")); [|apply keeps_tree_ret].
    apply keeps_tree_bind; [apply keeps_tree_exists|]. intros present.
    destruct (negb present); [|apply keeps_tree_ret].
    apply keeps_tree_bind; [|intros; apply keeps_tree_ret].
    apply keeps_tree_try_except_if; [apply IH | intros; apply keeps_tree_ret].
  - intros done. destruct done; [apply keeps_tree_ret | apply keeps_tree_mkdir].
Qed.

Lemma keeps_tree_makedirs p : keeps_tree (os.makedirs p).
Proof.
  unfold os.makedirs. apply keeps_tree_bind; [apply keeps_tree_gets|].
  intros room. apply keeps_tree_makedirs_rec.
Qed.

Lemma keeps_tree_remove p : keeps_tree (os.remove p).
Proof.
  intros w Hw. unfold os.remove, bind, gets. simpl.
  destruct (os.locate (fs w) (cwd w) p) as [l|e] eqn:Hl; [|exact Hw].
  destruct (os.final l) as [| | |name] eqn:Hname; try exact Hw.
  destruct (os.entry (fs w) l) as [[[|c]|]|e] eqn:Hentry; try exact Hw.
  destruct (os.slash l); [exact Hw|].
  simpl. apply tree_ok_delete_leaf; [exact Hw|].
  apply (nothing_below_file _ _ c Hw). symmetry.
  apply (entry_returns _ _ _ Hentry).
Qed.

Lemma keeps_tree_rmdir p : keeps_tree (os_more.rmdir p).
Proof.
  intros w Hw. destruct (os_more.rmdir p w) as [[[]|e] w'] eqn:Hrm.
  - destruct (rmdir_returns _ _ _ Hrm) as (l & _ & _ & _ & Hempty & ->).
    simpl. apply tree_ok_delete_leaf; assumption.
  - destruct (rmdir_raises _ _ _ _ Hrm) as [-> _]. exact Hw.
Qed.

(** A file stored at a place where a file can be opened for writing. *)
Lemma tree_ok_store w p cs c :
  tree_ok (fs w) -> names_file w p cs ->
  os.lookup (fs w) cs <> Some Dir ->
  tree_ok (<[cs := File c]> (fs w)).
Proof.
  intros Hok (l & name & Hl & Hname & _ & <- & _) Hdir.
  destruct (os.lookup (fs w) (os.position l)) as [[|c0]|] eqn:Hcs;
    [contradiction| |].
  - apply (tree_ok_replace_file _ _ c0); assumption.
  - apply (tree_ok_insert_located _ _ _ _ _ _ Hok Hl Hname Hcs).
Qed.

Lemma keeps_tree_open_then_store p (accepted : bool) c e :
  keeps_tree (do fp <- os.open_w p;
              if accepted then os.write fp c else raise e).
Proof.
  intros w Hw. unfold bind.
  destruct (os.open_w p w) as [[cs|e'] w'] eqn:Hopen.
  - destruct (open_w_returns _ _ _ _ Hopen) as (Hfile & Hdir & ->).
    destruct accepted; simpl.
    + rewrite insert_insert_eq. apply (tree_ok_store _ p); assumption.
    + apply (tree_ok_store _ p); assumption.
  - apply open_w_raises in Hopen. subst w'. exact Hw.
Qed.

Lemma keeps_tree__write_fun_from_file_extension file_name data_out :
  keeps_tree (_write_fun_from_file_extension file_name data_out).
Proof.
  unfold _write_fun_from_file_extension, _write_json_data, _write_csv_data,
    _write_obj_data, serialisers.json_dump_to, serialisers.to_csv,
    serialisers.joblib_dump.
  destruct file_name as [file_name|path]; [|apply keeps_tree_raise].
  destruct (PyStr.endswith file_name ".json");
    [apply keeps_tree_open_then_store|].
  destruct (PyStr.endswith file_name ".csv");
    [|apply keeps_tree_open_then_store].
  destruct data_out; try apply keeps_tree_raise.
  apply (keeps_tree_open_then_store file_name true _ (AttributeError "to_csv")).
Qed.

Lemma keeps_tree_write_file_to_disk data_out file_name include_datetime ret_result :
  keeps_tree (write_file_to_disk data_out file_name include_datetime ret_result).
Proof.
  intros w Hw. rewrite write_file_to_disk_unfold.
  destruct (upload_name file_name include_datetime w) as [[up|e] w0] eqn:Hup.
  - simpl. apply keeps_tree__write_fun_from_file_extension.
    destruct include_datetime; simpl in Hup.
    + unfold _set_upload_file_name, bind, utcnow, ret in Hup.
      injection Hup as _ <-. exact Hw.
    + unfold ret in Hup. injection Hup as _ <-. exact Hw.
  - destruct (upload_name_returns file_name include_datetime w)
      as (up & w1 & Hup'). congruence.
Qed.

Lemma keeps_tree_write_files_loop entries include_datetime ret_result :
  forall acc,
    keeps_tree (write_files_loop entries include_datetime ret_result acc).
Proof.
  induction entries as [|[file_name data_out] entries IH]; intros acc; simpl.
  - apply keeps_tree_ret.
  - apply keeps_tree_bind; [apply keeps_tree_write_file_to_disk|].
    intros b. apply IH.
Qed.

Lemma keeps_tree_delete_file_from_disk file_name ret_result :
  keeps_tree (delete_file_from_disk file_name ret_result).
Proof.
  intros w Hw. rewrite delete_file_from_disk_unfold. revert w Hw.
  unfold _delete_file. apply keeps_tree_try_except;
    [|intros; apply keeps_tree_ret].
  apply keeps_tree_bind; [apply keeps_tree_gets|]. intros present.
  apply keeps_tree_bind; [|intros; apply keeps_tree_ret].
  destruct present; [apply keeps_tree_remove | apply keeps_tree_ret].
Qed.

Lemma keeps_tree_delete_files_loop files ret_result :
  forall acc, keeps_tree (delete_files_loop files ret_result acc).
Proof.
  induction files as [|file files IH]; intros acc; simpl.
  - apply keeps_tree_ret.
  - apply keeps_tree_bind; [apply keeps_tree_delete_file_from_disk|].
    intros b. apply IH.
Qed.

Lemma keeps_tree_create_directory p : keeps_tree (create_directory p).
Proof.
  unfold create_directory. apply keeps_tree_try_except;
    [|intros; apply keeps_tree_ret].
  apply keeps_tree_bind; [apply keeps_tree_gets|]. intros present.
  destruct present; simpl; [apply keeps_tree_ret|].
  apply keeps_tree_bind; [apply keeps_tree_mkdir|].
  intros; apply keeps_tree_ret.
Qed.

Lemma keeps_tree_create_multilevel_directories p :
  keeps_tree (create_multilevel_directories p).
Proof.
  unfold create_multilevel_directories. apply keeps_tree_try_except;
    [|intros; apply keeps_tree_ret].
  apply keeps_tree_bind; [apply keeps_tree_gets|]. intros present.
  destruct present; simpl; [apply keeps_tree_ret|].
  apply keeps_tree_bind; [apply keeps_tree_makedirs|].
  intros; apply keeps_tree_ret.
Qed.

Lemma keeps_tree_delete_empty_directory p :
  keeps_tree (delete_empty_directory p).
Proof.
  intros w Hw. rewrite delete_empty_directory_unfold.
  destruct (os.stat (fs w) (cwd w) p) as [[cs [|c]]|e]; try exact Hw.
  destruct (os_more.children (fs w) cs); [|exact Hw].
  pose proof (keeps_tree_rmdir p w Hw) as Hrm.
  destruct (os_more.rmdir p w) as [[[]|e] w']; simpl in *; [exact Hrm|].
  destruct (is_OSError e); exact Hrm.
Qed.

Lemma keeps_tree_rmtree p : keeps_tree (os_more.rmtree p).
Proof.
  intros w Hw. unfold os_more.rmtree, bind, gets, modify. simpl.
  destruct (os.stat (fs w) (cwd w) p) as [[cs [|c]]|e]; try exact Hw.
  apply keeps_tree_rmdir. simpl. apply tree_ok_below_removed, Hw.
Qed.

Lemma keeps_tree_delete_directory p : keeps_tree (delete_directory p).
Proof.
  unfold delete_directory. apply keeps_tree_try_except_if;
    [|intros; apply keeps_tree_ret].
  apply keeps_tree_bind; [apply keeps_tree_gets|]. intros present.
  destruct present; [|apply keeps_tree_ret].
  apply keeps_tree_bind; [apply keeps_tree_rmtree|].
  intros; apply keeps_tree_ret.
Qed.

End tree_invariant.

(** X8.  Every method of [DiskInteractions] that changes the file system
    takes a well-formed tree to a well-formed tree, whether it succeeds
    or fails: afterwards every entry still lies directly inside a
    directory.  In particular no write puts a file where there is no
    directory for it, and no removal leaves entries behind below what
    it removed. *)
Theorem disk_methods_keep_tree :
  (forall p, keeps_tree (DiskInteractions.create_directory p)) /\
  (forall p, keeps_tree (DiskInteractions.create_multilevel_directories p)) /\
  (forall data_out file_name include_datetime ret_result,
     keeps_tree (DiskInteractions.write_file_to_disk
                   data_out file_name include_datetime ret_result)) /\
  (forall entries include_datetime ret_result,
     keeps_tree (DiskInteractions.write_files_to_disk
                   entries include_datetime ret_result)) /\
  (forall file_name ret_result,
     keeps_tree (DiskInteractions.delete_file_from_disk file_name ret_result)) /\
  (forall files ret_result,
     keeps_tree (DiskInteractions_rest.delete_files_from_disk files ret_result)) /\
  (forall p, keeps_tree (DiskInteractions_rest.delete_empty_directory p)) /\
  (forall p, keeps_tree (DiskInteractions_rest.delete_directory p)).
Proof.
  split; [exact keeps_tree_create_directory|].
  split; [exact keeps_tree_create_multilevel_directories|].
  split; [exact keeps_tree_write_file_to_disk|].
  split; [intros; apply keeps_tree_write_files_loop|].
  split; [exact keeps_tree_delete_file_from_disk|].
  split; [intros; apply keeps_tree_delete_files_loop|].
  split; [exact keeps_tree_delete_empty_directory|].
  exact keeps_tree_delete_directory.
Qed.

Lemma disk_methods_keep_tree_witness :
  tree_ok (fs fresh_world) /\
  tree_ok (fs (snd (DiskInteractions.create_multilevel_directories
                      "forecast/b1/out" fresh_world))).
Proof.
  split; [apply tree_ok_empty|].
  apply (proj1 (proj2 disk_methods_keep_tree) "forecast/b1/out" fresh_world).
  apply tree_ok_empty.
Defined.

(** ** What a write and a removal change *)

Section effect_facts.

Import DiskInteractions DiskInteractions_rest.

Lemma dict_get_is_Some {V} (k : string) (d : pydict string V) :
  is_Some (dict_get k d) <-> k ∈ map fst d.
Proof.
  induction d as [|[k' v] d IH]; simpl.
  - split; [intros [? H]; discriminate | intros H; inversion H].
  - destruct (decide (k = k')) as [->|Hne].
    + split; [intros _; apply list_elem_of_here | eauto].
    + rewrite IH. split; [apply list_elem_of_further|].
      intros H. apply elem_of_cons in H as [?|?]; [contradiction|assumption].
Qed.

(** The keys after a run of assignments to an empty dict. *)
Lemma dict_assignments_keys {V} (k : string) (items : list (string * V)) :
  k ∈ map fst (fold_left (fun d kv => dict_set (fst kv) (snd kv) d) items [])
  <-> k ∈ map fst items.
Proof.
  rewrite <- !dict_get_is_Some, dict_get_assignments. simpl.
  transitivity (is_Some (dict_get k (rev items))).
  - destruct (dict_get k (rev items)); split; auto.
  - rewrite !dict_get_is_Some, map_rev, !list_elem_of_In.
    symmetry. apply in_rev.
Qed.

Lemma open_then_store_world p (accepted : bool) c e w :
  let w' := snd ((do fp <- os.open_w p;
                  if accepted then os.write fp c else raise e) w) in
  w' = w \/
  exists cs c', names_file w p cs /\
    os.lookup (fs w) cs <> Some Dir /\
    w' = set_fs (<[cs := File c']> (fs w)) w.
Proof.
  simpl. unfold bind.
  destruct (os.open_w p w) as [[cs|e'] w1] eqn:Hopen.
  - destruct (open_w_returns _ _ _ _ Hopen) as (Hfile & Hdir & ->).
    right. exists cs. destruct accepted; simpl.
    + exists c. rewrite insert_insert_eq. auto.
    + exists Truncated. auto.
  - left. apply (open_w_raises _ _ _ _ Hopen).
Qed.

Lemma _write_fun_world file_name data_out w :
  let w' := snd (_write_fun_from_file_extension (PStr file_name) data_out w) in
  w' = w \/
  exists cs c', names_file w file_name cs /\
    os.lookup (fs w) cs <> Some Dir /\
    w' = set_fs (<[cs := File c']> (fs w)) w.
Proof.
  unfold _write_fun_from_file_extension, _write_json_data, _write_csv_data,
    _write_obj_data, serialisers.json_dump_to, serialisers.to_csv,
    serialisers.joblib_dump.
  destruct (PyStr.endswith file_name ".json");
    [apply open_then_store_world|].
  destruct (PyStr.endswith file_name ".csv");
    [|apply open_then_store_world].
  destruct data_out; try (left; reflexivity).
  apply (open_then_store_world file_name true _ (AttributeError "to_csv")).
Qed.




Lemma lookup_key (f : gmap (list string) node) cs :
  cs <> [] -> os.lookup f cs = f !! cs.
Proof. destruct cs; [contradiction | reflexivity]. Qed.

(** A path that [os.stat] takes to a regular file names that file. *)
Lemma stat_file_names w p cs c :
  os.stat (fs w) (cwd w) p = Ok (cs, File c) ->
  names_file w p cs /\ os.lookup (fs w) cs = Some (File c).
Proof.
  unfold os.stat, names_file.
  destruct (os.locate (fs w) (cwd w) p) as [l|e]; [|discriminate].
  unfold os.entry.
  destruct (os.final l) as [| | |name] eqn:Hname.
  1-3: destruct (os.lookup (fs w) (os.position l)) as [[|c']|]; discriminate.
  destruct (os.NAME_MAX <? String.length name)%nat eqn:Hlen; [discriminate|].
  destruct (os.lookup (fs w) (os.position l)) as [[|c']|] eqn:Hcs;
    try discriminate.
  destruct (os.slash l) eqn:Hslash; [discriminate|].
  intros H. injection H as <- <-. split; [|exact Hcs].
  exists l, name. auto.
Qed.

(** The place of a file stays where it is as long as the directories
    stay. *)
Lemma names_file_mono w w' p cs :
  cwd w' = cwd w ->
  (forall k, os.lookup (fs w) k = Some Dir -> os.lookup (fs w') k = Some Dir) ->
  names_file w p cs -> names_file w' p cs.
Proof.
  intros Hcwd Hmono (l & name & Hl & Hrest).
  exists l, name. split; [|exact Hrest].
  rewrite Hcwd. apply (locate_mono (fs w)); assumption.
Qed.

(** What one deletion does to the world. *)
Lemma delete_file_from_disk_effect file_name ret_result w :
  delete_file_from_disk file_name ret_result w
  = match os.stat (fs w) (cwd w) file_name with
    | Ok (cs, File _) => (Ok true, set_fs (delete cs (fs w)) w)
    | Ok (_, Dir) => (Ok false, w)
    | Raise _ => (Ok true, w)
    end.
Proof.
  rewrite delete_file_from_disk_unfold.
  unfold _delete_file, try_except, bind at 1. rewrite exists_unfold.
  destruct (os.stat (fs w) (cwd w) file_name) as [[cs n]|e] eqn:Hstat;
    [|reflexivity].
  simpl. unfold os.remove, bind, gets. simpl.
  destruct n as [|c].
  - destruct (stat_returns _ _ _ _ _ Hstat) as (l & -> & _ & Hentry & _).
    rewrite Hentry. destruct (os.final l); reflexivity.
  - destruct (stat_file_names _ _ _ _ Hstat)
      as ((l & name & Hl & Hname & Hslash & Hpos & Hlen) & Hcs).
    unfold os.entry. rewrite Hl, Hname, Hlen, Hpos, Hcs, Hslash. reflexivity.
Qed.

Lemma delete_files_loop_spec files ret_result : forall acc w,
  exists (outcomes : list (string * bool)) (w' : World),
    delete_files_loop files ret_result acc w
    = (Ok (fold_left (fun d kb => dict_set (fst kb) (snd kb) d) outcomes acc),
       w') /\
    map fst outcomes = map PyStr.basename files /\
    w' = set_fs (fs w') w /\
    (forall file cs c,
       file ∈ files -> os.stat (fs w) (cwd w) file = Ok (cs, File c) ->
       os.lookup (fs w') cs = None) /\
    (forall k,
       os.lookup (fs w') k = os.lookup (fs w) k \/
       (os.lookup (fs w') k = None /\
        exists file c, file ∈ files /\
                       os.stat (fs w) (cwd w) file = Ok (k, File c))).
Proof.
  induction files as [|file files IH]; intros acc w.
  - exists [], w. split; [reflexivity|]. split; [reflexivity|].
    split; [symmetry; apply set_fs_same|]. split.
    + intros f cs c Hin. inversion Hin.
    + left. reflexivity.
  - pose proof (delete_file_from_disk_effect file ret_result w) as Hstep.
    assert (Hw1 : exists b w1,
              delete_file_from_disk file ret_result w = (Ok b, w1) /\
              w1 = set_fs (fs w1) w /\
              (forall cs c, os.stat (fs w) (cwd w) file = Ok (cs, File c) ->
                            os.lookup (fs w1) cs = None) /\
              (forall k,
                 os.lookup (fs w1) k = os.lookup (fs w) k \/
                 (os.lookup (fs w1) k = None /\
                  exists c, os.stat (fs w) (cwd w) file = Ok (k, File c)))).
    { destruct (os.stat (fs w) (cwd w) file) as [[cs [|c]]|e] eqn:Hstat.
      - exists false, w. split; [exact Hstep|].
        split; [symmetry; apply set_fs_same|]. split; [discriminate | auto].
      - exists true, (set_fs (delete cs (fs w)) w). split; [exact Hstep|].
        split; [reflexivity|].
        destruct (stat_file_names _ _ _ _ Hstat) as (Hfile & Hcs).
        pose proof (proj1 (names_file_entry _ _ _ Hfile)) as Hne.
        split.
        + intros cs' c' H. injection H as <- <-.
          simpl. apply lookup_delete_same, Hne.
        + intros k. destruct (decide (cs = k)) as [<-|Hk].
          * right. split; [simpl; apply lookup_delete_same, Hne | eauto].
          * left. simpl. apply lookup_delete_other, Hk.
      - exists true, w. split; [exact Hstep|].
        split; [symmetry; apply set_fs_same|]. split; [discriminate | auto]. }
    clear Hstep. destruct Hw1 as (b & w1 & Hstep & Hrest1 & Hgone1 & Hcases1).
    assert (Hcwd : cwd w1 = cwd w) by (rewrite Hrest1; reflexivity).
    assert (Hdirs : forall k, os.lookup (fs w) k = Some Dir <->
                              os.lookup (fs w1) k = Some Dir).
    { intros k. destruct (Hcases1 k) as [->|(Hnone & c & Hc)]; [reflexivity|].
      apply stat_file_names in Hc as [_ Hc]. rewrite Hnone, Hc.
      split; discriminate. }
    destruct (IH (dict_set (PyStr.basename file) b acc) w1)
      as (outcomes & w' & Hloop & Hkeys & Hrest & Hgone & Hcases).
    exists ((PyStr.basename file, b) :: outcomes), w'.
    split; [|split; [|split; [|split]]].
    + simpl. unfold bind. rewrite Hstep. exact Hloop.
    + simpl. rewrite Hkeys. reflexivity.
    + rewrite Hrest at 1. rewrite Hrest1. reflexivity.
    + intros g cs c Hin Hg.
      destruct (Hcases1 cs) as [Hsame|(Hnone & _)].
      * apply elem_of_cons in Hin as [->|Hin].
        -- rewrite (Hgone1 _ _ Hg) in Hsame.
           apply stat_file_names in Hg as [_ Hg]. congruence.
        -- apply (Hgone g cs c Hin).
           destruct (stat_file_names _ _ _ _ Hg) as (Hfile & Hcs).
           rewrite Hcwd. change (fs w1) with (fs (set_fs (fs w1) w1)).
           rewrite <- Hcwd.
           apply (stat_names_file w1).
           ++ apply (names_file_mono w); [exact Hcwd | apply Hdirs | exact Hfile].
           ++ congruence.
      * destruct (Hcases cs) as [->|[Hdone _]]; [exact Hnone | exact Hdone].
    + intros k. destruct (Hcases k) as [Hsame|(Hnone & g & c & Hin & Hg)].
      * destruct (Hcases1 k) as [Hsame1|(Hnone1 & c & Hc)].
        -- left. congruence.
        -- right. split; [congruence|]. exists file, c.
           split; [apply list_elem_of_here | exact Hc].
      * right. split; [exact Hnone|]. exists g, c.
        split; [apply list_elem_of_further, Hin|].
        destruct (stat_file_names _ _ _ _ Hg) as (Hfile & Hcs).
        apply (stat_names_file w).
        -- apply (names_file_mono w1);
             [symmetry; exact Hcwd | apply Hdirs | exact Hfile].
        -- destruct (Hcases1 k) as [Hsame1|(Hnone1 & _)]; congruence.
Qed.

End effect_facts.

(** X9.  A write through [write_file_to_disk] with the name as given
    either leaves the world exactly as it was, or replaces or creates
    one regular file, directly inside a directory that was there: the
    file that the name leads to afterwards.  Everything else in the
    tree, and everything outside the file system, is unchanged.  It
    never overwrites a directory and never makes one. *)
Theorem write_file_to_disk_touches_one_file :
  forall (data_out : value) (file_name : string) (ret_result : bool)
         (w : World),
    let w' := snd (DiskInteractions.write_file_to_disk
                     data_out (PStr file_name) false ret_result w) in
    w' = w \/
    exists (cs : list string) (c : content),
      cs <> [] /\
      os.lookup (fs w) cs <> Some Dir /\
      os.lookup (fs w) (os.parent cs) = Some Dir /\
      w' = set_fs (<[cs := File c]> (fs w)) w /\
      os.stat (fs w') (cwd w') file_name = Ok (cs, File c).
Proof.
  intros data_out file_name ret_result w.
  assert (Hrun : forall w',
            w' = snd (DiskInteractions._write_fun_from_file_extension
                        (PStr file_name) data_out w) ->
            w' = w \/
            exists (cs : list string) (c : content),
              cs <> [] /\
              os.lookup (fs w) cs <> Some Dir /\
              os.lookup (fs w) (os.parent cs) = Some Dir /\
              w' = set_fs (<[cs := File c]> (fs w)) w /\
              os.stat (fs w') (cwd w') file_name = Ok (cs, File c)).
  { intros w' Hw'.
    pose proof (_write_fun_world file_name data_out w) as H. cbv zeta in H.
    rewrite <- Hw' in H. clear Hw'.
    destruct H as [H|(cs & c & Hfile & Hdir & ->)]; [left; exact H|].
    right. exists cs, c.
    destruct (names_file_entry _ _ _ Hfile) as (Hne & Hparent & _).
    split; [exact Hne|]. split; [exact Hdir|]. split; [exact Hparent|].
    split; [reflexivity|]. exact (stat_written w file_name cs c Hdir Hfile). }
  rewrite write_file_to_disk_unfold. simpl. apply Hrun. reflexivity.
Qed.





(** X12.  Writing a new file and deleting it gives the world back: when
    [write_file_to_disk] reports success on a name where nothing was,
    [delete_file_from_disk] on that name returns [True] and the world
    is again what it was before the write. *)
Theorem write_then_delete_restores :
  forall (data_out : value) (file_name : string)
         (ret_result ret_result' : bool) (w w1 : World),
    fst (os.path.exists_ file_name w) = Ok false ->
    DiskInteractions.write_file_to_disk
      data_out (PStr file_name) false ret_result w = (Ok true, w1) ->
    DiskInteractions.delete_file_from_disk file_name ret_result' w1
    = (Ok true, w).
Proof.
  intros data_out file_name ret_result ret_result' w w1 Habsent Hwrite.
  destruct (write_file_to_disk_succeeded _ _ _ _ _ Hwrite)
    as (cs & c & Hfile & _ & Hdir & ->).
  pose proof (proj1 (names_file_entry _ _ _ Hfile)) as Hne.
  assert (Hnone : os.lookup (fs w) cs = None).
  { destruct (os.lookup (fs w) cs) as [[|c']|] eqn:Hcs;
      [contradiction| |reflexivity].
    rewrite exists_unfold, (stat_names_file _ _ _ _ Hfile Hcs) in Habsent.
    discriminate. }
  rewrite delete_file_from_disk_effect.
  change (fs (set_fs (<[cs := File c]> (fs w)) w))
    with (<[cs := File c]> (fs w)).
  change (cwd (set_fs (<[cs := File c]> (fs w)) w)) with (cwd w).
  rewrite (stat_written _ _ _ c Hdir Hfile).
  rewrite delete_insert_id by (rewrite <- lookup_key; assumption).
  rewrite set_fs_set_fs, set_fs_same. reflexivity.
Qed.

Lemma write_then_delete_witness :
  exists w1 : World,
    DiskInteractions.write_file_to_disk
      (VStr "draft") (PStr "draft") false false fresh_world = (Ok true, w1) /\
    DiskInteractions.delete_file_from_disk "draft" false w1
    = (Ok true, fresh_world).
Proof.
  eexists. split; [reflexivity|].
  eapply (write_then_delete_restores (VStr "draft") "draft" false false
            fresh_world).
  - reflexivity.
  - reflexivity.
Defined.

(** X13.  [delete_files_from_disk] never raises and changes nothing but
    the tree.  Afterwards no listed name leads to a regular file: every
    entry that a listed name led to as a regular file is gone, and
    every other entry of the tree, directories among them, is as it
    was.  The dict it returns has the base names of the listed names as
    its keys, each once. *)
Theorem delete_files_from_disk_outcomes :
  forall (files : list string) (ret_result : bool) (w : World),
  exists (return_data : pydict string bool) (w' : World),
    DiskInteractions_rest.delete_files_from_disk files ret_result w
    = (Ok return_data, w') /\
    w' = set_fs (fs w') w /\
    NoDup (map fst return_data) /\
    (forall k : string,
       k ∈ map fst return_data <-> k ∈ map PyStr.basename files) /\
    (forall file, file ∈ files -> fst (os.path.isfile file w') = Ok false) /\
    (forall file cs c,
       file ∈ files -> os.stat (fs w) (cwd w) file = Ok (cs, File c) ->
       os.lookup (fs w') cs = None) /\
    (forall k : list string,
       ~ (exists file c, file ∈ files /\
                         os.stat (fs w) (cwd w) file = Ok (k, File c)) ->
       os.lookup (fs w') k = os.lookup (fs w) k).
Proof.
  intros files ret_result w.
  destruct (delete_files_loop_spec files ret_result [] w)
    as (outcomes & w' & Hloop & Hkeys & Hrest & Hgone & Hcases).
  eexists. exists w'. split; [exact Hloop|]. split; [exact Hrest|].
  split; [apply dict_assignments_NoDup; constructor|].
  split; [intros k; rewrite <- Hkeys; apply dict_assignments_keys|].
  assert (Hcwd : cwd w' = cwd w) by (rewrite Hrest; reflexivity).
  split; [|split; [exact Hgone|]].
  - intros file Hin. unfold os.path.isfile, gets. simpl. f_equal.
    destruct (os.stat (fs w') (cwd w') file) as [[k [|c]]|e] eqn:Hstat;
      try reflexivity.
    exfalso. destruct (stat_file_names _ _ _ _ Hstat) as (Hfile & Hk).
    assert (Hwas : os.lookup (fs w) k = Some (File c)).
    { destruct (Hcases k) as [Hsame|[Hnone _]]; congruence. }
    assert (Hthen : os.stat (fs w) (cwd w) file = Ok (k, File c)).
    { apply stat_names_file; [|exact Hwas].
      apply (names_file_mono w'); [symmetry; exact Hcwd | | exact Hfile].
      intros k' Hk'.
      destruct (Hcases k') as [Hsame|[Hnone _]]; congruence. }
    rewrite (Hgone _ _ _ Hin Hthen) in Hk. discriminate.
  - intros k Hnot. destruct (Hcases k) as [Hsame|[_ Hlisted]];
      [exact Hsame | contradiction].
Qed.


Lemma delete_files_from_disk_witness :
  exists (return_data : pydict string bool) (w' : World),
    DiskInteractions_rest.delete_files_from_disk
      ["data/../notes.txt"; "notes.txt/"; "gone/notes.txt"] false app_world
    = (Ok return_data, w') /\
    os.lookup (fs w') ["home"; "app"; "notes.txt"] = None.
Proof.
  destruct (delete_files_from_disk_outcomes
              ["data/../notes.txt"; "notes.txt/"; "gone/notes.txt"] false
              app_world)
    as (return_data & w' & Hrun & _ & _ & _ & _ & Hgone & _).
  exists return_data, w'. split; [exact Hrun|].
  apply (Hgone "data/../notes.txt" ["home"; "app"; "notes.txt"] Truncated).
  - apply list_elem_of_here.
  - reflexivity.
Defined.

(** ** The orchestrator: further properties *)

Section orchestrator_facts.

Import LWOrchestrator.

Lemma write_to_path_fails data_out path w :
  DiskInteractions.write_file_to_disk data_out (PPath path) false false w
  = (Ok false, w).
Proof. reflexivity. Qed.

Lemma logs_only_ret {A} P (a : A) : logs_only P (ret a).
Proof. intros w. exists []. split; [symmetry; apply app_nil_r | constructor]. Qed.

Lemma logs_only_raise {A} P (e : exn) : logs_only P (@raise A e).
Proof. intros w. exists []. split; [symmetry; apply app_nil_r | constructor]. Qed.

Lemma logs_only_quiet {A} P (m : M A) :
  (forall w, log (snd (m w)) = log w) -> logs_only P m.
Proof.
  intros Hm w. exists []. rewrite Hm. split; [symmetry; apply app_nil_r | constructor].
Qed.

Lemma logs_only_emit (P : event -> Prop) (e : event) : P e -> logs_only P (emit e).
Proof. intros He w. exists [e]. split; [reflexivity | repeat constructor; exact He]. Qed.

Lemma logs_only_bind {A B} P (m : M A) (k : A -> M B) :
  logs_only P m -> (forall a, logs_only P (k a)) -> logs_only P (bind m k).
Proof.
  intros Hm Hk w. unfold bind. destruct (Hm w) as (l1 & Hl1 & HP1).
  destruct (m w) as [[a|e] w1]; simpl in *.
  - destruct (Hk a w1) as (l2 & Hl2 & HP2). exists (l1 ++ l2).
    rewrite Hl2, Hl1, app_assoc. split; [reflexivity|].
    apply List.Forall_app. split; assumption.
  - exists l1. split; assumption.
Qed.

Lemma logs_only_getattr {A} P (name : string) (a : attr A) :
  logs_only P (getattr name a).
Proof. destruct a; [apply logs_only_raise | apply logs_only_ret]. Qed.

Lemma open_then_store_log p (accepted : bool) c e w :
  log (snd ((do fp <- os.open_w p;
             if accepted then os.write fp c else raise e) w)) = log w.
Proof.
  destruct (open_then_store_world p accepted c e w) as [->|(cs & c' & _ & _ & ->)];
    reflexivity.
Qed.

Lemma write_file_to_disk_log data_out file_name include_datetime ret_result w :
  log (snd (DiskInteractions.write_file_to_disk
              data_out file_name include_datetime ret_result w)) = log w.
Proof.
  rewrite write_file_to_disk_unfold.
  destruct (upload_name file_name include_datetime w) as [[up|e] w0] eqn:Hup.
  - assert (Hlog : log w0 = log w).
    { destruct include_datetime; simpl in Hup.
      - unfold DiskInteractions._set_upload_file_name, bind,
          DiskInteractions.utcnow, ret in Hup.
        injection Hup as _ <-. reflexivity.
      - unfold ret in Hup. injection Hup as _ <-. reflexivity. }
    simpl. rewrite <- Hlog.
    unfold DiskInteractions._write_fun_from_file_extension,
      DiskInteractions._write_json_data, DiskInteractions._write_csv_data,
      DiskInteractions._write_obj_data, serialisers.json_dump_to,
      serialisers.to_csv, serialisers.joblib_dump.
    destruct up as [name|path]; [|reflexivity].
    destruct (PyStr.endswith name ".json"); [apply open_then_store_log|].
    destruct (PyStr.endswith name ".csv"); [|apply open_then_store_log].
    destruct data_out; try reflexivity.
    apply (open_then_store_log name true _ (AttributeError "to_csv")).
  - destruct (upload_name_returns file_name include_datetime w)
      as (up & w1 & Hup'). congruence.
Qed.

Lemma logs_only__upload_file_to_output_channel self data_out file_name :
  logs_only not_a_retry
    (_upload_file_to_output_channel self data_out file_name).
Proof.
  unfold _upload_file_to_output_channel.
  destruct (decide (results_channel self = "disk")).
  - apply logs_only_bind; [apply logs_only_getattr|]. intros [|].
    + apply logs_only_bind; [|intros; apply logs_only_ret].
      apply logs_only_quiet. intros w. apply write_file_to_disk_log.
    + apply logs_only_raise.
  - destruct (decide (results_channel self = "azure_blob")).
    + destruct (PyStr.split (fspath file_name)) as [key name].
      apply logs_only_bind; [apply logs_only_getattr|]. intros [|].
      * apply logs_only_raise.
      * apply logs_only_bind; [|intros; apply logs_only_ret].
        apply logs_only_quiet. reflexivity.
    + apply logs_only_bind; [|intros; apply logs_only_raise].
      apply logs_only_emit. intros m. discriminate.
Qed.

Lemma logs_only_write_output self data segment_list :
  logs_only not_a_retry (write_output self data segment_list).
Proof.
  unfold write_output.
  apply logs_only_bind; [apply logs_only_emit; intros m; discriminate|].
  intros _. apply logs_only_bind;
    [apply logs_only__upload_file_to_output_channel|].
  intros _. apply logs_only_emit. intros m. discriminate.
Qed.

Lemma logs_only_run_process self spec :
  logs_only not_a_retry (run_process self spec).
Proof.
  unfold run_process.
  apply logs_only_bind; [apply logs_only_emit; intros m; discriminate|].
  intros _. apply logs_only_bind.
  { destruct (module_mapping self); [apply logs_only_ret | apply logs_only_raise]. }
  intros mapping. apply logs_only_bind.
  { destruct (mapping !! process spec); [apply logs_only_ret | apply logs_only_raise]. }
  intros class. apply logs_only_bind.
  { apply logs_only_quiet. reflexivity. }
  intros obj. apply logs_only_bind.
  { destruct (obj (run_command spec)); [apply logs_only_ret | apply logs_only_raise]. }
  intros run. apply logs_only_bind;
    [apply logs_only_emit; intros m; discriminate|].
  intros _. apply logs_only_bind; [apply logs_only_quiet; reflexivity|].
  intros result. apply logs_only_ret.
Qed.

Lemma logs_only_run_segment_loop self ids results :
  logs_only not_a_retry (run_segment_loop self ids results).
Proof.
  induction ids as [|process ids IH]; simpl; [apply logs_only_ret|].
  apply logs_only_bind; [apply logs_only_getattr|]. intros config.
  apply logs_only_bind.
  { destruct (dict_get process config); [apply logs_only_ret | apply logs_only_raise]. }
  intros spec. apply logs_only_bind; [apply logs_only_run_process|].
  intros result. exact IH.
Qed.

End orchestrator_facts.

(** X14.  Through the ["disk"] channel [write_output] writes nothing.
    The destination it builds is a [Path] object, [write_file_to_disk]
    fails on it (a path has no [endswith]) and returns [False], which
    the caller does not look at: the call returns normally, the file
    system is as it was, and the log says that the output was
    written. *)
Theorem write_output_to_disk_writes_nothing :
  forall (self : LWOrchestrator.t) (data : pydict string value)
         (segment_list : list string) (w : World),
    LWOrchestrator.results_channel self = "disk" ->
    LWOrchestrator.interactor self = Attr DiskStore ->
    LWOrchestrator.write_output self data segment_list w
    = (Ok tt,
       set_log (log w ++ [WritingResults segment_list;
                          OutputWritten "disk" (LWOrchestrator.batch_id self)])
         w).
Proof.
  intros self data segment_list w Hchannel Hinteractor.
  unfold LWOrchestrator.write_output, bind at 1, emit, modify.
  unfold bind at 1.
  rewrite (route_disk_delegates _ _ _ _ Hchannel Hinteractor).
  rewrite write_to_path_fails. simpl. rewrite Hchannel.
  unfold set_log. simpl. rewrite <- app_assoc. reflexivity.
Qed.

Lemma write_output_to_disk_witness :
  exists (self : LWOrchestrator.t) (w1 : World),
    LWOrchestrator.__init__ segment_and_disk fresh_world = (Ok self, w1) /\
    fs (snd (LWOrchestrator.write_output
               (LWOrchestrator.set_interactor DiskStore self)
               [("k", VInt 2)] ["segment"] w1)) = fs w1.
Proof.
  destruct (init_with_segment_list segment_and_disk ["segment"] fresh_world
              eq_refl) as (self & w1 & Hinit).
  exists self, w1. split; [exact Hinit|].
  rewrite (write_output_to_disk_writes_nothing
             (LWOrchestrator.set_interactor DiskStore self));
    [reflexivity | | reflexivity].
  destruct (init_returns _ _ _ _ Hinit) as (_ & _ & _ & _ & Hchannel & _).
  exact Hchannel.
Defined.

(** X15.  [run_segment] never calls the retry hook: whatever the
    processes are called and whatever they return, the events it adds
    to the log include no record of failed messages.  The dict in which
    it looks for the key [run_queue] is always the empty one. *)
Theorem run_segment_never_retries :
  forall (self : LWOrchestrator.t) (w : World),
  exists l : list event,
    log (snd (LWOrchestrator.run_segment self w)) = log w ++ l /\
    forall messages : value, FailedMessages messages ∉ l.
Proof.
  intros self w.
  assert (Hlogs : exists l, log (snd (LWOrchestrator.run_segment self w))
                            = log w ++ l /\ Forall not_a_retry l).
  { destruct (LWOrchestrator.module_id_list self) as [|ids] eqn:Hids.
    - exists []. unfold LWOrchestrator.run_segment, bind. rewrite Hids.
      split; [symmetry; apply app_nil_r | constructor].
    - rewrite (run_segment_writes_empty_dict self ids w Hids).
      destruct (logs_only_run_segment_loop self ids [] w) as (l1 & Hl1 & HP1).
      destruct (LWOrchestrator.run_segment_loop self ids [] w)
        as [[r|e] w1]; simpl in *; [|eauto].
      destruct (logs_only_write_output self []
                  (LWOrchestrator.segment_list self) w1) as (l2 & Hl2 & HP2).
      exists (l1 ++ l2). rewrite Hl2, Hl1, app_assoc. split; [reflexivity|].
      apply List.Forall_app. split; assumption. }
  destruct Hlogs as (l & Hl & HP). exists l. split; [exact Hl|].
  intros messages Hin. apply list_elem_of_In in Hin.
  apply (proj1 (List.Forall_forall _ _) HP _ Hin messages). reflexivity.
Qed.

(** X16.  What [run_process] does with a process description.  It logs
    the call first.  Without a [module_mapping] it raises [TypeError];
    for a process name that the mapping lacks it raises [KeyError] with
    that name; for a run command that the constructed object lacks it
    raises [AttributeError] with that command; in these three cases no
    operation of a process has run.  When class and run command are
    found and the run returns, the result comes back as a dict with one
    item, the result under the process name. *)
Theorem run_process_outcomes :
  forall (self : LWOrchestrator.t) (spec : process_dict) (w : World),
    let called := set_log (log w ++ [CallingProcess (process spec)]) w in
    (LWOrchestrator.module_mapping self = None ->
     LWOrchestrator.run_process self spec w
     = (Raise (TypeError "'NoneType' object is not subscriptable"), called)) /\
    (forall mapping,
       LWOrchestrator.module_mapping self = Some mapping ->
       mapping !! process spec = None ->
       LWOrchestrator.run_process self spec w
       = (Raise (KeyError (VStr (process spec))), called)) /\
    (forall mapping class obj,
       LWOrchestrator.module_mapping self = Some mapping ->
       mapping !! process spec = Some class ->
       class (constructor_options spec) = Ok obj ->
       obj (run_command spec) = None ->
       LWOrchestrator.run_process self spec w
       = (Raise (AttributeError (run_command spec)), called)) /\
    (forall mapping class obj run result,
       LWOrchestrator.module_mapping self = Some mapping ->
       mapping !! process spec = Some class ->
       class (constructor_options spec) = Ok obj ->
       obj (run_command spec) = Some run ->
       run (run_options spec) = Ok result ->
       LWOrchestrator.run_process self spec w
       = (Ok [(process spec, result)],
          set_log (log w ++ [CallingProcess (process spec);
                             Invoked (process spec) (run_command spec)]) w)).
Proof.
  intros self spec w called. unfold LWOrchestrator.run_process.
  unfold process_class, process_object, run_operation in *.
  split; [|split; [|split]].
  - intros ->. reflexivity.
  - intros mapping -> Hclass. unfold bind, emit, modify, ret, raise.
    rewrite Hclass. reflexivity.
  - intros mapping class obj -> Hclass Hobj Hrun.
    unfold bind, emit, modify, ret, raise, lift_res.
    rewrite Hclass, Hobj, Hrun. reflexivity.
  - intros mapping class obj run result -> Hclass Hobj Hrun Hresult.
    unfold bind, emit, modify, ret, raise, lift_res.
    rewrite Hclass, Hobj, Hrun, Hresult. simpl.
    unfold set_log. simpl. rewrite <- app_assoc. reflexivity.
Qed.

Lemma run_process_outcomes_witness :
  exists (self : LWOrchestrator.t) (w1 : World),
    LWOrchestrator.__init__ two_processes fresh_world = (Ok self, w1) /\
    LWOrchestrator.run_process self process_B w1
    = (Ok [("k", VInt 2)],
       set_log (log w1 ++ [CallingProcess "k"; Invoked "k" "second"]) w1).
Proof.
  destruct (init_with_segment_list two_processes ["segment"] fresh_world
              eq_refl) as (self & w1 & Hinit).
  exists self, w1. split; [exact Hinit|].
  assert (Hmapping : LWOrchestrator.module_mapping self
                     = Some {[ "k" := counting_class ]}).
  { unfold LWOrchestrator.__init__ in Hinit. simpl in Hinit.
    unfold bind, gets, ret in Hinit. injection Hinit as <- _. reflexivity. }
  eapply (proj2 (proj2 (proj2 (run_process_outcomes self process_B w1)))).
  - exact Hmapping.
  - reflexivity.
  - reflexivity.
  - reflexivity.
  - reflexivity.
Defined.

Section more_construction.

Import LWOrchestrator.

Lemma init_base_path args w self w1 :
  __init__ args w = (Ok self, w1) ->
  base_path self
  = PyPath.of_string
      ("forecast/" +:+
       format_optional (bind_default (Some "batch_1") (arg_batch_id args))
       +:+ "/segment_results/").
Proof.
  unfold __init__.
  destruct (bind_default None (arg_segment_list args)) as [segs|];
    [|discriminate].
  destruct (bind_default (Some "batch_1") (arg_batch_id args)) as [b|];
    intros H; injection H as <- _; reflexivity.
Qed.

Lemma forecast_parts (b : string) :
  PyPath.of_string ("forecast/" +:+ b +:+ "/segment_results/")
  = {| anchored := false;
       parts := "forecast" :: PyPath.parse_parts b ++ ["segment_results"] |}.
Proof.
  unfold PyPath.of_string. f_equal.
  change ("forecast/" +:+ b +:+ "/segment_results/")
    with ("forecast" +:+ "/" +:+ (b +:+ "/" +:+ "segment_results/")).
  rewrite !parse_parts_app. reflexivity.
Qed.

Lemma dict_get_filter {V} (keep : Z -> bool) (k : Z) (d : pydict Z V) :
  dict_get k (List.filter (fun kv => keep (fst kv)) d)
  = if keep k then dict_get k d else None.
Proof.
  induction d as [|[k' v] d IH]; simpl.
  - destruct (keep k); reflexivity.
  - destruct (keep k') eqn:Hk'; simpl.
    + destruct (decide (k = k')) as [->|Hne]; [rewrite Hk'; reflexivity|].
      exact IH.
    + destruct (decide (k = k')) as [->|Hne]; [rewrite Hk' in *; exact IH|].
      exact IH.
Qed.

Lemma select_segment_filters self ids module_dict w :
  module_id_list self = Attr ids ->
  select_segment self module_dict w
  = (Ok (List.filter (fun kv => bool_decide (fst kv ∈ ids)) module_dict), w).
Proof.
  intros Hids. induction module_dict as [|[k v] d IH]; [reflexivity|].
  simpl. unfold bind at 1. rewrite Hids. simpl.
  unfold bind at 1. rewrite IH. reflexivity.
Qed.

Lemma dict_get_rev_NoDup {K V} `{EqDecision K} (k : K) (d : pydict K V) :
  NoDup (map fst d) -> dict_get k (rev d) = dict_get k d.
Proof.
  induction d as [|[k' v] d IH]; intros Hd; [reflexivity|].
  inversion Hd as [|? ? Hnotin Hd']; subst.
  change (rev ((k', v) :: d)) with (rev d ++ [(k', v)]).
  change (rev d ++ [(k', v)])
    with (rev d ++ [(k', v)] ++ []).
  assert (Happ : forall l : pydict K V,
            dict_get k (l ++ [(k', v)])
            = match dict_get k l with
              | Some x => Some x
              | None => if decide (k = k') then Some v else None
              end).
  { induction l as [|[k0 v0] l IHl]; simpl; [reflexivity|].
    destruct (decide (k = k0)); [reflexivity | exact IHl]. }
  simpl. rewrite Happ, (IH Hd').
  destruct (decide (k = k')) as [->|Hne]; [|destruct (dict_get k d); reflexivity].
  destruct (dict_get k' d) as [x|] eqn:Hx; [|reflexivity].
  exfalso. apply Hnotin.
  clear -Hx. induction d as [|[k0 v0] d IHd]; [discriminate|].
  simpl in *. destruct (decide (k' = k0)) as [->|];
    [apply list_elem_of_here | apply list_elem_of_further, IHd, Hx].
Qed.

End more_construction.

(** X17.  The output directory is built from the [batch_id] argument as
    it was passed, not from the identifier the orchestrator ends up
    with: its components are [forecast], the components of the text of
    the argument, and [segment_results].  When the argument is [None]
    the identifier is a generated UUID, yet the directory is
    [forecast/None/segment_results]. *)
Theorem base_path_after_init :
  forall (args : LWOrchestrator.init_args) (w : World)
         (self : LWOrchestrator.t) (w1 : World),
    LWOrchestrator.__init__ args w = (Ok self, w1) ->
    LWOrchestrator.base_path self
    = {| anchored := false;
         parts := "forecast"
                  :: PyPath.parse_parts
                       (format_optional
                          (bind_default (Some "batch_1")
                             (LWOrchestrator.arg_batch_id args)))
                  ++ ["segment_results"] |} /\
    (LWOrchestrator.arg_batch_id args = Given None ->
     PyPath.to_string (LWOrchestrator.base_path self)
     = "forecast/None/segment_results" /\
     LWOrchestrator.batch_id self <> "None").
Proof.
  intros args w self w1 Hinit.
  rewrite (init_base_path _ _ _ _ Hinit), forecast_parts.
  split; [reflexivity|]. intros Hnone.
  destruct (init_returns _ _ _ _ Hinit) as (_ & _ & _ & _ & _ & Hbatch).
  rewrite Hnone in *. simpl in Hbatch. destruct Hbatch as [Hid _].
  split; [reflexivity|].
  intros Heq. rewrite Heq in Hid.
  apply (f_equal String.length) in Hid.
  pose proof (well_formed_length _
                (to_string_well_formed
                   (uuid.uuid4_int (urandom w (urandom_draws w))))) as Hlen.
  rewrite Hlen in Hid. discriminate.
Qed.

Lemma base_path_after_init_witness :
  exists (self : LWOrchestrator.t) (w1 : World),
    LWOrchestrator.__init__ segment_and_nones fresh_world = (Ok self, w1) /\
    PyPath.to_string (LWOrchestrator.base_path self)
    = "forecast/None/segment_results".
Proof.
  destruct (init_with_segment_list segment_and_nones ["segment"] fresh_world
              eq_refl) as (self & w1 & Hinit).
  exists self, w1. split; [exact Hinit|].
  apply (proj2 (base_path_after_init _ _ _ _ Hinit)). reflexivity.
Defined.

(** X18.  On an orchestrator with a [module_id_list], [select_segment]
    changes nothing and returns the items of the dict whose key is in
    the list, in the order of the dict: a key in the list has the value
    it has in the dict, any other key is absent.  On the empty dict it
    returns the empty dict even when there is no [module_id_list]. *)
Theorem select_segment_selects :
  forall (self : LWOrchestrator.t) (module_dict : pydict Z process_dict)
         (w : World),
    LWOrchestrator.select_segment self [] w = (Ok [], w) /\
    (forall ids : list Z,
       LWOrchestrator.module_id_list self = Attr ids ->
       exists selected : pydict Z process_dict,
         LWOrchestrator.select_segment self module_dict w
         = (Ok selected, w) /\
         selected
         = List.filter (fun kv => bool_decide (fst kv ∈ ids)) module_dict /\
         forall k : Z,
           dict_get k selected
           = if bool_decide (k ∈ ids) then dict_get k module_dict else None).
Proof.
  intros self module_dict w. split; [reflexivity|].
  intros ids Hids. eexists. split; [apply (select_segment_filters _ _ _ _ Hids)|].
  split; [reflexivity|]. intros k.
  pose proof (dict_get_filter (fun k0 : Z => bool_decide (k0 ∈ ids))
                k module_dict) as Hget.
  exact Hget.
Qed.

Lemma select_segment_selects_witness :
  exists (self : LWOrchestrator.t) (w1 : World),
    LWOrchestrator.__init__ two_processes fresh_world = (Ok self, w1) /\
    LWOrchestrator.select_segment
      (LWOrchestrator.set_module_id_list [2%Z] self)
      [(1%Z, process_A); (2%Z, process_B)] w1
    = (Ok [(2%Z, process_B)], w1).
Proof.
  destruct (init_with_segment_list two_processes ["segment"] fresh_world
              eq_refl) as (self & w1 & Hinit).
  exists self, w1. split; [exact Hinit|].
  destruct (proj2 (select_segment_selects
                     (LWOrchestrator.set_module_id_list [2%Z] self)
                     [(1%Z, process_A); (2%Z, process_B)] w1) [2%Z] eq_refl)
    as (selected & Hrun & -> & _).
  exact Hrun.
Defined.

(** X19.  [append_to_results] returns a dict in which a key of the
    second dict has the value it has there and any other key the value
    it has in the first; the keys of the first dict stay unique, and
    the keys of the result are those of the two dicts. *)
Theorem append_to_results_lookup :
  forall (base_dict append_dict : pydict string value),
    NoDup (map fst append_dict) ->
    (forall k : string,
       dict_get k (LWOrchestrator.append_to_results base_dict append_dict)
       = match dict_get k append_dict with
         | Some v => Some v
         | None => dict_get k base_dict
         end) /\
    (NoDup (map fst base_dict) ->
     NoDup (map fst (LWOrchestrator.append_to_results base_dict append_dict))) /\
    (forall k : string,
       k ∈ map fst (LWOrchestrator.append_to_results base_dict append_dict)
       <-> k ∈ map fst base_dict \/ k ∈ map fst append_dict).
Proof.
  intros base_dict append_dict Hunique.
  assert (Hget : forall k,
            dict_get k (LWOrchestrator.append_to_results base_dict append_dict)
            = match dict_get k append_dict with
              | Some v => Some v
              | None => dict_get k base_dict
              end).
  { intros k. unfold LWOrchestrator.append_to_results.
    rewrite dict_merge_later_wins, (dict_get_rev_NoDup _ _ Hunique).
    reflexivity. }
  split; [exact Hget|]. split.
  - intros Hbase. apply dict_assignments_NoDup, Hbase.
  - intros k. rewrite <- !dict_get_is_Some, Hget.
    destruct (dict_get k append_dict) as [v|].
    + split; [intros _; right; eauto | intros _; eauto].
    + split; [intros H; left; exact H|].
      intros [H|[x H]]; [exact H | discriminate].
Qed.

Lemma append_to_results_lookup_witness :
  dict_get "k"
    (LWOrchestrator.append_to_results
       [("k", VInt 1); ("j", VInt 0)] [("k", VInt 2)])
  = Some (VInt 2).
Proof.
  apply (proj1 (append_to_results_lookup
                  [("k", VInt 1); ("j", VInt 0)] [("k", VInt 2)]
                  ltac:(repeat constructor; intros H; inversion H)) "k").
Defined.

(** ** Names: base names and time stamps *)

Section name_facts.

Import DiskInteractions.

Lemma substring_split (s : string) : forall n : nat,
  (n <= String.length s)%nat ->
  substring 0 n s +:+ substring n (String.length s - n) s = s.
Proof.
  induction s as [|x s IH]; intros n Hn.
  - simpl in Hn. assert (n = 0%nat) as -> by lia. reflexivity.
  - destruct n as [|n].
    + simpl. rewrite append_nil_l. f_equal. apply substring_all.
    + simpl in *. rewrite append_cons. f_equal. apply IH. lia.
Qed.

Lemma rfind_from_bounds c s : forall i last,
  (-1 <= last < i)%Z ->
  (-1 <= PyStr.rfind_from c s i last < i + Z.of_nat (String.length s))%Z.
Proof.
  induction s as [|x s IH]; intros i last Hlast; simpl.
  - lia.
  - destruct (Ascii.eqb x c).
    + specialize (IH (i + 1)%Z i). lia.
    + specialize (IH (i + 1)%Z last). lia.
Qed.

Lemma rfind_bounds c s :
  (-1 <= PyStr.rfind c s < Z.of_nat (String.length s))%Z.
Proof.
  pose proof (rfind_from_bounds c s 0 (-1)) as H. unfold PyStr.rfind. lia.
Qed.

(** [os.path.splitext] cuts the name in two. *)
Lemma splitext_concat (p : string) :
  fst (PyStr.splitext p) +:+ snd (PyStr.splitext p) = p.
Proof.
  unfold PyStr.splitext.
  pose proof (rfind_bounds "/" p) as Hsep.
  pose proof (rfind_bounds "." p) as Hdot.
  destruct ((PyStr.rfind "/" p <? PyStr.rfind "." p)%Z && _) eqn:Hcut;
    simpl; [|apply append_empty_r].
  apply andb_prop in Hcut as [Hlt _]. apply Z.ltb_lt in Hlt.
  unfold PyStr.slice_to, PyStr.slice_from. apply substring_split. lia.
Qed.

Lemma length_digits width : forall n acc,
  String.length (PyStr.digits width n acc) = (width + String.length acc)%nat.
Proof.
  induction width as [|width IH]; intros n acc; simpl; [reflexivity|].
  rewrite IH. simpl. lia.
Qed.

Lemma length_strftime (t : datetime) : String.length (strftime t) = 19%nat.
Proof.
  unfold strftime, PyStr.zero_padded.
  rewrite !length_append, !length_digits. reflexivity.
Qed.

End name_facts.

(** X20.  In a batch, two destinations that differ only in the
    directory share one key.  For a name without slashes and any two
    directory parts, both writes are made, one after the other, and the
    dict that [write_files_to_disk] returns has the name as its only
    key, with the outcome of the second write: that of the first is not
    reported. *)
Theorem write_files_to_disk_same_base_name :
  forall (dir1 dir2 name : string) (data1 data2 : value)
         (include_datetime ret_result : bool) (w : World),
    free_of "/" name = true ->
    exists (written1 written2 : bool) (w1 w2 : World),
      DiskInteractions.write_file_to_disk
        data1 (PStr (dir1 +:+ "/" +:+ name)) include_datetime ret_result w
      = (Ok written1, w1) /\
      DiskInteractions.write_file_to_disk
        data2 (PStr (dir2 +:+ "/" +:+ name)) include_datetime ret_result w1
      = (Ok written2, w2) /\
      DiskInteractions.write_files_to_disk
        [(PStr (dir1 +:+ "/" +:+ name), data1);
         (PStr (dir2 +:+ "/" +:+ name), data2)]
        include_datetime ret_result w
      = (Ok [(name, written2)], w2).
Proof.
  intros dir1 dir2 name data1 data2 include_datetime ret_result w Hname.
  destruct (write_file_to_disk_returns
              data1 (PStr (dir1 +:+ "/" +:+ name)) include_datetime
              ret_result w) as (b1 & w1 & H1).
  destruct (write_file_to_disk_returns
              data2 (PStr (dir2 +:+ "/" +:+ name)) include_datetime
              ret_result w1) as (b2 & w2 & H2).
  exists b1, b2, w1, w2. split; [exact H1|]. split; [exact H2|].
  unfold DiskInteractions.write_files_to_disk. simpl.
  unfold bind at 1. rewrite H1. unfold bind at 1. rewrite H2.
  simpl. rewrite !(basename_of_joined _ _ Hname). simpl.
  destruct (decide (name = name)); [reflexivity | contradiction].
Qed.

Lemma write_files_to_disk_same_base_name_witness :
  exists (written2 : bool) (w2 : World),
    DiskInteractions.write_files_to_disk
      [(PStr ("a" +:+ "/" +:+ "x.json"), VInt 1);
       (PStr ("b" +:+ "/" +:+ "x.json"), VInt 2)]
      false false fresh_world
    = (Ok [("x.json", written2)], w2).
Proof.
  destruct (write_files_to_disk_same_base_name
              "a" "b" "x.json" (VInt 1) (VInt 2) false false fresh_world
              eq_refl) as (b1 & b2 & w1 & w2 & _ & _ & Hbatch).
  exists b2, w2. exact Hbatch.
Defined.

(** X21.  The name of a time-stamped write.  [_set_upload_file_name]
    reads the clock once and returns the name cut by [os.path.splitext]
    with an underscore and the 19 characters of the time stamp put
    between the two parts: the result is 20 characters longer than the
    name and ends with the extension that [splitext] found, so a name
    with the extension [.json] or [.csv] is written by the same
    serialiser with and without the time stamp. *)
Theorem upload_file_name_keeps_extension :
  forall (file_name : pathlike) (w : World),
  exists upload : string,
    DiskInteractions._set_upload_file_name file_name w
    = (Ok (PStr upload), set_clock_reads (S (clock_reads w)) w) /\
    String.length upload = (String.length (fspath file_name) + 20)%nat /\
    PyStr.endswith upload (snd (PyStr.splitext (fspath file_name))) = true /\
    forall data_out : value,
      snd (PyStr.splitext (fspath file_name)) = ".json" ->
      DiskInteractions._write_fun_from_file_extension (PStr upload) data_out
      = DiskInteractions._write_json_data data_out upload.
Proof.
  intros file_name w. eexists. split; [reflexivity|].
  pose proof (splitext_concat (fspath file_name)) as Hcut.
  set (root := fst (PyStr.splitext (fspath file_name))) in *.
  set (ext := snd (PyStr.splitext (fspath file_name))) in *.
  assert (Hends : PyStr.endswith
                    (root +:+ "_" +:+
                     DiskInteractions.strftime (clock w (clock_reads w))
                     +:+ ext) ext = true).
  { rewrite <- !append_assoc. apply endswith_append. }
  split; [|split; [exact Hends|]].
  - rewrite <- Hcut. rewrite !length_append, length_strftime. simpl. lia.
  - intros data_out Hext.
    unfold DiskInteractions._write_fun_from_file_extension.
    rewrite Hext in Hends |- *. rewrite Hends. reflexivity.
Qed.

Lemma upload_file_name_witness :
  exists upload : string,
    DiskInteractions._set_upload_file_name (PStr "out/x.json") fresh_world
    = (Ok (PStr upload), set_clock_reads 1 fresh_world) /\
    String.length upload = 30%nat /\
    DiskInteractions._write_fun_from_file_extension (PStr upload) (VInt 1)
    = DiskInteractions._write_json_data (VInt 1) upload.
Proof.
  destruct (upload_file_name_keeps_extension (PStr "out/x.json") fresh_world)
    as (upload & Hrun & Hlen & _ & Hjson).
  exists upload. split; [exact Hrun|]. split; [exact Hlen|].
  apply Hjson. reflexivity.
Defined.

(** ** The remote channel of [write_output] *)

Section blob_route.

Ltac unroll := rewrite ?append_cons, ?append_nil_l; simpl.

Lemma results_name_component (segment_list : list string) :
  Forall (fun s => free_of "/" s = true) segment_list ->
  component (PyStr.join "_" segment_list +:+ "_results.json") = true.
Proof.
  intros Hsegs. unfold component.
  rewrite free_of_append, (free_of_join "/" "_" _ eq_refl Hsegs).
  apply andb_true_intro. split; [reflexivity|].
  apply negb_true_iff, orb_false_intro; apply String.eqb_neq; intros Heq;
    apply (f_equal String.length) in Heq; rewrite length_append in Heq;
    simpl in Heq; lia.
Qed.

Lemma forecast_directory (middle : list string) :
  let dir := PyStr.join "/" ("forecast" :: middle ++ ["segment_results"]) in
  dir <> "" /\
  PyStr.startswith dir "/" = false /\
  PyStr.endswith dir "/" = false.
Proof.
  intros dir. subst dir.
  change ("forecast" :: middle ++ ["segment_results"])
    with (("forecast" :: middle) ++ ["segment_results"]).
  rewrite join_snoc by discriminate.
  split; [|split].
  - destruct middle as [|m middle]; unroll; discriminate.
  - destruct middle as [|m middle]; unroll; reflexivity.
  - unfold PyStr.endswith. rewrite !rev_append.
    change (String.rev "segment_results") with "stluser_tnemges".
    unroll. reflexivity.
Qed.

Lemma to_string_relative (ps : list string) :
  ps <> [] ->
  PyPath.to_string {| anchored := false; parts := ps |} = PyStr.join "/" ps.
Proof. destruct ps; [contradiction | reflexivity]. Qed.

End blob_route.

(** X22.  Through the ["azure_blob"] channel [write_output] stores the
    results under the output directory as key.  For an orchestrator
    whose [base_path] is the one the constructor builds from the text
    [b] of its [batch_id] argument, with a client of the remote store
    attached, and segment names without slashes: the call returns
    normally, the payload is stored under the pair of the text of
    [base_path] and the segment names joined with underscores followed
    by [_results.json], the file system is as it was and the log has the
    two records of the call. *)
Theorem write_output_to_blob_stores_under_key :
  forall (self : LWOrchestrator.t) (b : string) (data : pydict string value)
         (segment_list : list string) (w : World),
    LWOrchestrator.base_path self
    = PyPath.of_string ("forecast/" +:+ b +:+ "/segment_results/") ->
    LWOrchestrator.results_channel self = "azure_blob" ->
    LWOrchestrator.interactor self = Attr BlobStore ->
    Forall (fun s => free_of "/" s = true) segment_list ->
    exists w' : World,
      LWOrchestrator.write_output self data segment_list w = (Ok tt, w') /\
      blob w'
      = <[(PyPath.to_string (LWOrchestrator.base_path self),
           PyStr.join "_" segment_list +:+ "_results.json") := VDict data]>
          (blob w) /\
      fs w' = fs w /\
      log w' = log w ++ [WritingResults segment_list;
                         OutputWritten "azure_blob"
                           (LWOrchestrator.batch_id self)].
Proof.
  intros self b data segment_list w Hbase Hchannel Hinteractor Hsegs.
  pose proof (results_name_component _ Hsegs) as Hname.
  set (name := PyStr.join "_" segment_list +:+ "_results.json") in *.
  assert (Hfree : free_of "/" name = true).
  { unfold component in Hname. apply andb_prop in Hname as [H _]. exact H. }
  rewrite forecast_parts in Hbase.
  destruct (forecast_directory (PyPath.parse_parts b))
    as (Hdir & Hstart & Hend).
  set (ps := "forecast" :: PyPath.parse_parts b ++ ["segment_results"]) in *.
  assert (Hstr : PyPath.to_string (LWOrchestrator.base_path self)
                 = PyStr.join "/" ps).
  { rewrite Hbase. apply to_string_relative. discriminate. }
  assert (Hjoined :
            fspath (PPath (PyPath.joinpath (LWOrchestrator.base_path self) name))
            = PyStr.join "/" ps +:+ "/" +:+ name).
  { unfold PyPath.joinpath. rewrite (startswith_slash_free _ Hfree).
    rewrite (parse_parts_component _ Hname), Hbase.
    unfold fspath. cbn [anchored parts].
    rewrite to_string_relative by (subst ps; discriminate).
    apply join_snoc. discriminate. }
  unfold LWOrchestrator.write_output, LWOrchestrator._upload_file_to_output_channel.
  fold name. rewrite Hjoined, Hchannel, Hinteractor, Hstr.
  rewrite (split_of_joined _ _ Hfree (lstrip_slash_appended _ Hdir Hstart) Hend).
  eexists. split; [reflexivity|].
  simpl. split; [reflexivity|]. split; [reflexivity|].
  rewrite <- app_assoc. reflexivity.
Qed.

Lemma write_output_to_blob_witness :
  exists (self : LWOrchestrator.t) (w1 w2 : World),
    LWOrchestrator.__init__ two_processes fresh_world = (Ok self, w1) /\
    LWOrchestrator.write_output
      (LWOrchestrator.set_interactor BlobStore self)
      [("k", VInt 2)] ["segment"] w1 = (Ok tt, w2) /\
    blob w2 !! ("forecast/test_1/segment_results", "segment_results.json")
    = Some (VDict [("k", VInt 2)]).
Proof.
  destruct (init_with_segment_list two_processes ["segment"] fresh_world
              eq_refl) as (self & w1 & Hinit).
  destruct (init_returns _ _ _ _ Hinit) as (_ & _ & _ & _ & Hchannel & _).
  pose proof (init_base_path _ _ _ _ Hinit) as Hbase.
  destruct (write_output_to_blob_stores_under_key
              (LWOrchestrator.set_interactor BlobStore self) "test_1"
              [("k", VInt 2)] ["segment"] w1 Hbase Hchannel eq_refl)
    as (w2 & Hrun & Hblob & _).
  { repeat constructor. }
  exists self, w1, w2. split; [exact Hinit|]. split; [exact Hrun|].
  rewrite Hblob.
  change (LWOrchestrator.base_path
            (LWOrchestrator.set_interactor BlobStore self))
    with (LWOrchestrator.base_path self).
  rewrite Hbase. apply lookup_insert_eq.
Defined.
